(** * Verification of the QGIS grid tool [subset-polygon.py]

    The development embeds [BoundingBoxDivider.processAlgorithm]
    (src/QGIS/subset-polygon.py) and proves the properties of the grid it
    writes.

    Numbers are modelled as Python has them: a [float] is an IEEE 754
    binary64 value (the kernel's primitive floats, whose operations are the
    hardware's), an [int] is an unbounded integer ([Z]).  The exact rational
    value of a finite float is available through [Py.F2Q], which is how
    statements about "the number xMin + col * width" are phrased. *)

From Stdlib Require Import ZArith Zpower QArith Qpower Qround Qabs.
From Stdlib Require Import List String Ascii Bool.
From Stdlib Require Import Lia Lqa Floats DecimalString.
From Stdlib Require DecimalFacts DecimalPos.
Import ListNotations.

Set Implicit Arguments.

(** ** Python numerics *)

Module Py.

(** The exceptions that can leave [processAlgorithm].  [NameError] is what
    the two [raise QgsProcessingException(...)] statements produce: the
    module imports a list of names from [qgis.core] (lines 43-50) in which
    [QgsProcessingException] does not occur, so evaluating the callee of
    the [raise] expression fails before any exception object is built. *)
Inductive exn : Type :=
| NameError
| ZeroDivisionError
| OverflowError
| ValueError.

Definition result (A : Type) : Type := (exn + A)%type.

(** [float(z)] for a Python int: the nearest binary64 value, ties to even.
    CPython raises [OverflowError] once [|z| >= 2^1024 - 2^970]; no integer
    converted by this program reaches that bound ([num_columns] is a C
    [int] handed over by [parameterAsInt], [row] is below the ceiling of a
    finite double, and the literal [2]), so the conversion is total here. *)
Definition float_of_int (z : Z) : float :=
  SF2Prim (binary_normalize prec emax z 0 false).

(** [a / b] on floats: CPython tests [b == 0.0] first (true for both signed
    zeros, false for NaN) and raises; otherwise IEEE division. *)
Definition truediv (a b : float) : result float :=
  if PrimFloat.eqb b PrimFloat.zero then inl ZeroDivisionError
  else inr (PrimFloat.div a b).

(** [a / n] for a float and an int: the int is converted and the
    division is the one above; the converted divisor is a zero exactly
    when the int is 0. *)
Definition truediv_int (a : float) (n : Z) : result float :=
  if (n =? 0)%Z then inl ZeroDivisionError
  else inr (PrimFloat.div a (float_of_int n)).

(** [n * a] for an int and a float. *)
Definition mul_int (n : Z) (a : float) : float :=
  PrimFloat.mul (float_of_int n) a.

(** Powers of two as rationals. *)
Definition Qpow2 (e : Z) : Q := 2 ^ e.

(** The number a specification float stands for; [None] for the
    infinities and NaN. *)
Definition SF2Q (x : spec_float) : option Q :=
  match x with
  | S754_zero _ => Some 0
  | S754_finite s m e => Some (inject_Z (cond_Zopp s (Zpos m)) * Qpow2 e)
  | S754_infinity _ => None
  | S754_nan => None
  end.

(** The exact value of a float. *)
Definition F2Q (x : float) : option Q := SF2Q (Prim2SF x).

(** [math.ceil(x)]: the least integer not below the exact value of [x];
    [OverflowError] on an infinity, [ValueError] on NaN. *)
Definition ceil (x : float) : result Z :=
  match Prim2SF x with
  | S754_nan => inl ValueError
  | S754_infinity _ => inl OverflowError
  | y => match SF2Q y with
         | Some q => inr (Qceiling q)
         | None => inl ValueError
         end
  end.

(** Nearest integer to [n / d] ([d > 0]), ties to the even one. *)
Definition round_half_even (n : Z) (d : positive) : Z :=
  let q := (n / Zpos d)%Z in
  let r := (n mod Zpos d)%Z in
  match (2 * r ?= Zpos d)%Z with
  | Lt => q
  | Gt => (q + 1)%Z
  | Eq => if Z.even q then q else (q + 1)%Z
  end.

(** The binary64 value nearest to [a / b] for positive integers, ties to
    even (the division of the IEEE specification applied to the integers
    themselves, so that the quotient is rounded once). *)
Definition div_pos_nearest (s : bool) (a b : positive) : float :=
  SF2Prim (SFdiv prec emax (S754_finite s a 0) (S754_finite false b 0)).

(** [round(x, 6)] on a float (CPython's [double_round]): non-finite values
    are returned unchanged; otherwise the exact value is rounded to the
    nearest multiple of [10^-6], ties to even, and that decimal is
    converted to the nearest double.  The sign of [x] is kept on a zero
    result. *)
Definition round6 (x : float) : float :=
  match Prim2SF x with
  | S754_finite s m e =>
      let scaled := (inject_Z (Zpos m) * Qpow2 e * inject_Z 1000000)%Q in
      match round_half_even (Qnum scaled) (Qden scaled) with
      | Zpos k => div_pos_nearest s k 1000000
      | _ => if s then PrimFloat.neg_zero else PrimFloat.zero
      end
  | _ => x
  end.

(** [a / b] on ints: [ZeroDivisionError] when [b] is 0, otherwise the
    binary64 value nearest to the quotient (CPython rounds the quotient
    of the integers once). *)
Definition int_truediv (a b : Z) : result float :=
  match a, b with
  | _, Z0 => inl ZeroDivisionError
  | Z0, Zpos _ => inr PrimFloat.zero
  | Z0, Zneg _ => inr PrimFloat.neg_zero
  | Zpos p, Zpos q => inr (div_pos_nearest false p q)
  | Zpos p, Zneg q => inr (div_pos_nearest true p q)
  | Zneg p, Zpos q => inr (div_pos_nearest true p q)
  | Zneg p, Zneg q => inr (div_pos_nearest false p q)
  end.

(** [range(n)]: [0, 1, ..., n-1], empty when [n <= 0]. *)
Definition range (n : Z) : list Z :=
  map Z.of_nat (seq 0 (Z.to_nat n)).

(** [f"{n:02d}"]: decimal digits, zero-padded to two characters (the sign
    of a negative number counts as one of them). *)
Definition format_02d (n : Z) : string :=
  match n with
  | Z0 => "00"%string
  | Zpos p =>
      let s := NilZero.string_of_uint (Pos.to_uint p) in
      if (String.length s <? 2)%nat then String "0"%char s else s
  | Zneg p => String "-"%char (NilZero.string_of_uint (Pos.to_uint p))
  end.

End Py.

(** ** QGIS data, as far as the algorithm touches it *)

(** [QVariant] type tags of attribute columns; the algorithm creates
    [Int], [String] and [Double] columns and passes any other through. *)
Inductive QVariantType : Type :=
| QInt
| QString
| QDouble
| QOther (tag : nat).

Record QgsField : Type := mkField {
  name : string;
  typ : QVariantType
}.

(** [QgsFields]: an ordered container of fields, looked up by name. *)
Definition QgsFields : Type := list QgsField.

Definition lookupField (fs : QgsFields) (n : string) : bool :=
  existsb (fun f => String.eqb (name f) n) fs.

(** [QgsFields.append]: the field is added at the end, unless a field of
    that name is present, in which case the container is left as it is. *)
Definition append (fs : QgsFields) (f : QgsField) : QgsFields :=
  if lookupField fs (name f) then fs else fs ++ [f].

(** Attribute values; [None] is Python's [None] (a NULL attribute). *)
Inductive value : Type :=
| VInt (z : Z)
| VStr (s : string)
| VDouble (x : float).

Definition attribute : Type := option value.

Record QgsPointXY : Type := mkPoint {
  px : float;
  py : float
}.

(** [QgsRectangle(xMin, yMin, xMax, yMax)], kept as the four arguments. *)
Record QgsRectangle : Type := mkRect {
  xMinimum : float;
  yMinimum : float;
  xMaximum : float;
  yMaximum : float
}.

(** A feature: its schema, its geometry (an axis-aligned rectangle for the
    features written; the bounding box of the polygon for the one read)
    and one attribute per field. *)
Record QgsFeature : Type := mkFeature {
  fields : QgsFields;
  geometry : QgsRectangle;
  attributes : list attribute
}.

Record FeatureSource : Type := mkSource {
  source_fields : QgsFields;
  getFeatures : list QgsFeature
}.

(** The value a feature holds under a field name. *)
Fixpoint attribute_of (fs : QgsFields) (vs : list attribute) (n : string)
  : attribute :=
  match fs, vs with
  | f :: fs', v :: vs' =>
      if String.eqb (name f) n then v else attribute_of fs' vs' n
  | _, _ => None
  end.

Definition attr (f : QgsFeature) (n : string) : attribute :=
  attribute_of (fields f) (attributes f) n.

(** A Python dict with string keys, and [d.get(k, None)]. *)
Definition dict : Type := list (string * value).

Fixpoint get (d : dict) (k : string) : attribute :=
  match d with
  | [] => None
  | (k', v) :: d' => if String.eqb k' k then Some v else get d' k
  end.

(** What the run does to the outside: calls of the distance calculator,
    features handed to the sink and progress reports, in order. *)
Inductive event : Type :=
| MeasureLine (point1 point2 : QgsPointXY)
| AddFeature (feature : QgsFeature)
| SetProgress (percent : float).

(** The features in the sink after a run. *)
Fixpoint sink (evs : list event) : list QgsFeature :=
  match evs with
  | [] => []
  | AddFeature f :: evs' => f :: sink evs'
  | _ :: evs' => sink evs'
  end.

(** The calls of the distance calculator made by a run. *)
Fixpoint measured (evs : list event) : list (QgsPointXY * QgsPointXY) :=
  match evs with
  | [] => []
  | MeasureLine p q :: evs' => (p, q) :: measured evs'
  | _ :: evs' => measured evs'
  end.

(** The parameters of one invocation, after [parameterAsSource],
    [parameterAsInt] and [parameterAsSink]: [None] for a source that
    cannot be read, and for a sink that cannot be created. *)
Record Parameters : Type := mkParameters {
  INPUT : option FeatureSource;
  COLUMNS : Z;
  OUTPUT : option string
}.

(** [initAlgorithm] declares the COLUMNS parameter as an integer with
    default 2 and minimum 1 (lines 68-76); the host checks declared
    bounds before it calls [processAlgorithm]. *)
Definition COLUMNS_defaultValue : Z := 2.
Definition COLUMNS_minValue : Z := 1.

(** ** The algorithm *)

Section Algorithm.

(** [QgsDistanceArea.measureLine] on the WGS84 ellipsoid, for two points. *)
Variable measureLine : QgsPointXY -> QgsPointXY -> float.

(** [feedback.isCanceled()]: the answer to the k-th poll of the run. *)
Variable isCanceled : nat -> bool.

(** Lines 93-101: the input schema extended by the eight columns. *)
Definition output_fields (source : FeatureSource) : QgsFields :=
  let fields := source_fields source in
  let fields := append fields (mkField "cell_id" QInt) in
  let fields := append fields (mkField "cell_name" QString) in
  let fields := append fields (mkField "row" QInt) in
  let fields := append fields (mkField "col" QInt) in
  let fields := append fields (mkField "center_lat" QDouble) in
  let fields := append fields (mkField "center_lon" QDouble) in
  let fields := append fields (mkField "buffer" QDouble) in
  let fields := append fields (mkField "notes" QString) in
  fields.

Section Grid.

Variable fields : QgsFields.
Variable num_columns : Z.
Variables x_min y_min width_degrees height_degrees : float.
Variable total : Z.

Definition half (a : float) : float := PrimFloat.div a (Py.float_of_int 2).

Definition cell_x_min (col : Z) : float :=
  PrimFloat.add x_min (Py.mul_int col width_degrees).
Definition cell_x_max (col : Z) : float :=
  PrimFloat.add (cell_x_min col) width_degrees.
Definition cell_y_min (row : Z) : float :=
  PrimFloat.add y_min (Py.mul_int row height_degrees).
Definition cell_y_max (row : Z) : float :=
  PrimFloat.add (cell_y_min row) height_degrees.

Definition center_x (col : Z) : float :=
  half (PrimFloat.add (cell_x_min col) (cell_x_max col)).
Definition center_y (row : Z) : float :=
  half (PrimFloat.add (cell_y_min row) (cell_y_max row)).

Definition buffer : float := half width_degrees.

Definition cell_name (row col : Z) : string :=
  ("R" ++ Py.format_02d (row + 1) ++ "C" ++ Py.format_02d (col + 1))%string.

(** Lines 181-190. *)
Definition attrs (row col cell_id : Z) : dict :=
  [ ("cell_id"%string, VInt cell_id);
    ("cell_name"%string, VStr (cell_name row col));
    ("row"%string, VInt (row + 1));
    ("col"%string, VInt (col + 1));
    ("center_lat"%string, VDouble (Py.round6 (center_y row)));
    ("center_lon"%string, VDouble (Py.round6 (center_x col)));
    ("buffer"%string, VDouble (Py.round6 buffer));
    ("notes"%string, VStr "") ].

(** Lines 155-194: the feature built in one pass of the inner loop. *)
Definition make_feature (row col cell_id : Z) : QgsFeature :=
  let rect := mkRect (cell_x_min col) (cell_y_min row)
                     (cell_x_max col) (cell_y_max row) in
  let attribute_values :=
    map (fun f => get (attrs row col cell_id) (name f)) fields in
  mkFeature fields rect attribute_values.

(** The inner loop (lines 154-201), threading the counters [cell_id]
    and [current]: a feature is built and added to the sink, the counters
    advance, and the progress [100 * current / total] is reported. *)
Fixpoint col_loop (cols : list Z) (row cell_id current : Z)
  : list event * Py.result (Z * Z) :=
  match cols with
  | [] => ([], inr (cell_id, current))
  | col :: cols' =>
      let feature := make_feature row col cell_id in
      let cell_id := (cell_id + 1)%Z in
      let current := (current + 1)%Z in
      match Py.int_truediv (100 * current) total with
      | inl e => ([AddFeature feature], inl e)
      | inr percent =>
          let '(evs, r) := col_loop cols' row cell_id current in
          (AddFeature feature :: SetProgress percent :: evs, r)
      end
  end.

(** The outer loop (lines 150-201), threading the counters and the
    number of polls of [feedback] made so far; a positive answer leaves
    the loop. *)
Fixpoint row_loop (rows : list Z) (cell_id current : Z) (polls : nat)
  : list event * Py.result nat :=
  match rows with
  | [] => ([], inr polls)
  | row :: rows' =>
      if isCanceled polls then ([], inr (S polls))
      else
        match col_loop (Py.range num_columns) row cell_id current with
        | (evs, inl e) => (evs, inl e)
        | (evs, inr (cell_id', current')) =>
            let '(evs', r) := row_loop rows' cell_id' current' (S polls) in
            (evs ++ evs', r)
        end
  end.

End Grid.

(** Line 124. *)
Definition widthDegrees (bbox : QgsRectangle) (num_columns : Z)
  : Py.result float :=
  Py.truediv_int (PrimFloat.sub (xMaximum bbox) (xMinimum bbox)) num_columns.

(** Line 139. *)
Definition heightDegrees (width_degrees : float) : float :=
  PrimFloat.abs width_degrees.

(** Lines 142-143. *)
Definition numRows (bbox : QgsRectangle) (height_degrees : float)
  : Py.result Z :=
  let total_height := PrimFloat.sub (yMaximum bbox) (yMinimum bbox) in
  match Py.truediv total_height height_degrees with
  | inl e => inl e
  | inr q => Py.ceil q
  end.

(** Lines 127-135: the two points handed to the distance calculator. *)
Definition measured_points (bbox : QgsRectangle) (width_degrees : float)
  : QgsPointXY * QgsPointXY :=
  let mid_lat := half (PrimFloat.add (yMaximum bbox) (yMinimum bbox)) in
  (mkPoint (xMinimum bbox) mid_lat,
   mkPoint (PrimFloat.add (xMinimum bbox) width_degrees) mid_lat).

(** The body of the loop over the input features (lines 116-201): the
    grid of one bounding box.  It returns the events of the pass and
    either the exception that ended it or the number of polls made. *)
Definition partition (fields : QgsFields) (num_columns : Z)
    (bbox : QgsRectangle) (polls : nat) : list event * Py.result nat :=
  let x_min := xMinimum bbox in
  let y_min := yMinimum bbox in
  match widthDegrees bbox num_columns with
  | inl e => ([], inl e)
  | inr width_degrees =>
      let '(point1, point2) := measured_points bbox width_degrees in
      let width_meters := measureLine point1 point2 in
      let height_degrees := heightDegrees width_degrees in
      match numRows bbox height_degrees with
      | inl e => ([MeasureLine point1 point2], inl e)
      | inr num_rows =>
          let cell_id := 1%Z in
          let total := (num_rows * num_columns)%Z in
          let current := 0%Z in
          let '(evs, r) :=
            row_loop fields num_columns x_min y_min
                     width_degrees height_degrees total
                     (Py.range num_rows) cell_id current polls in
          (MeasureLine point1 point2 :: evs, r)
      end
  end.

(** The loop over the input features (line 115). *)
Fixpoint feature_loop (fields : QgsFields) (num_columns : Z)
    (features : list QgsFeature) (polls : nat)
  : list event * Py.result nat :=
  match features with
  | [] => ([], inr polls)
  | input_feature :: features' =>
      match partition fields num_columns (geometry input_feature) polls with
      | (evs, inl e) => (evs, inl e)
      | (evs, inr polls') =>
          let '(evs', r) := feature_loop fields num_columns features' polls' in
          (evs ++ evs', r)
      end
  end.

(** [processAlgorithm] (lines 85-204): the events of the run and either
    the exception raised or the identifier of the output layer. *)
Definition processAlgorithm (parameters : Parameters)
  : list event * Py.result string :=
  match INPUT parameters with
  | None => ([], inl Py.NameError)
  | Some source =>
      let fields := output_fields source in
      match OUTPUT parameters with
      | None => ([], inl Py.NameError)
      | Some dest_id =>
          match feature_loop fields (COLUMNS parameters)
                             (getFeatures source) 0 with
          | (evs, inl e) => (evs, inl e)
          | (evs, inr _) => (evs, inr dest_id)
          end
      end
  end.

End Algorithm.

(** ** Vocabulary of the properties *)

(** The run is not cancelled: every poll of [feedback] answers no. *)
Definition never_canceled (isCanceled : nat -> bool) : Prop :=
  forall k, isCanceled k = false.

(** A rectangle of numbers, and the one a [QgsRectangle] stands for
    when its four bounds are finite. *)
Record QRect : Type := mkQRect {
  qx_min : Q;
  qy_min : Q;
  qx_max : Q;
  qy_max : Q
}.

Definition rect_value (r : QgsRectangle) : option QRect :=
  match Py.F2Q (xMinimum r), Py.F2Q (yMinimum r),
        Py.F2Q (xMaximum r), Py.F2Q (yMaximum r) with
  | Some a, Some c, Some b, Some d => Some (mkQRect a c b d)
  | _, _, _, _ => None
  end.

(** A request is valid when its four bounds are numbers with
    [xMax > xMin] and [yMax > yMin], and [numColumns >= 1]. *)
Definition valid_request (bbox : QgsRectangle) (num_columns : Z) : Prop :=
  match rect_value bbox with
  | Some B =>
      qx_min B < qx_max B /\ qy_min B < qy_max B /\ (1 <= num_columns)%Z
  | None => False
  end.

(** The features of one row, the first of them numbered [cell_id]. *)
Definition row_cells (fields : QgsFields) (num_columns : Z)
    (x_min y_min width_degrees height_degrees : float) (row cell_id : Z)
  : list QgsFeature :=
  map (fun col =>
         make_feature fields x_min y_min width_degrees height_degrees
                      row col (cell_id + col)%Z)
      (Py.range num_columns).

(** The grid of [num_rows] rows, numbered from 1 row by row. *)
Definition grid_cells (fields : QgsFields) (num_columns : Z)
    (x_min y_min width_degrees height_degrees : float) (num_rows : Z)
  : list QgsFeature :=
  flat_map (fun row =>
              row_cells fields num_columns x_min y_min
                        width_degrees height_degrees row
                        (1 + row * Z.max 0 num_columns)%Z)
           (Py.range num_rows).

(** The names of the eight columns the algorithm adds, and the columns
    themselves as [output_fields] appends them. *)
Definition new_columns : list string :=
  [ "cell_id"; "cell_name"; "row"; "col";
    "center_lat"; "center_lon"; "buffer"; "notes" ]%string.

Definition new_fields : list QgsField :=
  [ mkField "cell_id" QInt; mkField "cell_name" QString;
    mkField "row" QInt; mkField "col" QInt;
    mkField "center_lat" QDouble; mkField "center_lon" QDouble;
    mkField "buffer" QDouble; mkField "notes" QString ].

(** The point [(x, y)] lies in the rectangle, bounds included. *)
Definition in_rect (r : QgsRectangle) (x y : Q) : bool :=
  match rect_value r with
  | Some R =>
      Qle_bool (qx_min R) x && Qle_bool x (qx_max R)
      && Qle_bool (qy_min R) y && Qle_bool y (qy_max R)
  | None => false
  end.

(** The point lies in the bounds of one of the cells. *)
Definition covered (cells : list QgsFeature) (x y : Q) : bool :=
  existsb (fun f => in_rect (geometry f) x y) cells.

(** Every point of the input box lies in the bounds of a written cell. *)
Definition covers_input_box (bbox : QgsRectangle) (cells : list QgsFeature)
  : Prop :=
  forall x y : Q, in_rect bbox x y = true -> covered cells x y = true.

(** The cell [C] stays between the west and east edges of the box [B]
    and does not reach below its south edge. *)
Definition overshoots_north_only (B C : QRect) : Prop :=
  qx_min B <= qx_min C /\ qx_max C <= qx_max B /\ qy_min B <= qy_min C.



(** The float [x] is finite and stands for exactly the number [q]. *)
Definition exactly (x : float) (q : Q) : bool :=
  match Py.F2Q x with
  | Some r => Qeq_bool r q
  | None => false
  end.

(** The run on [bbox] with [num_columns] columns suffers no rounding
    that matters: the bounds are finite, the computed width is exactly
    [(xMax - xMin) / numColumns], the computed number of rows is the
    ceiling of the exact quotient [(yMax - yMin) / |width|], and the four
    bounds of every cell are exactly the numbers their formulas denote. *)
Definition exact_run (bbox : QgsRectangle) (num_columns : Z) : bool :=
  match rect_value bbox, widthDegrees bbox num_columns with
  | Some B, inr width_degrees =>
      let w := (qx_max B - qx_min B) / inject_Z num_columns in
      let h := Qabs w in
      let height_degrees := heightDegrees width_degrees in
      match numRows bbox height_degrees with
      | inr num_rows =>
          exactly width_degrees w
          && exactly height_degrees h
          && (num_rows =? Qceiling ((qy_max B - qy_min B) / h))%Z
          && forallb
               (fun col =>
                  exactly (cell_x_min (xMinimum bbox) width_degrees col)
                          (qx_min B + inject_Z col * w)
                  && exactly (cell_x_max (xMinimum bbox) width_degrees col)
                             (qx_min B + inject_Z col * w + w))
               (Py.range num_columns)
          && forallb
               (fun row =>
                  exactly (cell_y_min (yMinimum bbox) height_degrees row)
                          (qy_min B + inject_Z row * h)
                  && exactly (cell_y_max (yMinimum bbox) height_degrees row)
                             (qy_min B + inject_Z row * h + h))
               (Py.range num_rows)
      | inl _ => false
      end
  | _, _ => false
  end.

(** The number [q] is a whole multiple of [2 ^ (- g)], at most [2 ^ 25]
    steps from 0. *)
Definition lattice_number (g : Z) (q : Q) : bool :=
  let k := Qfloor (q * Py.Qpow2 g) in
  Qeq_bool (inject_Z k) (q * Py.Qpow2 g) && (Z.abs k <=? 2 ^ 25)%Z.

(** The request lies on the binary lattice of step [2 ^ (- g)]: the four
    bounds of the box and the exact cell width [(xMax - xMin) /
    numColumns] are whole multiples of the step, none of them more than
    [2 ^ 25] steps from 0. *)
Definition lattice_request (g : Z) (bbox : QgsRectangle) (num_columns : Z)
  : bool :=
  (0 <=? g)%Z && (g <=? 1000)%Z
  && match rect_value bbox with
     | Some B =>
         lattice_number g (qx_min B) && lattice_number g (qy_min B)
         && lattice_number g (qx_max B) && lattice_number g (qy_max B)
         && lattice_number g ((qx_max B - qx_min B) / inject_Z num_columns)
     | None => false
     end.

(** The pass over one box ended in an exception. *)
Definition partition_fails (r : list event * Py.result nat) : Prop :=
  exists e, snd r = inl e.

(** The operation failed and left nothing in the sink. *)
Definition failed_without_output (r : list event * Py.result string) : Prop :=
  sink (fst r) = [] /\ exists e, snd r = inl e.

(** The values of the input attributes are carried to a written feature:
    under every column of the input schema it holds what the input
    feature holds. *)
Definition carries_input_values (input output : QgsFeature) : Prop :=
  forall c, In c (fields input) -> attr output (name c) = attr input (name c).

(** *** Vocabulary of the further properties *)

(** The number of rows the outer loop completes when it is entered with
    [k] rows to go after [polls] polls: the rows whose poll answers no,
    up to the first poll that answers yes. *)
Fixpoint rows_before_cancel (isCanceled : nat -> bool) (polls k : nat)
  : nat :=
  match k with
  | O => O
  | S k' =>
      if isCanceled polls then O
      else S (rows_before_cancel isCanceled (S polls) k')
  end.

(** The progress reports of a run, in order. *)
Fixpoint progress_reports (evs : list event) : list float :=
  match evs with
  | [] => []
  | SetProgress x :: evs' => x :: progress_reports evs'
  | _ :: evs' => progress_reports evs'
  end.

(** The report made after [current] of [total] cells (line 201). *)
Definition percent (total current : Z) : float :=
  match Py.int_truediv (100 * current) total with
  | inr x => x
  | inl _ => PrimFloat.nan
  end.

(** The width and the number of rows computed for a box (lines 124-143),
    or the exception that one of the two divisions or the ceiling
    raises. *)
Definition grid_shape (bbox : QgsRectangle) (num_columns : Z)
  : Py.result (float * Z) :=
  match widthDegrees bbox num_columns with
  | inl e => inl e
  | inr width_degrees =>
      match numRows bbox (heightDegrees width_degrees) with
      | inl e => inl e
      | inr num_rows => inr (width_degrees, num_rows)
      end
  end.

(** The complete grid of a box; empty when its shape cannot be
    computed. *)
Definition pass_grid (fields : QgsFields) (num_columns : Z)
    (bbox : QgsRectangle) : list QgsFeature :=
  match grid_shape bbox num_columns with
  | inr (width_degrees, num_rows) =>
      grid_cells fields num_columns (xMinimum bbox) (yMinimum bbox)
                 width_degrees (heightDegrees width_degrees) num_rows
  | inl _ => []
  end.

(** The float is an infinity or NaN. *)
Definition nonfinite (x : spec_float) : Prop :=
  match x with
  | S754_infinity _ | S754_nan => True
  | _ => False
  end.

(** *** Requests used to exercise the theorems *)

(** The box [(0,0)-(10,4)] cut into two columns, read from a layer with
    one attribute column; the unit square; a polygon with no height; and
    a box whose west and east bounds are swapped. *)
Definition demo_bbox : QgsRectangle := mkRect 0 0 10 4.
Definition demo_source : FeatureSource :=
  mkSource [mkField "fid" QInt]
           [mkFeature [mkField "fid" QInt] demo_bbox [Some (VInt 7)]].
Definition unit_bbox : QgsRectangle := mkRect 0 0 1 1.
Definition flat_bbox : QgsRectangle := mkRect 0 0 10 0.
Definition mirrored_bbox : QgsRectangle := mkRect 10 0 0 4.

(** Valid requests at the edge of double arithmetic: a box one subnormal
    step wide, a box [2 ^ -1000] wide and [2 ^ 1000] high, a box
    [2 ^ 1000] wide and [2 ^ -1000] high, and a box one unit in the last
    place of 1.0 wide and high. *)
Definition sliver_bbox : QgsRectangle := mkRect 0 0 0x1p-1074 1.
Definition tall_bbox : QgsRectangle := mkRect 0 0 0x1p-1000 0x1p1000.

(** Two distance calculators and a host that never cancels. *)
Definition no_measure (p q : QgsPointXY) : float := PrimFloat.zero.
Definition flat_measure (p q : QgsPointXY) : float :=
  PrimFloat.abs (px q - px p)%float.
Definition no_cancel (k : nat) : bool := false.

(** The first cell of the demo grid, and the third cell of the first
    row when the unit square is cut into ten columns. *)
Definition demo_cell : QgsFeature :=
  make_feature (output_fields demo_source) 0 0 5 5 0 0 1.

(** A host that answers yes from the [r]-th poll on, and one that
    answers yes to every poll. *)
Definition cancel_from (r : nat) (k : nat) : bool := (r <=? k)%nat.
Definition always_cancel (k : nat) : bool := true.

(** A box with no width; a layer with two boxes; one whose second box
    has no width; and a layer that already has a column called row. *)
Definition line_bbox : QgsRectangle := mkRect 0 0 0 4.
Definition two_boxes : FeatureSource :=
  mkSource [mkField "fid" QInt]
           [mkFeature [mkField "fid" QInt] demo_bbox [Some (VInt 7)];
            mkFeature [mkField "fid" QInt] unit_bbox [Some (VInt 8)]].
Definition broken_layer : FeatureSource :=
  mkSource [mkField "fid" QInt]
           [mkFeature [mkField "fid" QInt] demo_bbox [Some (VInt 7)];
            mkFeature [mkField "fid" QInt] line_bbox [Some (VInt 8)];
            mkFeature [mkField "fid" QInt] unit_bbox [Some (VInt 9)]].
Definition layer_with_row : FeatureSource :=
  mkSource [mkField "row" QString; mkField "fid" QInt] [].

(** The second cell of the demo grid. *)
Definition east_cell : QgsFeature :=
  make_feature (output_fields demo_source) 0 0 5 5 0 1 2.

(** ** Lists, ranges and the event log *)

Lemma range_In (n x : Z) : In x (Py.range n) <-> (0 <= x < n)%Z.
Proof.
  unfold Py.range. rewrite in_map_iff. split.
  - intros [k [<- Hk]]. apply in_seq in Hk. lia.
  - intros H. exists (Z.to_nat x). split; [lia|]. apply in_seq. lia.
Qed.

Lemma range_length (n : Z) : List.length (Py.range n) = Z.to_nat n.
Proof. unfold Py.range. now rewrite length_map, length_seq. Qed.

Lemma range_nth_error (n : Z) (k : nat) :
  (k < Z.to_nat n)%nat -> nth_error (Py.range n) k = Some (Z.of_nat k).
Proof.
  intros H. unfold Py.range.
  rewrite nth_error_map, nth_error_seq.
  destruct (Nat.ltb_spec k (Z.to_nat n)); [reflexivity|lia].
Qed.

Lemma sink_app (l1 l2 : list event) : sink (l1 ++ l2) = sink l1 ++ sink l2.
Proof.
  induction l1 as [|[p q|f|x] l1 IH]; simpl;
    [reflexivity|assumption| |assumption].
  now rewrite IH.
Qed.

Lemma measured_app (l1 l2 : list event) :
  measured (l1 ++ l2) = measured l1 ++ measured l2.
Proof.
  induction l1 as [|[p q|f|x] l1 IH]; simpl;
    [reflexivity| |assumption|assumption].
  now rewrite IH.
Qed.

(** Rows of equal length laid end to end: position [i * m + j] is
    position [j] of row [i]. *)
Lemma flat_map_length_uniform (A B : Type) (f : A -> list B) (m : nat)
    (l : list A) :
  (forall a, In a l -> List.length (f a) = m) ->
  List.length (flat_map f l) = (List.length l * m)%nat.
Proof.
  induction l as [|a l IH]; intros H; simpl; [reflexivity|].
  rewrite length_app, H by (now left). rewrite IH; [reflexivity|].
  intros b Hb. apply H. now right.
Qed.

Lemma flat_map_nth_error_uniform (A B : Type) (f : A -> list B) (m : nat)
    (l : list A) (i j : nat) (a : A) :
  (forall b, In b l -> List.length (f b) = m) ->
  nth_error l i = Some a -> (j < m)%nat ->
  nth_error (flat_map f l) (i * m + j) = nth_error (f a) j.
Proof.
  revert i. induction l as [|b l IH]; intros i H Hi Hj.
  - destruct i; discriminate.
  - simpl. destruct i as [|i]; simpl in Hi.
    + injection Hi as ->. simpl.
      rewrite nth_error_app1; [reflexivity|].
      rewrite H by (now left). exact Hj.
    + rewrite nth_error_app2 by (rewrite H by (now left); simpl; lia).
      rewrite H by (now left).
      replace (S i * m + j - m)%nat with (i * m + j)%nat by (simpl; lia).
      apply IH; [|assumption|assumption].
      intros c Hc. apply H. now right.
Qed.

(** ** The attribute row of a written feature *)

Lemma attribute_of_get (fs : QgsFields) (d : dict) (n : string) :
  attribute_of fs (map (fun f => get d (name f)) fs) n =
  if lookupField fs n then get d n else None.
Proof.
  induction fs as [|f fs IH]; simpl; [reflexivity|].
  destruct (String.eqb (name f) n) eqn:E; simpl.
  - apply String.eqb_eq in E. now rewrite E.
  - exact IH.
Qed.

Lemma lookupField_app (fs gs : QgsFields) (n : string) :
  lookupField (fs ++ gs) n = lookupField fs n || lookupField gs n.
Proof. unfold lookupField. apply existsb_app. Qed.

Lemma lookupField_append (fs : QgsFields) (f : QgsField) (n : string) :
  lookupField (append fs f) n = lookupField fs n || String.eqb (name f) n.
Proof.
  unfold append. destruct (lookupField fs (name f)) eqn:E.
  - destruct (String.eqb (name f) n) eqn:E'.
    + apply String.eqb_eq in E'. subst n. now rewrite E.
    + now rewrite orb_false_r.
  - rewrite lookupField_app. simpl. now rewrite orb_false_r.
Qed.

Lemma output_fields_lookup (source : FeatureSource) (n : string) :
  lookupField (output_fields source) n =
  lookupField (source_fields source) n ||
  existsb (fun k => String.eqb k n) new_columns.
Proof.
  unfold output_fields. rewrite !lookupField_append. simpl.
  now rewrite orb_false_r, <- !orb_assoc.
Qed.

Lemma output_fields_new (source : FeatureSource) (n : string) :
  In n new_columns -> lookupField (output_fields source) n = true.
Proof.
  intros H. rewrite output_fields_lookup.
  apply orb_true_iff. right. apply existsb_exists.
  exists n. split; [assumption|apply String.eqb_refl].
Qed.

Lemma get_attrs_other x_min y_min w h row col cell_id (n : string) :
  ~ In n new_columns -> get (attrs x_min y_min w h row col cell_id) n = None.
Proof.
  intros H. unfold attrs, get.
  repeat match goal with
  | |- context [String.eqb ?k n] =>
      destruct (String.eqb_spec k n) as [E|_];
      [exfalso; apply H; rewrite <- E; simpl; tauto|]
  end.
  reflexivity.
Qed.

Lemma fold_append_extends (cs : list QgsField) (fs : QgsFields) :
  exists added,
    fold_left append cs fs = fs ++ added /\
    forall c, In c added -> In c cs.
Proof.
  revert fs. induction cs as [|c cs IH]; intros fs.
  - exists []. simpl. split; [now rewrite app_nil_r|tauto].
  - simpl. destruct (IH (append fs c)) as [added [E H]].
    unfold append in *. destruct (lookupField fs (name c)).
    + exists added. split; [exact E|]. intros x Hx. right. now apply H.
    + exists (c :: added). split.
      * rewrite E, <- app_assoc. reflexivity.
      * intros x [<-|Hx]; [now left|right; now apply H].
Qed.

(** ** The loops *)

Lemma int_truediv_defined (a b : Z) :
  b <> 0%Z -> exists x, Py.int_truediv a b = inr x.
Proof. intros H. destruct a, b; try (now destruct H); eexists; reflexivity. Qed.

Section LoopFacts.

Variable isCanceled : nat -> bool.
Variable fields : QgsFields.
Variable num_columns : Z.
Variables x_min y_min width_degrees height_degrees : float.
Variable total : Z.

Local Abbreviation make :=
  (make_feature fields x_min y_min width_degrees height_degrees).
Local Abbreviation cols_from :=
  (col_loop fields x_min y_min width_degrees height_degrees total).
Local Abbreviation rows_from :=
  (row_loop isCanceled fields num_columns
            x_min y_min width_degrees height_degrees total).

(** The inner loop runs to its end unless the progress report divides
    by zero: it writes one feature per column, numbered consecutively. *)
Lemma col_loop_seq (row : Z) (k s : nat) (cell_id current : Z) :
  (k <> 0%nat -> total <> 0%Z) ->
  sink (fst (cols_from (map Z.of_nat (seq s k)) row cell_id current))
  = map (fun col => make row col (cell_id + (col - Z.of_nat s))%Z)
        (map Z.of_nat (seq s k))
  /\ snd (cols_from (map Z.of_nat (seq s k)) row cell_id current)
     = inr ((cell_id + Z.of_nat k)%Z, (current + Z.of_nat k)%Z).
Proof.
  revert s cell_id current.
  induction k as [|k IH]; intros s cell_id current H.
  - simpl. split; [reflexivity|]. do 2 f_equal; lia.
  - cbn [seq map col_loop].
    destruct (@int_truediv_defined (100 * (current + 1)) total) as [x Hx];
      [apply H; discriminate|].
    rewrite Hx.
    destruct (IH (S s) (cell_id + 1)%Z (current + 1)%Z) as [IH1 IH2];
      [intros _; apply H; discriminate|].
    destruct (cols_from (map Z.of_nat (seq (S s) k)) row
                        (cell_id + 1)%Z (current + 1)%Z) as [evs r].
    cbn [fst snd sink] in *. split.
    + rewrite IH1. f_equal.
      * f_equal. lia.
      * apply map_ext. intros c. f_equal. lia.
    + rewrite IH2. do 2 f_equal; lia.
Qed.

Lemma col_loop_range (row cell_id current : Z) :
  ((0 < num_columns)%Z -> total <> 0%Z) ->
  sink (fst (cols_from (Py.range num_columns) row cell_id current))
  = row_cells fields num_columns x_min y_min width_degrees height_degrees
              row cell_id
  /\ snd (cols_from (Py.range num_columns) row cell_id current)
     = inr ((cell_id + Z.max 0 num_columns)%Z,
            (current + Z.max 0 num_columns)%Z).
Proof.
  intros H. unfold row_cells, Py.range.
  destruct (@col_loop_seq row (Z.to_nat num_columns) 0 cell_id current)
    as [H1 H2]; [intros Hk; apply H; lia|].
  rewrite H1, H2. split.
  - apply map_ext. intros c. f_equal. lia.
  - do 2 f_equal; lia.
Qed.

(** The outer loop, when no poll answers yes, writes the rows one after
    the other. *)
Lemma row_loop_seq (k s : nat) (cell_id current : Z) (polls : nat) :
  (forall j, (polls <= j < polls + k)%nat -> isCanceled j = false) ->
  (k <> 0%nat -> (0 < num_columns)%Z -> total <> 0%Z) ->
  sink (fst (rows_from (map Z.of_nat (seq s k)) cell_id current polls))
  = flat_map (fun row =>
                row_cells fields num_columns x_min y_min
                          width_degrees height_degrees row
                          (cell_id + (row - Z.of_nat s)
                                     * Z.max 0 num_columns)%Z)
             (map Z.of_nat (seq s k))
  /\ snd (rows_from (map Z.of_nat (seq s k)) cell_id current polls)
     = inr (polls + k)%nat.
Proof.
  revert s cell_id current polls.
  induction k as [|k IH]; intros s cell_id current polls Hc Ht.
  - simpl. split; [reflexivity|]. f_equal. lia.
  - cbn [seq map row_loop flat_map]. rewrite Hc by lia.
    specialize (Ht ltac:(discriminate)).
    destruct (@col_loop_range (Z.of_nat s) cell_id current Ht) as [H1 H2].
    destruct (cols_from (Py.range num_columns) (Z.of_nat s) cell_id current)
      as [evs [e|[cell_id' current']]]; [discriminate H2|].
    cbn [fst snd] in H1, H2. injection H2 as -> ->.
    destruct (IH (S s) (cell_id + Z.max 0 num_columns)%Z
                 (current + Z.max 0 num_columns)%Z (S polls))
      as [IH1 IH2]; [intros j Hj; apply Hc; lia|intros _; exact Ht|].
    destruct (rows_from (map Z.of_nat (seq (S s) k))
                        (cell_id + Z.max 0 num_columns)%Z
                        (current + Z.max 0 num_columns)%Z (S polls))
      as [evs' r].
    cbn [fst snd] in *. rewrite sink_app, H1, IH1, IH2. split.
    + f_equal.
      * f_equal. lia.
      * apply flat_map_ext. intros r0. f_equal.
        rewrite Nat2Z.inj_succ. ring.
    + f_equal. lia.
Qed.

(** Cancelled or not, whatever reaches the sink is a cell of the grid. *)
Lemma col_loop_sink (cols : list Z) (row cell_id current : Z)
    (f : QgsFeature) :
  In f (sink (fst (cols_from cols row cell_id current))) ->
  exists col cid, In col cols /\ f = make row col cid.
Proof.
  revert cell_id current.
  induction cols as [|c cols IH]; intros cell_id current; cbn [col_loop].
  - intros [].
  - destruct (Py.int_truediv _ total) as [e|x].
    + intros [<-|[]]. exists c, cell_id. split; [now left|reflexivity].
    + specialize (IH (cell_id + 1)%Z (current + 1)%Z).
      destruct (cols_from cols row (cell_id + 1)%Z (current + 1)%Z)
        as [evs r].
      cbn [fst sink] in *. intros [<-|H].
      * exists c, cell_id. split; [now left|reflexivity].
      * destruct (IH H) as [col [cid [Hc ->]]].
        exists col, cid. split; [now right|reflexivity].
Qed.

Lemma row_loop_sink (rows : list Z) (cell_id current : Z) (polls : nat)
    (f : QgsFeature) :
  In f (sink (fst (rows_from rows cell_id current polls))) ->
  exists row col cid,
    In row rows /\ In col (Py.range num_columns) /\ f = make row col cid.
Proof.
  revert cell_id current polls.
  induction rows as [|r rows IH]; intros cell_id current polls.
  - intros [].
  - cbn [row_loop]. destruct (isCanceled polls); [intros []|].
    pose proof (@col_loop_sink (Py.range num_columns) r cell_id current f)
      as Hc.
    destruct (cols_from (Py.range num_columns) r cell_id current)
      as [evs [e|[cell_id' current']]]; cbn [fst] in *.
    + intros H. destruct (Hc H) as [col [cid [Hcol ->]]].
      exists r, col, cid. repeat split; [now left|assumption].
    + specialize (IH cell_id' current' (S polls)).
      destruct (rows_from rows cell_id' current' (S polls)) as [evs' r'].
      cbn [fst] in *. rewrite sink_app, in_app_iff. intros [H|H].
      * destruct (Hc H) as [col [cid [Hcol ->]]].
        exists r, col, cid. repeat split; [now left|assumption].
      * destruct (IH H) as [row [col [cid [Hrow [Hcol ->]]]]].
        exists row, col, cid. repeat split; [now right|assumption].
Qed.

(** The loops call the distance calculator nowhere. *)
Lemma col_loop_measured (cols : list Z) (row cell_id current : Z) :
  measured (fst (cols_from cols row cell_id current)) = [].
Proof.
  revert cell_id current.
  induction cols as [|c cols IH]; intros cell_id current; cbn [col_loop].
  - reflexivity.
  - destruct (Py.int_truediv _ total) as [e|x]; [reflexivity|].
    specialize (IH (cell_id + 1)%Z (current + 1)%Z).
    destruct (cols_from cols row (cell_id + 1)%Z (current + 1)%Z).
    exact IH.
Qed.

Lemma row_loop_measured (rows : list Z) (cell_id current : Z)
    (polls : nat) :
  measured (fst (rows_from rows cell_id current polls)) = [].
Proof.
  revert cell_id current polls.
  induction rows as [|r rows IH]; intros cell_id current polls.
  - reflexivity.
  - cbn [row_loop]. destruct (isCanceled polls); [reflexivity|].
    pose proof (col_loop_measured (Py.range num_columns) r cell_id current)
      as Hc.
    destruct (cols_from (Py.range num_columns) r cell_id current)
      as [evs [e|[cell_id' current']]]; cbn [fst] in *; [exact Hc|].
    specialize (IH cell_id' current' (S polls)).
    destruct (rows_from rows cell_id' current' (S polls)) as [evs' r'].
    cbn [fst] in *. now rewrite measured_app, Hc, IH.
Qed.

End LoopFacts.

(** ** One pass over a bounding box *)

(** What the two guarded divisions computed when they did not raise. *)
Lemma widthDegrees_value (bbox : QgsRectangle) (num_columns : Z) (w : float) :
  widthDegrees bbox num_columns = inr w ->
  w = ((xMaximum bbox - xMinimum bbox) / Py.float_of_int num_columns)%float.
Proof.
  unfold widthDegrees, Py.truediv_int.
  destruct (num_columns =? 0)%Z; [discriminate|]. now intros [= <-].
Qed.

Lemma widthDegrees_defined (bbox : QgsRectangle) (num_columns : Z) :
  num_columns <> 0%Z ->
  widthDegrees bbox num_columns
  = inr ((xMaximum bbox - xMinimum bbox) / Py.float_of_int num_columns)%float.
Proof.
  intros H. unfold widthDegrees, Py.truediv_int.
  now destruct (Z.eqb_spec num_columns 0).
Qed.

Lemma numRows_value (bbox : QgsRectangle) (h : float) (num_rows : Z) :
  numRows bbox h = inr num_rows ->
  Py.ceil ((yMaximum bbox - yMinimum bbox) / h)%float = inr num_rows.
Proof.
  unfold numRows, Py.truediv.
  destruct (PrimFloat.eqb _ _); [discriminate|]. trivial.
Qed.

(** Line 143 yields a value exactly when the height is not a zero and
    the quotient is a finite number; the value is the ceiling of that
    number. *)
Lemma numRows_defined (bbox : QgsRectangle) (h : float) (num_rows : Z) :
  numRows bbox h = inr num_rows <->
  PrimFloat.eqb h PrimFloat.zero = false
  /\ exists q, Py.F2Q ((yMaximum bbox - yMinimum bbox) / h)%float = Some q
              /\ num_rows = Qceiling q.
Proof.
  unfold numRows, Py.truediv, Py.ceil, Py.F2Q.
  destruct (PrimFloat.eqb h PrimFloat.zero).
  - split; [discriminate|]. now intros [H _].
  - destruct (Prim2SF _) as [s|s| |s m e]; cbn [Py.SF2Q]; split;
      try discriminate;
      try (intros [= <-]; split; [reflexivity|]; eexists; split; reflexivity);
      try (intros [_ [q [[= <-] ->]]]; reflexivity);
      intros [_ [q [H _]]]; discriminate H.
Qed.

Lemma valid_request_columns (bbox : QgsRectangle) (num_columns : Z) :
  valid_request bbox num_columns -> (1 <= num_columns)%Z.
Proof. unfold valid_request. destruct (rect_value bbox); tauto. Qed.

Section PassFacts.

Variable measureLine : QgsPointXY -> QgsPointXY -> float.
Variable isCanceled : nat -> bool.
Variable fields : QgsFields.
Variable num_columns : Z.

Local Abbreviation run := (partition measureLine isCanceled fields num_columns).

(** The pass over one bounding box when it is not cancelled: it ends
    normally and the sink receives the grid. *)
Lemma partition_run (bbox : QgsRectangle) (polls : nat)
    (width_degrees : float) (num_rows : Z) :
  widthDegrees bbox num_columns = inr width_degrees ->
  numRows bbox (heightDegrees width_degrees) = inr num_rows ->
  never_canceled isCanceled ->
  sink (fst (run bbox polls))
  = grid_cells fields num_columns (xMinimum bbox) (yMinimum bbox)
               width_degrees (heightDegrees width_degrees) num_rows
  /\ snd (run bbox polls) = inr (polls + Z.to_nat num_rows)%nat.
Proof.
  intros Hw Hr Hc. unfold partition. rewrite Hw.
  destruct (measured_points bbox width_degrees) as [p q]. rewrite Hr.
  unfold grid_cells, Py.range at 1 2 3.
  destruct (@row_loop_seq isCanceled fields num_columns
              (xMinimum bbox) (yMinimum bbox) width_degrees
              (heightDegrees width_degrees) (num_rows * num_columns)%Z
              (Z.to_nat num_rows) 0 1 0 polls) as [H1 H2].
  - intros j _. apply Hc.
  - nia.
  - destruct (row_loop _ _ _ _ _ _ _ _ _ _ _ _) as [evs r].
    cbn [fst snd sink] in *. rewrite H1, H2. split; [|reflexivity].
    apply flat_map_ext. intros r0. f_equal.
    change (Z.of_nat 0) with 0%Z. ring.
Qed.

End PassFacts.

(** The pass over one bounding box, cancelled or not: the features it
    writes are cells of the grid of that box. *)
Lemma partition_sink measureLine isCanceled fields num_columns
    (bbox : QgsRectangle) (polls : nat) (f : QgsFeature) :
  In f (sink (fst (partition measureLine isCanceled fields num_columns
                             bbox polls))) ->
  exists width_degrees num_rows row col cid,
    widthDegrees bbox num_columns = inr width_degrees /\
    numRows bbox (heightDegrees width_degrees) = inr num_rows /\
    (0 <= row < num_rows)%Z /\ (0 <= col < num_columns)%Z /\
    f = make_feature fields (xMinimum bbox) (yMinimum bbox) width_degrees
                     (heightDegrees width_degrees) row col cid.
Proof.
  unfold partition.
  destruct (widthDegrees bbox num_columns) as [e|w]; [intros []|].
  destruct (measured_points bbox w) as [p q].
  destruct (numRows bbox (heightDegrees w)) as [e|nr] eqn:Hr; [intros []|].
  pose proof (@row_loop_sink isCanceled fields num_columns (xMinimum bbox)
                (yMinimum bbox) w (heightDegrees w) (nr * num_columns)%Z
                (Py.range nr) 1 0 polls f) as H.
  destruct (row_loop _ _ _ _ _ _ _ _ _ _ _ _) as [evs r].
  cbn [fst sink] in *. intros Hf.
  destruct (H Hf) as [row [col [cid [Hrow [Hcol ->]]]]].
  exists w, nr, row, col, cid.
  rewrite range_In in Hrow, Hcol.
  repeat split; try reflexivity; try assumption; lia.
Qed.

(** The distance calculator is called once, with the two points of
    lines 134-135, whenever the width could be computed. *)
Lemma partition_measured measureLine isCanceled fields num_columns
    (bbox : QgsRectangle) (polls : nat) (width_degrees : float) :
  widthDegrees bbox num_columns = inr width_degrees ->
  measured (fst (partition measureLine isCanceled fields num_columns
                           bbox polls))
  = [measured_points bbox width_degrees].
Proof.
  intros Hw. unfold partition. rewrite Hw.
  destruct (measured_points bbox width_degrees) as [p q].
  destruct (numRows bbox (heightDegrees width_degrees)) as [e|nr];
    [reflexivity|].
  pose proof (@row_loop_measured isCanceled fields num_columns
                (xMinimum bbox) (yMinimum bbox) width_degrees
                (heightDegrees width_degrees) (nr * num_columns)%Z
                (Py.range nr) 1 0 polls) as H.
  destruct (row_loop _ _ _ _ _ _ _ _ _ _ _ _) as [evs r].
  cbn [fst measured] in *. now rewrite H.
Qed.

(** ** Positions in the grid *)

Section GridPositions.

Variable fields : QgsFields.
Variable num_columns : Z.
Variables x_min y_min width_degrees height_degrees : float.

Local Abbreviation make :=
  (make_feature fields x_min y_min width_degrees height_degrees).
Local Abbreviation grid :=
  (grid_cells fields num_columns x_min y_min width_degrees height_degrees).

Lemma row_cells_length (row cell_id : Z) :
  List.length (row_cells fields num_columns x_min y_min
                         width_degrees height_degrees row cell_id)
  = Z.to_nat num_columns.
Proof. unfold row_cells. now rewrite length_map, range_length. Qed.

Lemma grid_cells_length (num_rows : Z) :
  (0 <= num_columns)%Z ->
  List.length (grid num_rows) = Z.to_nat (num_rows * num_columns).
Proof.
  intros Hn. unfold grid_cells.
  rewrite (@flat_map_length_uniform _ _ _ (Z.to_nat num_columns))
    by (intros; apply row_cells_length).
  rewrite range_length.
  destruct (Z.le_gt_cases 0 num_rows) as [H|H].
  - now rewrite Z2Nat.inj_mul.
  - assert (E : Z.to_nat num_rows = 0%nat) by lia.
    assert (E' : Z.to_nat (num_rows * num_columns) = 0%nat) by nia.
    now rewrite E, E'.
Qed.

Lemma grid_cells_nth (num_rows row col : Z) :
  (0 <= row < num_rows)%Z -> (0 <= col < num_columns)%Z ->
  nth_error (grid num_rows) (Z.to_nat (row * num_columns + col)) =
  Some (make row col (1 + row * num_columns + col)%Z).
Proof.
  intros Hr Hc. unfold grid_cells.
  replace (Z.to_nat (row * num_columns + col))
    with (Z.to_nat row * Z.to_nat num_columns + Z.to_nat col)%nat
    by (rewrite Z2Nat.inj_add, Z2Nat.inj_mul by nia; reflexivity).
  rewrite (@flat_map_nth_error_uniform _ _ _ (Z.to_nat num_columns) _ _ _ row).
  - unfold row_cells. rewrite nth_error_map, range_nth_error by lia.
    cbn [option_map]. rewrite Z2Nat.id by lia.
    rewrite Z.max_r by lia. reflexivity.
  - intros; apply row_cells_length.
  - rewrite range_nth_error by lia. f_equal. lia.
  - lia.
Qed.

Lemma attr_make_feature (row col cell_id : Z) (n : string) :
  attr (make row col cell_id) n =
  if lookupField fields n
  then get (attrs x_min y_min width_degrees height_degrees row col cell_id) n
  else None.
Proof. unfold attr, make_feature. apply attribute_of_get. Qed.

End GridPositions.

Lemma grid_cells_In fields num_columns x_min y_min w h (num_rows : Z)
    (f : QgsFeature) :
  In f (grid_cells fields num_columns x_min y_min w h num_rows) ->
  exists row col cid,
    (0 <= row < num_rows)%Z /\ (0 <= col < num_columns)%Z /\
    f = make_feature fields x_min y_min w h row col cid.
Proof.
  unfold grid_cells, row_cells. rewrite in_flat_map.
  intros [row [Hrow Hf]]. apply in_map_iff in Hf.
  destruct Hf as [col [<- Hcol]]. rewrite range_In in Hrow, Hcol.
  now exists row, col, (1 + row * Z.max 0 num_columns + col)%Z.
Qed.

Lemma demo_cell_written :
  In demo_cell
     (sink (fst (partition no_measure no_cancel (output_fields demo_source)
                           2 demo_bbox 0))).
Proof. apply (nth_error_In _ 0). vm_compute. reflexivity. Qed.

(** ** The whole run *)

Lemma feature_loop_sink measureLine isCanceled fields num_columns
    (features : list QgsFeature) (polls : nat) (f : QgsFeature) :
  In f (sink (fst (feature_loop measureLine isCanceled fields num_columns
                                features polls))) ->
  exists input_feature polls',
    In input_feature features /\
    In f (sink (fst (partition measureLine isCanceled fields num_columns
                               (geometry input_feature) polls'))).
Proof.
  revert polls. induction features as [|g gs IH]; intros polls.
  - intros [].
  - cbn [feature_loop].
    destruct (partition measureLine isCanceled fields num_columns
                        (geometry g) polls) as [evs [e|polls']] eqn:E.
    + intros H. exists g, polls. split; [now left|]. now rewrite E.
    + specialize (IH polls').
      destruct (feature_loop measureLine isCanceled fields num_columns
                             gs polls') as [evs' r].
      cbn [fst] in *. rewrite sink_app, in_app_iff. intros [H|H].
      * exists g, polls. split; [now left|]. now rewrite E.
      * destruct (IH H) as [g' [p' [Hg Hf]]].
        exists g', p'. split; [now right|exact Hf].
Qed.

Lemma processAlgorithm_sink measureLine isCanceled
    (parameters : Parameters) (f : QgsFeature) :
  In f (sink (fst (processAlgorithm measureLine isCanceled parameters))) ->
  exists source input_feature polls,
    INPUT parameters = Some source /\
    In input_feature (getFeatures source) /\
    In f (sink (fst (partition measureLine isCanceled (output_fields source)
                               (COLUMNS parameters)
                               (geometry input_feature) polls))).
Proof.
  unfold processAlgorithm.
  destruct (INPUT parameters) as [source|]; [|intros []].
  destruct (OUTPUT parameters) as [dest_id|]; [|intros []].
  pose proof (@feature_loop_sink measureLine isCanceled (output_fields source)
                (COLUMNS parameters) (getFeatures source) 0%nat f) as H.
  destruct (feature_loop measureLine isCanceled (output_fields source)
                         (COLUMNS parameters) (getFeatures source) 0)
    as [evs [e|k]]; cbn [fst] in *; intros Hf;
    destruct (H Hf) as [g [p [Hg Hp]]]; exists source, g, p; auto.
Qed.

(** *** Exact arithmetic *)

(** Among [N] abutting intervals of length [h] starting at 0, one holds
    [t] whenever [0 <= t <= N * h]. *)
Lemma interval_exists (h t : Q) (N : Z) :
  0 < h -> 0 <= t -> t <= inject_Z N * h -> (1 <= N)%Z ->
  exists k : Z,
    (0 <= k < N)%Z /\ inject_Z k * h <= t /\ t <= inject_Z k * h + h.
Proof.
  intros Hh Ht HN H1.
  set (k0 := Qfloor (t / h)).
  assert (E : t / h * h == t) by (field; lra).
  assert (Hlo : inject_Z k0 * h <= t).
  { apply Qle_trans with (t / h * h); [|rewrite E; apply Qle_refl].
    apply Qmult_le_compat_r; [apply Qfloor_le|lra]. }
  assert (Hhi : t < inject_Z (k0 + 1) * h).
  { apply Qle_lt_trans with (t / h * h); [rewrite E; apply Qle_refl|].
    apply Qmult_lt_compat_r; [lra|apply Qlt_floor]. }
  assert (H0 : (0 <= k0)%Z).
  { change 0%Z with (Qfloor 0). apply Qfloor_resp_le.
    apply Qle_shift_div_l; lra. }
  rewrite inject_Z_plus in Hhi. clearbody k0. clear E.
  destruct (Z_lt_le_dec k0 N) as [Hk|Hk].
  - exists k0. split; [lia|]. split; [exact Hlo|].
    change (inject_Z 1) with 1 in Hhi.
    generalize dependent (inject_Z k0). intros q Hlo Hhi. lra.
  - exists (N - 1)%Z. split; [lia|].
    assert (HNk : inject_Z N * h <= inject_Z k0 * h).
    { apply Qmult_le_compat_r; [|lra]. rewrite <- Zle_Qle. exact Hk. }
    unfold Z.sub. rewrite inject_Z_plus.
    change (inject_Z (- (1))) with (- (1)).
    change (inject_Z 1) with 1 in Hhi.
    generalize dependent (inject_Z k0). generalize dependent (inject_Z N).
    intros qN HN q Hlo Hhi HNk. split; lra.
Qed.

Lemma exactly_spec (x : float) (q : Q) :
  exactly x q = true <-> exists r, Py.F2Q x = Some r /\ r == q.
Proof.
  unfold exactly. destruct (Py.F2Q x) as [r|].
  - rewrite Qeq_bool_iff. split.
    + intros H. now exists r.
    + now intros [r' [[= <-] H]].
  - split; [discriminate|]. now intros [r [H _]].
Qed.

(** What [exact_run] establishes for a valid request, in terms of the
    numbers: a grid of [num_rows >= 1] rows of squares of side [w > 0]
    whose columns end exactly at [xMax] and whose rows reach [yMax]. *)
Lemma exact_run_spec (bbox : QgsRectangle) (num_columns : Z) :
  valid_request bbox num_columns ->
  exact_run bbox num_columns = true ->
  exists (B : QRect) (width_degrees : float) (num_rows : Z) (w : Q),
    rect_value bbox = Some B
    /\ widthDegrees bbox num_columns = inr width_degrees
    /\ numRows bbox (heightDegrees width_degrees) = inr num_rows
    /\ Py.F2Q width_degrees = Some w
    /\ 0 < w
    /\ inject_Z num_columns * w == qx_max B - qx_min B
    /\ (1 <= num_rows)%Z
    /\ qy_max B - qy_min B <= inject_Z num_rows * w
    /\ (forall col, (0 <= col < num_columns)%Z ->
          exists lo hi,
            Py.F2Q (cell_x_min (xMinimum bbox) width_degrees col) = Some lo
            /\ Py.F2Q (cell_x_max (xMinimum bbox) width_degrees col) = Some hi
            /\ lo == qx_min B + inject_Z col * w
            /\ hi == lo + w)
    /\ (forall row, (0 <= row < num_rows)%Z ->
          exists lo hi,
            Py.F2Q (cell_y_min (yMinimum bbox) (heightDegrees width_degrees)
                               row) = Some lo
            /\ Py.F2Q (cell_y_max (yMinimum bbox)
                                  (heightDegrees width_degrees) row) = Some hi
            /\ lo == qy_min B + inject_Z row * w
            /\ hi == lo + w).
Proof.
  unfold valid_request, exact_run.
  destruct (rect_value bbox) as [B|]; [|tauto].
  intros [Hx [Hy Hn]].
  destruct (widthDegrees bbox num_columns) as [e|wd] eqn:Ewd; [discriminate|].
  destruct (numRows bbox (heightDegrees wd)) as [e|nr] eqn:Enr; [discriminate|].
  cbv zeta. rewrite !andb_true_iff, !forallb_forall, Z.eqb_eq.
  intros [[[[Hw Hh] Hr] Hcols] Hrows].
  apply exactly_spec in Hw. destruct Hw as [w [Ew Hw]].
  assert (Hn' : 0 < inject_Z num_columns).
  { change 0 with (inject_Z 0). rewrite <- Zlt_Qlt. lia. }
  assert (Hpos : 0 < (qx_max B - qx_min B) / inject_Z num_columns).
  { apply Qlt_shift_div_l; [exact Hn'|lra]. }
  assert (Habs : Qabs ((qx_max B - qx_min B) / inject_Z num_columns) == w).
  { rewrite Qabs_pos by lra. now symmetry. }
  assert (Hwpos : 0 < w) by lra.
  assert (Hnw : inject_Z num_columns * w == qx_max B - qx_min B).
  { rewrite Hw. field. lra. }
  assert (Hq : (qy_max B - qy_min B)
               / Qabs ((qx_max B - qx_min B) / inject_Z num_columns)
               == (qy_max B - qy_min B) / w) by now rewrite Habs.
  rewrite (Qceiling_comp _ _ Hq) in Hr.
  assert (Hqpos : 0 < (qy_max B - qy_min B) / w)
    by (apply Qlt_shift_div_l; lra).
  exists B, wd, nr, w. repeat split; try assumption; try reflexivity.
  - pose proof (Qle_ceiling ((qy_max B - qy_min B) / w)) as Hc.
    rewrite <- Hr in Hc.
    assert (H0 : inject_Z 0 < inject_Z nr).
    { change (inject_Z 0) with 0.
      generalize dependent (inject_Z nr). intros q Hc.
      generalize dependent ((qy_max B - qy_min B) / w). intros q' _ _ Hq' Hc.
      lra. }
    rewrite <- Zlt_Qlt in H0. lia.
  - pose proof (Qle_ceiling ((qy_max B - qy_min B) / w)) as Hc.
    rewrite <- Hr in Hc.
    apply Qmult_le_compat_r with (z := w) in Hc; [|lra].
    assert (E : (qy_max B - qy_min B) / w * w == qy_max B - qy_min B)
      by (field; lra).
    lra.
  - intros col Hcol.
    specialize (Hcols col (proj2 (range_In _ _) Hcol)).
    apply andb_true_iff in Hcols. destruct Hcols as [H1 H2].
    apply exactly_spec in H1, H2.
    destruct H1 as [lo [E1 H1]], H2 as [hi [E2 H2]].
    exists lo, hi. repeat split; try assumption.
    + rewrite H1, Hw. reflexivity.
    + rewrite H2, H1, Hw. reflexivity.
  - intros row Hrow.
    specialize (Hrows row (proj2 (range_In _ _) Hrow)).
    apply andb_true_iff in Hrows. destruct Hrows as [H1 H2].
    apply exactly_spec in H1, H2.
    destruct H1 as [lo [E1 H1]], H2 as [hi [E2 H2]].
    exists lo, hi. repeat split; try assumption.
    + rewrite H1, Habs. reflexivity.
    + rewrite H2, H1, Habs. reflexivity.
Qed.

Lemma scale_le (i j : Z) (w : Q) :
  (i <= j)%Z -> 0 <= w -> inject_Z i * w <= inject_Z j * w.
Proof.
  intros H Hw. apply Qmult_le_compat_r; [|exact Hw]. now rewrite <- Zle_Qle.
Qed.

(** ** Signs in binary64 arithmetic *)

Lemma Qpow2_pos (e : Z) : 0 < Py.Qpow2 e.
Proof. unfold Py.Qpow2. apply Qpower_0_lt. reflexivity. Qed.

Lemma Qpow2_plus (a b : Z) : Py.Qpow2 (a + b) == Py.Qpow2 a * Py.Qpow2 b.
Proof. unfold Py.Qpow2. apply Qpower_plus. discriminate. Qed.

Lemma inject_cond_Zopp (s : bool) (z : Z) :
  inject_Z (cond_Zopp s z) == if s then - inject_Z z else inject_Z z.
Proof. destruct s; simpl; [rewrite inject_Z_opp|]; reflexivity. Qed.

(** The mantissa aligned to a smaller exponent stands for the same
    number. *)
Lemma shl_align_value (m : positive) (e e' : Z) :
  (e' <= e)%Z ->
  inject_Z (Zpos (fst (shl_align m e e'))) * Py.Qpow2 e'
  == inject_Z (Zpos m) * Py.Qpow2 e.
Proof.
  intros H. unfold shl_align. destruct (e' - e)%Z as [|d|d] eqn:E.
  - replace e' with e by lia. reflexivity.
  - lia.
  - cbn [fst]. change (Pos.iter xO m d) with (shift_pos d m).
    rewrite shift_pos_correct, inject_Z_mult.
    replace e with (e' + Zpos d)%Z by lia. rewrite Qpow2_plus.
    change (Zpower_pos 2 d) with (2 ^ Zpos d)%Z.
    rewrite Zpower_Qpower by lia. unfold Py.Qpow2.
    change (inject_Z 2) with 2. ring.
Qed.

Lemma aligned_value (s : bool) (m : positive) (e e' : Z) :
  (e' <= e)%Z ->
  inject_Z (cond_Zopp s (Zpos (fst (shl_align m e e')))) * Py.Qpow2 e'
  == inject_Z (cond_Zopp s (Zpos m)) * Py.Qpow2 e.
Proof.
  intros H. rewrite !inject_cond_Zopp.
  pose proof (shl_align_value m H) as E. destruct s; [|exact E].
  generalize dependent (inject_Z (Zpos (fst (shl_align m e e')))).
  generalize (inject_Z (Zpos m)) (Py.Qpow2 e) (Py.Qpow2 e').
  intros a b c d E. lra.
Qed.

Lemma finite_value_neg (m : positive) (e : Z) :
  inject_Z (cond_Zopp true (Zpos m)) * Py.Qpow2 e < 0.
Proof.
  pose proof (Qpow2_pos e) as H.
  assert (Hm : inject_Z (cond_Zopp true (Zpos m)) < 0) by reflexivity.
  setoid_replace 0 with (0 * Py.Qpow2 e) by ring.
  now apply Qmult_lt_compat_r.
Qed.

Lemma finite_value_pos (m : positive) (e : Z) :
  0 < inject_Z (cond_Zopp false (Zpos m)) * Py.Qpow2 e.
Proof. apply Qmult_lt_0_compat; [reflexivity|apply Qpow2_pos]. Qed.

(** The float is zero, negative, or not a number. *)
Definition nonpositive (x : spec_float) : Prop :=
  match x with
  | S754_zero _ => True
  | S754_nan => True
  | S754_infinity s => s = true
  | S754_finite s _ _ => s = true
  end.

(** Rounding gives a result of the sign it is told. *)
Definition signed (s : bool) (x : spec_float) : Prop :=
  match x with
  | S754_zero s' => s' = s
  | S754_nan => True
  | S754_infinity s' => s' = s
  | S754_finite s' _ _ => s' = s
  end.

Lemma binary_round_aux_signed (s : bool) (m e : Z) (l : location) :
  signed s (binary_round_aux prec emax s m e l).
Proof.
  unfold binary_round_aux.
  destruct (shr_fexp prec emax m e l) as [mrs e'].
  destruct (shr_fexp prec emax _ e' loc_Exact) as [mrs' e''].
  destruct (shr_m mrs'); [reflexivity| |exact I].
  destruct (e'' <=? emax - prec)%Z; reflexivity.
Qed.

Lemma binary_round_signed (s : bool) (m : positive) (e : Z) :
  signed s (binary_round prec emax s m e).
Proof.
  unfold binary_round. destruct (shl_align m e _) as [mz ez].
  apply binary_round_aux_signed.
Qed.

Lemma signed_true_nonpositive (x : spec_float) :
  signed true x -> nonpositive x.
Proof. destruct x; simpl; auto. Qed.

(** [x - y] is not positive when the number [x] is at most the number
    [y]. *)
Lemma SFsub_nonpositive (x y : spec_float) (p q : Q) :
  Py.SF2Q x = Some p -> Py.SF2Q y = Some q -> p <= q ->
  nonpositive (SFsub prec emax x y).
Proof.
  destruct x as [sx|sx| |sx mx ex], y as [sy|sy| |sy my ey];
    try discriminate; cbn [Py.SF2Q]; intros [= <-] [= <-] H.
  - destruct sx, sy; exact I.
  - cbn. destruct sy; [|reflexivity].
    pose proof (finite_value_neg my ey). lra.
  - cbn. destruct sx; [reflexivity|].
    pose proof (finite_value_pos mx ex). lra.
  - cbn [SFsub].
    set (ez := Z.min ex ey).
    rewrite <- (aligned_value sx mx (e' := ez)) in H by (unfold ez; lia).
    rewrite <- (aligned_value sy my (e' := ez)) in H by (unfold ez; lia).
    apply Qmult_le_r in H; [|apply Qpow2_pos].
    rewrite <- Zle_Qle in H.
    destruct (_ - _)%Z as [|d|d] eqn:E; cbn [binary_normalize].
    + exact I.
    + lia.
    + apply signed_true_nonpositive, binary_round_signed.
Qed.

(** [x - y] is a zero when [x] and [y] are the same number. *)
Lemma SFsub_zero (x y : spec_float) (p q : Q) :
  Py.SF2Q x = Some p -> Py.SF2Q y = Some q -> p == q ->
  exists s, SFsub prec emax x y = S754_zero s.
Proof.
  destruct x as [sx|sx| |sx mx ex], y as [sy|sy| |sy my ey];
    try discriminate; cbn [Py.SF2Q]; intros [= <-] [= <-] H.
  - destruct sx, sy; eexists; reflexivity.
  - exfalso. destruct sy.
    + pose proof (finite_value_neg my ey). lra.
    + pose proof (finite_value_pos my ey). lra.
  - exfalso. destruct sx.
    + pose proof (finite_value_neg mx ex). lra.
    + pose proof (finite_value_pos mx ex). lra.
  - cbn [SFsub].
    set (ez := Z.min ex ey).
    rewrite <- (aligned_value sx mx (e' := ez)) in H by (unfold ez; lia).
    rewrite <- (aligned_value sy my (e' := ez)) in H by (unfold ez; lia).
    apply Qmult_inj_r in H; [|apply Qnot_eq_sym, Qlt_not_eq, Qpow2_pos].
    apply -> inject_Z_injective in H. rewrite H, Z.sub_diag.
    now exists false.
Qed.

(** A quotient of something not positive by an absolute value is not
    positive. *)
Lemma SFdiv_nonpositive (x y : spec_float) :
  nonpositive x -> nonpositive (SFdiv prec emax x (SFabs y)).
Proof.
  destruct x as [sx|sx| |sx mx ex], y as [sy|sy| |sy my ey];
    cbn; try (intros ->); try (intros _); try exact I; try reflexivity.
  destruct (SFdiv_core_binary prec emax (Zpos mx) ex (Zpos my) ey)
    as [[mz ez] lz].
  apply signed_true_nonpositive, binary_round_aux_signed.
Qed.

Lemma ceil_nonpositive (x : float) (z : Z) :
  nonpositive (Prim2SF x) -> Py.ceil x = inr z -> (z <= 0)%Z.
Proof.
  unfold Py.ceil. destruct (Prim2SF x) as [s|s| |s m e]; cbn [Py.SF2Q].
  - intros _ [= <-]. reflexivity.
  - discriminate.
  - discriminate.
  - intros -> [= <-]. change 0%Z with (Qceiling 0).
    apply Qceiling_resp_le. apply Qlt_le_weak, finite_value_neg.
Qed.

(** *** Small integers convert to finite floats *)

Lemma digits2_pos_size (p : positive) : digits2_pos p = Pos.size p.
Proof. induction p; simpl; now rewrite ?IHp. Qed.

Lemma digits2_pos_bound (p : positive) (k : Z) :
  (Zpos p < 2 ^ k)%Z -> (0 <= k)%Z -> (Zpos (digits2_pos p) <= k)%Z.
Proof.
  intros H Hk. rewrite digits2_pos_size.
  destruct (Z.le_gt_cases (Zpos (Pos.size p)) k) as [|Hgt]; [assumption|].
  exfalso. pose proof (Pos.size_le p) as Hs.
  assert (H2 : (2 ^ Zpos (Pos.size p) <= 2 * Zpos p)%Z).
  { rewrite <- Pos2Z.inj_pow. change (2 * Zpos p)%Z with (Zpos p~0). exact Hs. }
  assert (H3 : (2 ^ (k + 1) <= 2 ^ Zpos (Pos.size p))%Z)
    by (apply Z.pow_le_mono_r; lia).
  rewrite Z.pow_add_r in H3 by lia. lia.
Qed.

Lemma digits2_pos_shift (p k : positive) :
  digits2_pos (Pos.iter xO p k) = (digits2_pos p + k)%positive.
Proof.
  induction k as [|k IH] using Pos.peano_ind.
  - simpl. lia.
  - rewrite Pos.iter_succ. simpl. rewrite IH. lia.
Qed.

Lemma binary_round_aux_normal (s : bool) (m : positive) (e : Z) :
  Zpos (digits2_pos m) = prec -> (emin <= e <= emax - prec)%Z ->
  binary_round_aux prec emax s (Zpos m) e loc_Exact = S754_finite s m e.
Proof.
  intros Hd He. unfold binary_round_aux, shr_fexp, Zdigits2, fexp.
  rewrite Hd.
  replace (Z.max (prec + e - prec) emin - e)%Z with 0%Z by lia.
  cbn [shr shr_record_of_loc shr_m loc_of_shr_record round_nearest_even].
  unfold Zdigits2. rewrite Hd.
  replace (Z.max (prec + e - prec) emin - e)%Z with 0%Z by lia.
  cbn [shr shr_record_of_loc shr_m].
  destruct (Z.leb_spec e (emax - prec)); [reflexivity|lia].
Qed.

Lemma binary_round_small (s : bool) (p : positive) :
  (Zpos p < 2 ^ prec)%Z ->
  exists m e,
    binary_round prec emax s p 0 = S754_finite s m e
    /\ valid_binary (S754_finite s m e) = true.
Proof.
  intros H. pose proof (@digits2_pos_bound p prec H ltac:(discriminate)) as Hd.
  unfold binary_round, shl_align, fexp.
  replace (Z.max (Zpos (digits2_pos p) + 0 - prec) emin - 0)%Z
    with (Zpos (digits2_pos p) - prec)%Z
    by (unfold emin, prec, emax in *; lia).
  destruct (Zpos (digits2_pos p) - prec)%Z as [|k|k] eqn:E.
  - exists p, 0%Z.
    rewrite binary_round_aux_normal by (unfold emin, prec, emax in *; lia).
    split; [reflexivity|].
    unfold valid_binary, bounded, canonical_mantissa, fexp.
    replace (Zpos (digits2_pos p)) with prec by lia. reflexivity.
  - lia.
  - assert (Hk : Zpos (digits2_pos (Pos.iter xO p k)) = prec).
    { rewrite digits2_pos_shift. lia. }
    exists (Pos.iter xO p k), (Z.max (Zpos (digits2_pos p) + 0 - prec) emin).
    replace (Z.max (Zpos (digits2_pos p) + 0 - prec) emin) with (Zneg k)
      by (unfold emin, prec, emax in *; lia).
    assert (Hr : (emin <= Zneg k <= emax - prec)%Z)
      by (unfold emin, prec, emax in *; lia).
    rewrite binary_round_aux_normal by assumption.
    split; [reflexivity|].
    unfold valid_binary, bounded, canonical_mantissa, fexp. rewrite Hk.
    apply andb_true_iff. split; [apply Z.eqb_eq|apply Z.leb_le];
      unfold emin, prec, emax in *; lia.
Qed.

Lemma float_of_int_finite (n : Z) :
  n <> 0%Z -> (Z.abs n < 2 ^ prec)%Z ->
  exists s m e, Prim2SF (Py.float_of_int n) = S754_finite s m e.
Proof.
  intros Hn Hb. unfold Py.float_of_int.
  destruct n as [|p|p]; [now destruct Hn| |]; cbn [binary_normalize].
  - destruct (@binary_round_small false p Hb) as [m [e [-> Hv]]].
    exists false, m, e. now apply Prim2SF_SF2Prim.
  - destruct (@binary_round_small true p Hb) as [m [e [-> Hv]]].
    exists true, m, e. now apply Prim2SF_SF2Prim.
Qed.

(** The zero test of [Py.truediv_int], made on the int, is the test
    CPython makes on the converted divisor. *)
Lemma truediv_int_converted (a : float) (n : Z) :
  (Z.abs n < 2 ^ prec)%Z ->
  Py.truediv_int a n = Py.truediv a (Py.float_of_int n).
Proof.
  intros Hb. unfold Py.truediv_int, Py.truediv.
  destruct (Z.eqb_spec n 0) as [->|Hn]; [reflexivity|].
  destruct (float_of_int_finite Hn Hb) as [s [m [e H]]].
  rewrite eqb_spec, H.
  change (Prim2SF PrimFloat.zero) with (S754_zero false).
  now destruct s.
Qed.

(** ** Degenerate requests *)

(** A box with [yMax <= yMin] gets no row. *)
Lemma numRows_flat_box (bbox : QgsRectangle) (width_degrees : float)
    (c d : Q) (num_rows : Z) :
  Py.F2Q (yMinimum bbox) = Some c -> Py.F2Q (yMaximum bbox) = Some d ->
  d <= c ->
  numRows bbox (heightDegrees width_degrees) = inr num_rows ->
  (num_rows <= 0)%Z.
Proof.
  intros Hc Hd Hle. unfold numRows, Py.truediv, heightDegrees.
  destruct (PrimFloat.eqb _ _); [discriminate|].
  apply ceil_nonpositive.
  rewrite div_spec, abs_spec, sub_spec.
  apply SFdiv_nonpositive. exact (SFsub_nonpositive _ _ Hd Hc Hle).
Qed.

(** A box with [xMax = xMin] stops the computation of the rows: the
    height is a zero (and the division by it is refused) for every column
    count a C [int] can hold. *)
Lemma numRows_thin_box (bbox : QgsRectangle) (num_columns : Z)
    (width_degrees : float) (a b : Q) :
  Py.F2Q (xMinimum bbox) = Some a -> Py.F2Q (xMaximum bbox) = Some b ->
  b == a ->
  widthDegrees bbox num_columns = inr width_degrees ->
  exists e,
    numRows bbox (heightDegrees width_degrees) = inl e
    /\ ((Z.abs num_columns < 2 ^ prec)%Z -> e = Py.ZeroDivisionError).
Proof.
  intros Ha Hb Hab Hw.
  assert (Hn : num_columns <> 0%Z).
  { intros ->. discriminate Hw. }
  apply widthDegrees_value in Hw.
  destruct (SFsub_zero _ _ Hb Ha Hab) as [s Hs].
  assert (Hh : Prim2SF (heightDegrees width_degrees) = S754_zero false
               \/ (Prim2SF (heightDegrees width_degrees) = S754_nan
                   /\ forall s' m e, Prim2SF (Py.float_of_int num_columns)
                                     <> S754_finite s' m e)).
  { unfold heightDegrees. rewrite abs_spec, Hw, div_spec, sub_spec.
    unfold SF64sub, SF64div. rewrite Hs.
    destruct (Prim2SF (Py.float_of_int num_columns)); cbn; auto;
      right; (split; [reflexivity|discriminate]). }
  unfold numRows, Py.truediv. rewrite eqb_spec.
  destruct Hh as [Hh|[Hh Hfin]]; rewrite Hh.
  - exists Py.ZeroDivisionError. split; reflexivity.
  - exists Py.ValueError. split.
    + change (SFeqb S754_nan (Prim2SF PrimFloat.zero)) with false. cbv iota.
      unfold Py.ceil. rewrite div_spec, Hh. unfold SF64div.
      now destruct (Prim2SF (yMaximum bbox - yMinimum bbox)).
    + intros Hbound.
      destruct (float_of_int_finite Hn Hbound) as [s' [m [e H]]].
      now destruct (Hfin s' m e).
Qed.

Lemma sink_nil_intro (cells : list QgsFeature) :
  (forall f, In f cells -> False) -> cells = [].
Proof.
  destruct cells as [|f cells]; [reflexivity|].
  intros H. destruct (H f). now left.
Qed.

(** ** Rounding in binary64 *)

(** Shifting a mantissa right by [p] bits divides it by [2 ^ p]. *)
Lemma shr_1_m (mrs : shr_record) :
  (0 <= shr_m mrs)%Z -> shr_m (shr_1 mrs) = (shr_m mrs / 2)%Z.
Proof.
  destruct mrs as [m r s]. cbn [shr_m shr_1]. rewrite <- Z.div2_div.
  destruct m as [|[p|p|]|p]; cbn [shr_m]; intros H; try lia; reflexivity.
Qed.

Lemma pow2_xO (p : positive) :
  (2 ^ Zpos p~0 = 2 ^ Zpos p * 2 ^ Zpos p)%Z.
Proof.
  replace (Zpos p~0) with (Zpos p + Zpos p)%Z by lia.
  apply Z.pow_add_r; lia.
Qed.

Lemma pow2_xI (p : positive) :
  (2 ^ Zpos p~1 = 2 * (2 ^ Zpos p * 2 ^ Zpos p))%Z.
Proof.
  replace (Zpos p~1) with (1 + (Zpos p + Zpos p))%Z by lia.
  rewrite Z.pow_add_r, Z.pow_add_r by lia. reflexivity.
Qed.

Lemma iter_shr_1_m (p : positive) (mrs : shr_record) :
  (0 <= shr_m mrs)%Z ->
  shr_m (iter_pos shr_1 p mrs) = (shr_m mrs / 2 ^ Zpos p)%Z.
Proof.
  revert mrs. induction p as [p IH|p IH|]; intros mrs H; cbn [iter_pos].
  - assert (H1 : (0 <= shr_m (shr_1 mrs))%Z)
      by (rewrite shr_1_m by assumption; apply Z.div_pos; lia).
    assert (H2 : (0 <= shr_m (iter_pos shr_1 p (shr_1 mrs)))%Z)
      by (rewrite IH by assumption; apply Z.div_pos; lia).
    rewrite IH, IH, shr_1_m by assumption.
    rewrite !Z.div_div by lia. now rewrite pow2_xI.
  - assert (H2 : (0 <= shr_m (iter_pos shr_1 p mrs))%Z)
      by (rewrite IH by assumption; apply Z.div_pos; lia).
    rewrite IH, IH by assumption.
    rewrite !Z.div_div by lia. now rewrite pow2_xO.
  - rewrite shr_1_m by assumption. reflexivity.
Qed.

(** When the bits shifted out are zero, nothing is remembered of them. *)
Lemma shr_1_even (a : Z) :
  (0 <= a)%Z ->
  shr_1 (Build_shr_record (2 * a) false false)
  = Build_shr_record a false false.
Proof. destruct a as [|p|p]; intros H; try lia; reflexivity. Qed.

Lemma iter_shr_1_exact (p : positive) (a : Z) :
  (0 <= a)%Z ->
  iter_pos shr_1 p (Build_shr_record (a * 2 ^ Zpos p) false false)
  = Build_shr_record a false false.
Proof.
  revert a. induction p as [p IH|p IH|]; intros a H; cbn [iter_pos].
  - rewrite pow2_xI.
    replace (a * (2 * (2 ^ Zpos p * 2 ^ Zpos p)))%Z
      with (2 * ((a * 2 ^ Zpos p) * 2 ^ Zpos p))%Z by ring.
    rewrite shr_1_even by (apply Z.mul_nonneg_nonneg; [|lia];
                           apply Z.mul_nonneg_nonneg; lia).
    rewrite IH by (apply Z.mul_nonneg_nonneg; lia).
    now apply IH.
  - rewrite pow2_xO, Z.mul_assoc.
    rewrite IH by (apply Z.mul_nonneg_nonneg; lia).
    now apply IH.
  - change (2 ^ 1)%Z with 2%Z. rewrite Z.mul_comm. now apply shr_1_even.
Qed.

Lemma Zdigits2_lt (m : Z) : (0 <= m)%Z -> (m < 2 ^ Zdigits2 m)%Z.
Proof.
  destruct m as [|p|p]; intros H; try lia; [reflexivity|].
  cbn [Zdigits2]. rewrite digits2_pos_size, <- Pos2Z.inj_pow.
  exact (Pos.size_gt p).
Qed.

Lemma Zdigits2_bound (m j : Z) :
  (0 <= m < 2 ^ j)%Z -> (0 <= j)%Z -> (Zdigits2 m <= j)%Z.
Proof.
  destruct m as [|p|p]; intros H Hj; try lia; [exact Hj|].
  cbn [Zdigits2]. apply digits2_pos_bound; lia.
Qed.

Lemma Zdigits2_nonneg (m : Z) : (0 <= Zdigits2 m)%Z.
Proof. destruct m; cbn; lia. Qed.

Lemma shr_record_of_loc_m (m : Z) (l : location) :
  shr_m (shr_record_of_loc m l) = m.
Proof. now destruct l as [|[]]. Qed.

Lemma round_nearest_even_bounds (m : Z) (l : location) :
  (m <= round_nearest_even m l <= m + 1)%Z.
Proof.
  destruct l as [|[]]; cbn [round_nearest_even]; try lia.
  destruct (Z.even m); lia.
Qed.

(** What rounding does to [m * 2 ^ e] ([m >= 0]) when the remainder is
    described by [l]: with [k] the number of bits that do not fit, the
    result stands for [m1 * 2 ^ (e + k)] where [m1] is [m / 2 ^ k] or one
    more, and is [m / 2 ^ k] when nothing is lost; it is an infinity when
    the exponent reached is too large. *)
Lemma binary_round_aux_value (s : bool) (m e : Z) (l : location) :
  (0 <= m)%Z ->
  let k := Z.max 0 (fexp prec emax (Zdigits2 m + e) - e) in
  exists m1 : Z,
    (m / 2 ^ k <= m1 <= m / 2 ^ k + 1)%Z
    /\ (l = loc_Exact -> (m mod 2 ^ k = 0)%Z -> m1 = (m / 2 ^ k)%Z)
    /\ ((m1 = 0%Z /\ binary_round_aux prec emax s m e l = S754_zero s)
        \/ exists mf ef,
             (e + k <= ef)%Z
             /\ (Zpos mf * 2 ^ (ef - (e + k)) = m1)%Z
             /\ binary_round_aux prec emax s m e l
                = if (ef <=? emax - prec)%Z then S754_finite s mf ef
                  else S754_infinity s).
Proof.
  intros Hm k.
  set (F := fexp prec emax (Zdigits2 m + e)) in *.
  pose proof (Zdigits2_nonneg m) as HD.
  pose proof (Zdigits2_lt Hm) as HmD.
  (* the first shift *)
  assert (H1 : exists mrs',
             shr_fexp prec emax m e l = (mrs', (e + k)%Z)
             /\ shr_m mrs' = (m / 2 ^ k)%Z
             /\ (l = loc_Exact -> (m mod 2 ^ k = 0)%Z ->
                 mrs' = Build_shr_record (m / 2 ^ k) false false)).
  { unfold shr_fexp, shr. fold F. subst k.
    destruct (F - e)%Z as [|p|p] eqn:Ed.
    - exists (shr_record_of_loc m l). rewrite Z.add_0_r.
      change (2 ^ Z.max 0 0)%Z with 1%Z. rewrite Z.div_1_r.
      split; [reflexivity|]. split; [apply shr_record_of_loc_m|].
      now intros -> _.
    - exists (iter_pos shr_1 p (shr_record_of_loc m l)).
      rewrite Z.max_r by lia. split; [reflexivity|]. split.
      + rewrite iter_shr_1_m by (rewrite shr_record_of_loc_m; exact Hm).
        now rewrite shr_record_of_loc_m.
      + intros -> Hmod. cbn [shr_record_of_loc].
        pose proof (Z.div_mod m (2 ^ Zpos p) ltac:(lia)) as Hdm.
        replace m with (m / 2 ^ Zpos p * 2 ^ Zpos p)%Z at 1 by lia.
        apply iter_shr_1_exact. apply Z.div_pos; lia.
    - exists (shr_record_of_loc m l). rewrite Z.add_0_r.
      change (2 ^ Z.max 0 (Zneg p))%Z with 1%Z. rewrite Z.div_1_r.
      split; [reflexivity|]. split; [apply shr_record_of_loc_m|].
      now intros -> _. }
  destruct H1 as [mrs' [E1 [Hm' Hex]]].
  set (m' := (m / 2 ^ k)%Z) in *.
  assert (Hk : (0 <= k)%Z) by (subst k; lia).
  assert (Hm'0 : (0 <= m')%Z) by (subst m'; apply Z.div_pos; lia).
  set (m1 := round_nearest_even (shr_m mrs') (loc_of_shr_record mrs')).
  assert (Hm1 : (m' <= m1 <= m' + 1)%Z).
  { subst m1. rewrite Hm'. apply round_nearest_even_bounds. }
  exists m1. split; [exact Hm1|]. split.
  { intros Hl Hmod. subst m1. now rewrite (Hex Hl Hmod). }
  (* the exponent after the first shift, and the size of [m'] *)
  set (e' := (e + k)%Z) in *.
  set (j := Z.max (Zdigits2 m - k) 0).
  assert (He' : (emin <= e')%Z /\ (fexp prec emax (j + e') <= e')%Z).
  { subst e' j k F. unfold fexp, SpecFloat.emin, emin, prec, emax in *. lia. }
  destruct He' as [He' Hj].
  assert (Hm'j : (m' < 2 ^ j)%Z).
  { subst m' j. destruct (Z.le_gt_cases k (Zdigits2 m)) as [Hle|Hgt].
    - rewrite Z.max_l by lia.
      apply Z.div_lt_upper_bound; [lia|].
      rewrite <- Z.pow_add_r by lia.
      now replace (k + (Zdigits2 m - k))%Z with (Zdigits2 m) by lia.
    - rewrite Z.max_r by lia. change (2 ^ 0)%Z with 1%Z.
      rewrite Z.div_small; [lia|]. split; [exact Hm|].
      apply Z.lt_le_trans with (2 ^ Zdigits2 m)%Z; [exact HmD|].
      apply Z.pow_le_mono_r; lia. }
  assert (Hj0 : (0 <= j)%Z) by (subst j; lia).
  (* the second shift loses nothing *)
  assert (H2 : exists mf2 k2,
             shr_fexp prec emax m1 e' loc_Exact
             = (Build_shr_record mf2 false false, (e' + k2)%Z)
             /\ (0 <= k2)%Z /\ (mf2 * 2 ^ k2 = m1)%Z /\ (0 <= mf2)%Z).
  { unfold shr_fexp, shr. cbn [shr_record_of_loc].
    destruct (Z_lt_le_dec m1 (2 ^ j)) as [Hlt|Hge].
    - assert (Hd : (Zdigits2 m1 <= j)%Z)
        by (apply Zdigits2_bound; lia).
      assert (Hf : (fexp prec emax (Zdigits2 m1 + e') - e' <= 0)%Z)
        by (unfold fexp, SpecFloat.emin, emin, prec, emax in *; lia).
      exists m1, 0%Z. rewrite Z.add_0_r, Z.mul_1_r.
      destruct (fexp prec emax (Zdigits2 m1 + e') - e')%Z; try lia;
        repeat split; lia.
    - assert (Em1 : m1 = (2 ^ j)%Z) by lia.
      assert (Hd : (Zdigits2 m1 <= j + 1)%Z).
      { apply Zdigits2_bound; [|lia]. rewrite Em1. split; [lia|].
        apply Z.pow_lt_mono_r; lia. }
      assert (Hf : (fexp prec emax (Zdigits2 m1 + e') - e' <= 1)%Z)
        by (unfold fexp, SpecFloat.emin, emin, prec, emax in *; lia).
      destruct (fexp prec emax (Zdigits2 m1 + e') - e')%Z as [|p|p] eqn:Ed.
      + exists m1, 0%Z. rewrite Z.add_0_r, Z.mul_1_r. repeat split; lia.
      + assert (p = 1%positive) by lia. subst p.
        assert (Hj1 : (1 <= j)%Z).
        { destruct (Z.eq_dec j 0) as [Ej|]; [|lia]. exfalso.
          rewrite Ej in Em1. change (2 ^ 0)%Z with 1%Z in Em1.
          rewrite Em1 in Ed. cbn [Zdigits2 digits2_pos] in Ed.
          unfold fexp, SpecFloat.emin, emin, prec, emax in *. lia. }
        exists (2 ^ (j - 1))%Z, 1%Z. cbn [iter_pos].
        replace m1 with (2 * 2 ^ (j - 1))%Z.
        * rewrite shr_1_even by lia. repeat split; lia.
        * rewrite Em1. rewrite <- Z.pow_succ_r by lia. f_equal. lia.
      + exists m1, 0%Z. rewrite Z.add_0_r, Z.mul_1_r. repeat split; lia. }
  destruct H2 as [mf2 [k2 [E2 [Hk2 [Hmf2 Hmf20]]]]].
  unfold binary_round_aux. rewrite E1. fold m1. fold e'. rewrite E2.
  cbn [shr_m].
  destruct mf2 as [|p|p]; [| |lia].
  - left. split; [lia|reflexivity].
  - right. exists p, (e' + k2)%Z. split; [lia|].
    split; [|reflexivity].
    replace (e' + k2 - e')%Z with k2 by lia. exact Hmf2.
Qed.

(** *** Powers of two *)

Lemma Qpow2_Z (n : Z) : (0 <= n)%Z -> Py.Qpow2 n == inject_Z (2 ^ n).
Proof. intros H. unfold Py.Qpow2. now rewrite Zpower_Qpower. Qed.

Lemma Qpow2_le (a b : Z) : (a <= b)%Z -> Py.Qpow2 a <= Py.Qpow2 b.
Proof. intros H. unfold Py.Qpow2. apply Qpower_le_compat_l; [exact H|lra]. Qed.

Lemma Qpow2_lt_inv (a b : Z) : Py.Qpow2 a < Py.Qpow2 b -> (a < b)%Z.
Proof.
  intros H. destruct (Z_lt_le_dec a b) as [|Hle]; [assumption|].
  apply Qpow2_le in Hle. lra.
Qed.

Lemma Qpow2_split (a c : Z) :
  Py.Qpow2 a == Py.Qpow2 (a - c) * Py.Qpow2 c.
Proof. rewrite <- Qpow2_plus. now replace (a - c + c)%Z with a by lia. Qed.

(** An equation between two scaled integers, brought to the smaller of
    the two exponents. *)
Lemma scaled_eq (m K e E : Z) :
  inject_Z m * Py.Qpow2 e == inject_Z K * Py.Qpow2 E ->
  (m * 2 ^ (e - Z.min e E) = K * 2 ^ (E - Z.min e E))%Z.
Proof.
  intros H. set (c := Z.min e E).
  rewrite (Qpow2_split e c), (Qpow2_split E c) in H.
  rewrite !Qmult_assoc in H.
  apply Qmult_inj_r in H; [|apply Qnot_eq_sym, Qlt_not_eq, Qpow2_pos].
  rewrite !Qpow2_Z in H by (subst c; lia).
  rewrite <- !inject_Z_mult in H. now apply -> inject_Z_injective in H.
Qed.

Lemma scaled_le (m K e E : Z) :
  inject_Z m * Py.Qpow2 e <= inject_Z K * Py.Qpow2 E ->
  (m * 2 ^ (e - Z.min e E) <= K * 2 ^ (E - Z.min e E))%Z.
Proof.
  intros H. set (c := Z.min e E).
  rewrite (Qpow2_split e c), (Qpow2_split E c) in H.
  rewrite !Qmult_assoc in H.
  apply Qmult_le_r in H; [|apply Qpow2_pos].
  rewrite !Qpow2_Z in H by (subst c; lia).
  rewrite <- !inject_Z_mult in H. now rewrite <- Zle_Qle in H.
Qed.

Lemma scaled_lt (m K e E : Z) :
  inject_Z m * Py.Qpow2 e < inject_Z K * Py.Qpow2 E ->
  (m * 2 ^ (e - Z.min e E) < K * 2 ^ (E - Z.min e E))%Z.
Proof.
  intros H. set (c := Z.min e E).
  rewrite (Qpow2_split e c), (Qpow2_split E c) in H.
  rewrite !Qmult_assoc in H.
  apply Qmult_lt_r in H; [|apply Qpow2_pos].
  rewrite !Qpow2_Z in H by (subst c; lia).
  rewrite <- !inject_Z_mult in H. now rewrite <- Zlt_Qlt in H.
Qed.

(** *** Results that need no rounding *)

(** A number [K * 2 ^ E] with [K] below [2 ^ 53] and [E] not below the
    least exponent has no bit that does not fit. *)
Lemma representable_mod (m : positive) (e K E : Z) :
  (0 < K < 2 ^ prec)%Z -> (emin <= E)%Z ->
  inject_Z (Zpos m) * Py.Qpow2 e == inject_Z K * Py.Qpow2 E ->
  (Zpos m mod 2 ^ Z.max 0 (fexp prec emax (Zdigits2 (Zpos m) + e) - e)
   = 0)%Z.
Proof.
  intros HK HE H. apply scaled_eq in H.
  set (k := Z.max 0 (fexp prec emax (Zdigits2 (Zpos m) + e) - e)).
  destruct (Z.eq_dec k 0) as [->|Hk]; [apply Z.mod_1_r|].
  assert (Hk0 : (0 < k)%Z) by (subst k; lia).
  cbn [Zdigits2] in k.
  destruct (Z_le_gt_dec e E) as [Hle|Hgt].
  - rewrite Z.min_l, Z.sub_diag, Z.mul_1_r in H by lia.
    assert (Hd : (Zpos (digits2_pos m) <= prec + (E - e))%Z).
    { apply digits2_pos_bound; [|unfold prec; lia].
      rewrite H, Z.pow_add_r by (unfold prec; lia).
      apply Z.mul_lt_mono_pos_r; [lia|tauto]. }
    assert (Hke : (k <= E - e)%Z)
      by (subst k; unfold fexp, SpecFloat.emin, emin, prec, emax in *; lia).
    rewrite H. replace (E - e)%Z with (E - e - k + k)%Z by lia.
    rewrite Z.pow_add_r, Z.mul_assoc by lia. apply Z.mod_mul. lia.
  - exfalso. rewrite Z.min_r, Z.sub_diag, Z.mul_1_r in H by lia.
    assert (Hd : (Zpos (digits2_pos m) <= prec - (e - E))%Z).
    { destruct (Z_le_gt_dec (e - E) prec) as [Hs|Hs].
      - apply digits2_pos_bound; [|lia].
        apply Z.mul_lt_mono_pos_r with (p := (2 ^ (e - E))%Z); [lia|].
        rewrite <- Z.pow_add_r by lia.
        replace (prec - (e - E) + (e - E))%Z with prec by lia. lia.
      - exfalso.
        assert (2 ^ prec < 2 ^ (e - E))%Z by (apply Z.pow_lt_mono_r; lia).
        nia. }
    subst k. unfold fexp, SpecFloat.emin, emin, prec, emax in *. lia.
Qed.

(** Rounding a representable number of moderate size returns it. *)
Lemma binary_round_aux_exact (s : bool) (m : positive) (e K E : Z) :
  (0 < K < 2 ^ prec)%Z -> (emin <= E <= 0)%Z ->
  inject_Z (Zpos m) * Py.Qpow2 e == inject_Z K * Py.Qpow2 E ->
  exists mf ef,
    binary_round_aux prec emax s (Zpos m) e loc_Exact = S754_finite s mf ef
    /\ inject_Z (Zpos mf) * Py.Qpow2 ef == inject_Z (Zpos m) * Py.Qpow2 e.
Proof.
  intros HK HE H.
  pose proof (@representable_mod m e K E HK (proj1 HE) H) as Hmod.
  destruct (@binary_round_aux_value s (Zpos m) e loc_Exact ltac:(lia))
    as [m1 [_ [Hex Hres]]].
  set (k := Z.max 0 (fexp prec emax (Zdigits2 (Zpos m) + e) - e)) in *.
  specialize (Hex eq_refl Hmod).
  assert (Hk : (0 <= k)%Z) by (subst k; lia).
  assert (Hm : (Zpos m = m1 * 2 ^ k)%Z).
  { pose proof (Z.div_mod (Zpos m) (2 ^ k) ltac:(lia)). lia. }
  assert (Hm1 : (0 < m1)%Z) by nia.
  destruct Hres as [[H0 _]|[mf [ef [Hef [Hmf Hr]]]]]; [lia|].
  assert (Hv : inject_Z (Zpos mf) * Py.Qpow2 ef
               == inject_Z (Zpos m) * Py.Qpow2 e).
  { rewrite Hm, <- Hmf, !inject_Z_mult.
    rewrite <- !Qpow2_Z by lia.
    rewrite <- !Qmult_assoc, <- !Qpow2_plus.
    now replace (ef - (e + k) + (k + e))%Z with ef by lia. }
  exists mf, ef. split; [|exact Hv].
  rewrite Hr. destruct (Z.leb_spec ef (emax - prec)) as [|Hbig];
    [reflexivity|exfalso].
  assert (Hlt : Py.Qpow2 ef < Py.Qpow2 prec).
  { apply Qle_lt_trans with (inject_Z (Zpos mf) * Py.Qpow2 ef).
    - rewrite <- (Qmult_1_l (Py.Qpow2 ef)) at 1.
      apply Qmult_le_compat_r; [|apply Qlt_le_weak, Qpow2_pos].
      change 1 with (inject_Z 1). rewrite <- Zle_Qle. lia.
    - rewrite Hv, H.
      apply Qle_lt_trans with (inject_Z K * 1).
      + apply Qmult_le_l; [change 0 with (inject_Z 0);
                           rewrite <- Zlt_Qlt; lia|].
        change 1 with (Py.Qpow2 0). apply Qpow2_le. lia.
      + rewrite Qmult_1_r, Qpow2_Z by (unfold prec; lia).
        rewrite <- Zlt_Qlt. lia. }
  apply Qpow2_lt_inv in Hlt. unfold prec, emax in *. lia.
Qed.

Lemma shl_align_same (m : positive) (e t : Z) :
  inject_Z (Zpos (fst (shl_align m e t))) * Py.Qpow2 (snd (shl_align m e t))
  == inject_Z (Zpos m) * Py.Qpow2 e.
Proof.
  destruct (Z_le_gt_dec t e) as [Hle|Hgt].
  - pose proof (@shl_align_value m e t Hle) as H.
    unfold shl_align in *. destruct (t - e)%Z as [|d|d] eqn:Ed;
      cbn [fst snd] in *; [reflexivity|reflexivity|exact H].
  - unfold shl_align. destruct (t - e)%Z as [|d|d] eqn:Ed;
      cbn [fst snd]; try reflexivity. lia.
Qed.

Lemma binary_round_exact (s : bool) (m : positive) (e K E : Z) :
  (0 < K < 2 ^ prec)%Z -> (emin <= E <= 0)%Z ->
  inject_Z (Zpos m) * Py.Qpow2 e == inject_Z K * Py.Qpow2 E ->
  exists mf ef,
    binary_round prec emax s m e = S754_finite s mf ef
    /\ inject_Z (Zpos mf) * Py.Qpow2 ef == inject_Z (Zpos m) * Py.Qpow2 e.
Proof.
  intros HK HE H. unfold binary_round.
  pose proof (shl_align_same m e
                (fexp prec emax (Zpos (digits2_pos m) + e))) as Hs.
  destruct (shl_align m e _) as [mz ez]. cbn [fst snd] in Hs.
  destruct (@binary_round_aux_exact s mz ez K E HK HE) as [mf [ef [Hr Hv]]];
    [now rewrite Hs|].
  exists mf, ef. split; [exact Hr|]. now rewrite Hv.
Qed.

(** *** Sums, differences and products that need no rounding *)

(** The number that [m * 2 ^ e] ([m] of either sign) stands for, when
    that number is [K * 2 ^ E] with [|K| < 2 ^ 53]. *)
Lemma binary_normalize_exact (m e K E : Z) :
  (Z.abs K < 2 ^ prec)%Z -> (emin <= E <= 0)%Z ->
  inject_Z m * Py.Qpow2 e == inject_Z K * Py.Qpow2 E ->
  exists v,
    Py.SF2Q (binary_normalize prec emax m e false) = Some v
    /\ v == inject_Z m * Py.Qpow2 e.
Proof.
  intros HK HE H.
  pose proof (Qpow2_pos e) as He. pose proof (Qpow2_pos E) as HE'.
  destruct m as [|p|p]; cbn [binary_normalize].
  - exists 0. split; [reflexivity|]. change (inject_Z 0) with 0. ring.
  - assert (HK0 : (0 < K)%Z).
    { assert (Hp : 0 < inject_Z (Zpos p) * Py.Qpow2 e)
        by (apply Qmult_lt_0_compat; [reflexivity|exact He]).
      rewrite H in Hp.
      destruct (Z_lt_le_dec 0 K) as [|Hle]; [assumption|exfalso].
      assert (inject_Z K <= 0)
        by (change 0 with (inject_Z 0); now rewrite <- Zle_Qle).
      assert (inject_Z K * Py.Qpow2 E <= 0 * Py.Qpow2 E)
        by (apply Qmult_le_compat_r; [assumption|lra]).
      lra. }
    destruct (@binary_round_exact false p e K E ltac:(lia) HE H)
      as [mf [ef [-> Hv]]].
    eexists. split; [reflexivity|]. cbn [cond_Zopp]. exact Hv.
  - assert (H' : inject_Z (Zpos p) * Py.Qpow2 e
                 == inject_Z (- K) * Py.Qpow2 E).
    { rewrite inject_Z_opp. change (Zneg p) with (- Zpos p)%Z in H.
      rewrite inject_Z_opp in H. lra. }
    assert (HK0 : (0 < - K)%Z).
    { assert (Hp : 0 < inject_Z (Zpos p) * Py.Qpow2 e)
        by (apply Qmult_lt_0_compat; [reflexivity|exact He]).
      rewrite H' in Hp.
      destruct (Z_lt_le_dec 0 (- K)) as [|Hle]; [assumption|exfalso].
      assert (inject_Z (- K) <= 0)
        by (change 0 with (inject_Z 0); now rewrite <- Zle_Qle).
      assert (inject_Z (- K) * Py.Qpow2 E <= 0 * Py.Qpow2 E)
        by (apply Qmult_le_compat_r; [assumption|lra]).
      lra. }
    destruct (@binary_round_exact true p e (- K) E ltac:(lia) HE H')
      as [mf [ef [-> Hv]]].
    eexists. split; [reflexivity|]. cbn [cond_Zopp].
    change (Zneg p) with (- Zpos p)%Z. rewrite !inject_Z_opp. lra.
Qed.

Lemma SFadd_exact (x y : spec_float) (vx vy : Q) (K E : Z) :
  Py.SF2Q x = Some vx -> Py.SF2Q y = Some vy ->
  (Z.abs K < 2 ^ prec)%Z -> (emin <= E <= 0)%Z ->
  vx + vy == inject_Z K * Py.Qpow2 E ->
  exists v, Py.SF2Q (SFadd prec emax x y) = Some v /\ v == vx + vy.
Proof.
  destruct x as [sx|sx| |sx mx ex], y as [sy|sy| |sy my ey];
    try discriminate; cbn [Py.SF2Q]; intros [= <-] [= <-] HK HE H.
  - exists 0. split; [now destruct sx, sy|ring].
  - eexists. split; [reflexivity|ring].
  - eexists. split; [reflexivity|ring].
  - cbn [SFadd]. set (ez := Z.min ex ey).
    assert (Hs : inject_Z (cond_Zopp sx (Zpos (fst (shl_align mx ex ez)))
                           + cond_Zopp sy (Zpos (fst (shl_align my ey ez))))
                 * Py.Qpow2 ez
                 == inject_Z (cond_Zopp sx (Zpos mx)) * Py.Qpow2 ex
                    + inject_Z (cond_Zopp sy (Zpos my)) * Py.Qpow2 ey).
    { rewrite inject_Z_plus, Qmult_plus_distr_l.
      rewrite (aligned_value sx mx (e' := ez)) by (unfold ez; lia).
      rewrite (aligned_value sy my (e' := ez)) by (unfold ez; lia).
      reflexivity. }
    match type of Hs with
    | inject_Z ?m * _ == _ =>
        destruct (@binary_normalize_exact m ez K E HK HE) as [v [Ev Hv]];
          [now rewrite Hs|]
    end.
    exists v. split; [exact Ev|]. now rewrite Hv, Hs.
Qed.

Lemma SFsub_exact (x y : spec_float) (vx vy : Q) (K E : Z) :
  Py.SF2Q x = Some vx -> Py.SF2Q y = Some vy ->
  (Z.abs K < 2 ^ prec)%Z -> (emin <= E <= 0)%Z ->
  vx - vy == inject_Z K * Py.Qpow2 E ->
  exists v, Py.SF2Q (SFsub prec emax x y) = Some v /\ v == vx - vy.
Proof.
  destruct x as [sx|sx| |sx mx ex], y as [sy|sy| |sy my ey];
    try discriminate; cbn [Py.SF2Q]; intros [= <-] [= <-] HK HE H.
  - exists 0. split; [now destruct sx, sy|ring].
  - eexists. split; [reflexivity|].
    rewrite !inject_cond_Zopp. destruct sy; cbn [negb]; ring.
  - eexists. split; [reflexivity|ring].
  - cbn [SFsub]. set (ez := Z.min ex ey).
    assert (Hs : inject_Z (cond_Zopp sx (Zpos (fst (shl_align mx ex ez)))
                           - cond_Zopp sy (Zpos (fst (shl_align my ey ez))))
                 * Py.Qpow2 ez
                 == inject_Z (cond_Zopp sx (Zpos mx)) * Py.Qpow2 ex
                    - inject_Z (cond_Zopp sy (Zpos my)) * Py.Qpow2 ey).
    { unfold Z.sub. rewrite inject_Z_plus, inject_Z_opp.
      rewrite Qmult_plus_distr_l.
      setoid_replace (- inject_Z (cond_Zopp sy
                                    (Zpos (fst (shl_align my ey ez))))
                      * Py.Qpow2 ez)
        with (- (inject_Z (cond_Zopp sy
                             (Zpos (fst (shl_align my ey ez))))
                 * Py.Qpow2 ez)) by ring.
      rewrite (aligned_value sx mx (e' := ez)) by (unfold ez; lia).
      rewrite (aligned_value sy my (e' := ez)) by (unfold ez; lia).
      reflexivity. }
    match type of Hs with
    | inject_Z ?m * _ == _ =>
        destruct (@binary_normalize_exact m ez K E HK HE) as [v [Ev Hv]];
          [now rewrite Hs|]
    end.
    exists v. split; [exact Ev|]. now rewrite Hv, Hs.
Qed.

Lemma SFmul_exact (x y : spec_float) (vx vy : Q) (K E : Z) :
  Py.SF2Q x = Some vx -> Py.SF2Q y = Some vy ->
  (Z.abs K < 2 ^ prec)%Z -> (emin <= E <= 0)%Z ->
  vx * vy == inject_Z K * Py.Qpow2 E ->
  exists v, Py.SF2Q (SFmul prec emax x y) = Some v /\ v == vx * vy.
Proof.
  destruct x as [sx|sx| |sx mx ex], y as [sy|sy| |sy my ey];
    try discriminate; cbn [Py.SF2Q]; intros [= <-] [= <-] HK HE H.
  - exists 0. split; [reflexivity|ring].
  - exists 0. split; [reflexivity|ring].
  - exists 0. split; [reflexivity|ring].
  - cbn [SFmul].
    assert (Hm : inject_Z (Zpos (mx * my)) * Py.Qpow2 (ex + ey)
                 == (inject_Z (Zpos mx) * Py.Qpow2 ex)
                    * (inject_Z (Zpos my) * Py.Qpow2 ey)).
    { rewrite Pos2Z.inj_mul, inject_Z_mult, Qpow2_plus. ring. }
    rewrite !inject_cond_Zopp in H.
    set (K' := if xorb sx sy then (- K)%Z else K).
    assert (HK' : inject_Z (Zpos (mx * my)) * Py.Qpow2 (ex + ey)
                  == inject_Z K' * Py.Qpow2 E).
    { rewrite Hm. subst K'.
      destruct sx, sy; cbn [xorb]; rewrite ?inject_Z_opp; lra. }
    assert (HK0 : (0 < K')%Z).
    { pose proof (Qpow2_pos (ex + ey)) as He.
      pose proof (Qpow2_pos E) as HE'.
      assert (Hp : 0 < inject_Z (Zpos (mx * my)) * Py.Qpow2 (ex + ey))
        by (apply Qmult_lt_0_compat; [reflexivity|exact He]).
      rewrite HK' in Hp.
      destruct (Z_lt_le_dec 0 K') as [|Hle]; [assumption|exfalso].
      assert (inject_Z K' <= 0)
        by (change 0 with (inject_Z 0); now rewrite <- Zle_Qle).
      assert (inject_Z K' * Py.Qpow2 E <= 0 * Py.Qpow2 E)
        by (apply Qmult_le_compat_r; [assumption|lra]).
      lra. }
    destruct (@binary_round_aux_exact (xorb sx sy) (mx * my) (ex + ey) K' E)
      as [mf [ef [-> Hv]]];
      [subst K'; destruct (xorb sx sy); lia|exact HE|exact HK'|].
    eexists. split; [reflexivity|].
    rewrite !inject_cond_Zopp. rewrite Hm in Hv.
    destruct sx, sy; cbn [xorb]; lra.
Qed.

(** *** Quotients *)

Lemma digits2_pos_ge (p : positive) :
  (2 ^ (Zpos (digits2_pos p) - 1) <= Zpos p)%Z.
Proof.
  rewrite digits2_pos_size. pose proof (Pos.size_le p) as Hs.
  assert (H2 : (2 ^ Zpos (Pos.size p) <= 2 * Zpos p)%Z).
  { rewrite <- Pos2Z.inj_pow. change (2 * Zpos p)%Z with (Zpos p~0).
    exact Hs. }
  replace (Zpos (Pos.size p)) with (Zpos (Pos.size p) - 1 + 1)%Z in H2
    by lia.
  rewrite Z.pow_add_r in H2 by lia. lia.
Qed.

Lemma new_location_exact (p : positive) : new_location (Zpos p) 0 = loc_Exact.
Proof.
  unfold new_location, new_location_even, new_location_odd.
  now destruct (Z.even (Zpos p)).
Qed.

(** The integer division at the heart of [SFdiv]. *)
Lemma SFdiv_core_spec (mx my : positive) (ex ey : Z) :
  exists q r e',
    SFdiv_core_binary prec emax (Zpos mx) ex (Zpos my) ey
    = (q, e', new_location (Zpos my) r)
    /\ e' = Z.min (fexp prec emax (Zpos (digits2_pos mx) + ex
                                  - (Zpos (digits2_pos my) + ey)))
                  (ex - ey)
    /\ (Zpos mx * 2 ^ (ex - ey - e') = q * Zpos my + r)%Z
    /\ (0 <= r < Zpos my)%Z /\ (0 <= q)%Z.
Proof.
  unfold SFdiv_core_binary, Zdigits2.
  set (e' := Z.min _ (ex - ey)).
  assert (Hs : (0 <= ex - ey - e')%Z) by (subst e'; lia).
  set (m' := match (ex - ey - e')%Z with
             | Zpos _ => Z.shiftl (Zpos mx) (ex - ey - e')
             | Z0 => Zpos mx
             | Zneg _ => 0%Z
             end).
  assert (Hm' : m' = (Zpos mx * 2 ^ (ex - ey - e'))%Z).
  { subst m'. destruct (ex - ey - e')%Z as [|p|p] eqn:E; [lia| |lia].
    rewrite Z.shiftl_mul_pow2 by lia. reflexivity. }
  pose proof (Z_div_mod m' (Zpos my) ltac:(lia)) as Hd.
  destruct (Z.div_eucl m' (Zpos my)) as [q r].
  destruct Hd as [Hd Hr].
  exists q, r, e'. split; [reflexivity|]. split; [reflexivity|].
  split; [lia|]. split; [lia|]. nia.
Qed.

(** A quotient that is a representable number of moderate size is
    computed without rounding. *)
Lemma SFdiv_exact (mx my : positive) (ex ey K E : Z) :
  (0 < K < 2 ^ prec)%Z -> (emin <= E <= 0)%Z ->
  inject_Z (Zpos mx) * Py.Qpow2 ex
  == inject_Z K * Py.Qpow2 E * (inject_Z (Zpos my) * Py.Qpow2 ey) ->
  exists mf ef,
    SFdiv prec emax (S754_finite false mx ex) (S754_finite false my ey)
    = S754_finite false mf ef
    /\ inject_Z (Zpos mf) * Py.Qpow2 ef == inject_Z K * Py.Qpow2 E.
Proof.
  intros HK HE H.
  destruct (SFdiv_core_spec mx my ex ey)
    as [q [r [e' [Ecore [Ee' [Hdiv [Hr Hq]]]]]]].
  set (a := (ex - ey)%Z) in *.
  assert (Ha : inject_Z (Zpos mx) * Py.Qpow2 a
               == inject_Z (K * Zpos my) * Py.Qpow2 E).
  { assert (E1 : Py.Qpow2 ex == Py.Qpow2 a * Py.Qpow2 ey)
      by (subst a; apply Qpow2_split).
    rewrite E1 in H. rewrite inject_Z_mult.
    pose proof (Qpow2_pos ey) as Hey.
    apply Qmult_inj_r with (z := Py.Qpow2 ey);
      [apply Qnot_eq_sym, Qlt_not_eq, Hey|].
    rewrite <- !Qmult_assoc in *. rewrite H. ring. }
  assert (HeE : (e' <= E)%Z).
  { pose proof (@scaled_eq _ _ _ _ Ha) as Hz.
    destruct (Z_le_gt_dec a E) as [Hle|Hgt]; [lia|].
    rewrite Z.min_r, Z.sub_diag, Z.mul_1_r in Hz by lia.
    pose proof (digits2_pos_ge mx) as H1.
    pose proof (Zdigits2_lt (m := Zpos my) ltac:(lia)) as H2.
    cbn [Zdigits2] in H2.
    set (d1 := Zpos (digits2_pos mx)) in *.
    set (d2 := Zpos (digits2_pos my)) in *.
    assert (Hlt : (2 ^ (d1 - 1 + (a - E)) < 2 ^ (prec + d2))%Z).
    { rewrite !Z.pow_add_r by (unfold prec; lia).
      apply Z.le_lt_trans with (Zpos mx * 2 ^ (a - E))%Z.
      - apply Z.mul_le_mono_nonneg_r; lia.
      - rewrite Hz. apply Z.mul_lt_mono_nonneg; lia. }
    apply Z.pow_lt_mono_r_iff in Hlt; [|lia|unfold prec; lia].
    subst e'. unfold fexp, SpecFloat.emin, emin, prec, emax in *. lia. }
  assert (Hz : (Zpos mx * 2 ^ (a - e') = K * 2 ^ (E - e') * Zpos my)%Z).
  { assert (Hs : (0 <= a - e')%Z) by (subst e'; lia).
    rewrite (Qpow2_split a e'), (Qpow2_split E e'), !Qmult_assoc in Ha.
    apply Qmult_inj_r in Ha; [|apply Qnot_eq_sym, Qlt_not_eq, Qpow2_pos].
    rewrite !Qpow2_Z in Ha by lia.
    rewrite <- !inject_Z_mult in Ha.
    apply -> inject_Z_injective in Ha. lia. }
  assert (Hqr : q = (K * 2 ^ (E - e'))%Z /\ r = 0%Z).
  { apply (Z.div_mod_unique (Zpos my)); [lia|lia|]. lia. }
  destruct Hqr as [-> ->].
  cbn [SFdiv xorb]. rewrite Ecore, new_location_exact.
  assert (Hq0 : (0 < K * 2 ^ (E - e'))%Z)
    by (apply Z.mul_pos_pos; [lia|apply Z.pow_pos_nonneg; lia]).
  destruct (K * 2 ^ (E - e'))%Z as [|qp|qp] eqn:Eq; try lia.
  destruct (@binary_round_aux_exact false qp e' K E HK HE)
    as [mf [ef [-> Hv]]].
  - rewrite <- Eq, inject_Z_mult, <- Qpow2_Z by lia.
    rewrite <- Qmult_assoc, <- Qpow2_plus.
    now replace (E - e' + e')%Z with E by lia.
  - exists mf, ef. split; [reflexivity|]. rewrite Hv.
    rewrite <- Eq, inject_Z_mult, <- Qpow2_Z by lia.
    rewrite <- Qmult_assoc, <- Qpow2_plus.
    now replace (E - e' + e')%Z with E by lia.
Qed.

(** The arithmetic of a rounded quotient: [A / my] is [kT * W / kH],
    [q] is its integer part, [m1] is [q] without its last [k] bits or one
    more, and one unit of [m1] is at most the least possible distance
    [W / (P * kH)] of the quotient from the integer below it. *)
Lemma quotient_bounds (A my q r kT kH N P Wg m1 : Z) :
  (0 < my)%Z -> (A = q * my + r)%Z -> (0 <= r < my)%Z ->
  (A * kH = my * kT * (P * Wg))%Z ->
  (0 < P)%Z -> (0 < kH <= Wg)%Z -> (0 < kT)%Z ->
  ((N - 1) * kH < kT <= N * kH)%Z ->
  (q / P <= m1 <= q / P + 1)%Z -> (0 <= q)%Z ->
  ((N - 1) * Wg < m1)%Z
  /\ (m1 <= N * Wg
      \/ (m1 = q / P + 1 /\ q mod P = 0 /\ r = 0))%Z.
Proof.
  intros Hmy HA Hr HAk HP HkH HkT HN Hm1 Hq.
  pose proof (Z.div_mod q P ltac:(lia)) as Hdm.
  pose proof (Z.mod_pos_bound q P HP) as Hmod.
  set (q' := (q / P)%Z) in *. set (t := (q mod P)%Z) in *.
  (* [q * kH <= kT * P * Wg < (q + 1) * kH] *)
  assert (H1 : (q * kH <= kT * (P * Wg))%Z).
  { apply Z.mul_le_mono_pos_l with (p := my); [exact Hmy|]. nia. }
  assert (H2 : (kT * (P * Wg) < (q + 1) * kH)%Z).
  { apply Z.mul_lt_mono_pos_l with (p := my); [exact Hmy|]. nia. }
  split.
  - (* below *)
    assert (H3 : (kT * Wg < (m1 + 1) * kH)%Z).
    { apply Z.mul_lt_mono_pos_l with (p := P); [exact HP|]. nia. }
    assert (H4 : ((N - 1) * kH * Wg + Wg <= kT * Wg)%Z) by nia.
    assert (H5 : ((N - 1) * Wg * kH < m1 * kH)%Z) by nia.
    apply Z.mul_lt_mono_pos_r in H5; lia.
  - (* above *)
    assert (H3 : (q' <= N * Wg)%Z).
    { assert (H6 : (q * kH <= N * Wg * P * kH)%Z) by nia.
      apply Z.mul_le_mono_pos_r in H6; [|lia].
      destruct (Z_le_gt_dec q' (N * Wg)) as [|Hgt]; [assumption|nia]. }
    destruct (Z_lt_le_dec q' (N * Wg)) as [Hlt|Hge]; [left; lia|].
    assert (Eq' : q' = (N * Wg)%Z) by lia.
    destruct (Z.eq_dec m1 q') as [->|Hne]; [left; lia|].
    right. split; [lia|].
    assert (Ht : t = 0%Z).
    { assert (H6 : (q * kH <= N * Wg * P * kH)%Z) by nia.
      apply Z.mul_le_mono_pos_r in H6; [|lia]. nia. }
    split; [exact Ht|].
    assert (H7 : (q * kH = kT * (P * Wg))%Z) by nia.
    assert (H8 : (A * kH = q * my * kH)%Z) by nia.
    apply Z.mul_reg_r in H8; lia.
Qed.

(** The quotient of two positive numbers of a common lattice that lies
    between the integers [N - 1] (excluded) and [N] (included) is rounded
    to a number between the same two integers. *)
Lemma SFdiv_ceiling (mx my : positive) (ex ey kT kH G N : Z) :
  inject_Z (Zpos mx) * Py.Qpow2 ex == inject_Z kT * Py.Qpow2 G ->
  inject_Z (Zpos my) * Py.Qpow2 ey == inject_Z kH * Py.Qpow2 G ->
  (0 < kT <= 2 ^ 26)%Z -> (0 < kH <= 2 ^ 26)%Z ->
  ((N - 1) * kH < kT <= N * kH)%Z ->
  exists mf ef,
    SFdiv prec emax (S754_finite false mx ex) (S754_finite false my ey)
    = S754_finite false mf ef
    /\ inject_Z (N - 1) < inject_Z (Zpos mf) * Py.Qpow2 ef
    /\ inject_Z (Zpos mf) * Py.Qpow2 ef <= inject_Z N.
Proof.
  intros Hx Hy HkT HkH HN.
  destruct (SFdiv_core_spec mx my ex ey)
    as [q [r [e' [Ecore [Ee' [Hdiv [Hr Hq]]]]]]].
  set (a := (ex - ey)%Z) in *.
  pose proof (Qpow2_pos G) as HG. pose proof (Qpow2_pos ey) as Hey.
  (* the two numbers, cross-multiplied *)
  assert (Ha : inject_Z (Zpos mx * kH) * Py.Qpow2 a
               == inject_Z (Zpos my * kT) * Py.Qpow2 0).
  { assert (E1 : Py.Qpow2 ex == Py.Qpow2 a * Py.Qpow2 ey)
      by (subst a; apply Qpow2_split).
    rewrite E1 in Hx. rewrite !inject_Z_mult.
    change (Py.Qpow2 0) with 1.
    apply Qmult_inj_r with (z := Py.Qpow2 ey * Py.Qpow2 G);
      [apply Qnot_eq_sym, Qlt_not_eq, Qmult_lt_0_compat; assumption|].
    setoid_replace (inject_Z (Zpos mx) * inject_Z kH * Py.Qpow2 a
                    * (Py.Qpow2 ey * Py.Qpow2 G))
      with ((inject_Z (Zpos mx) * (Py.Qpow2 a * Py.Qpow2 ey))
            * (inject_Z kH * Py.Qpow2 G)) by ring.
    setoid_replace (inject_Z (Zpos my) * inject_Z kT * 1
                    * (Py.Qpow2 ey * Py.Qpow2 G))
      with ((inject_Z kT * Py.Qpow2 G)
            * (inject_Z (Zpos my) * Py.Qpow2 ey)) by ring.
    rewrite Hx, Hy. ring. }
  apply scaled_eq in Ha. rewrite Z.sub_0_l in Ha.
  pose proof (digits2_pos_ge mx) as Hd1.
  pose proof (Zdigits2_lt (m := Zpos my) ltac:(lia)) as Hd2.
  cbn [Zdigits2] in Hd2.
  set (d1 := Zpos (digits2_pos mx)) in *.
  set (d2 := Zpos (digits2_pos my)) in *.
  assert (Hd1p : (1 <= d1)%Z) by (subst d1; lia).
  assert (Hd2p : (1 <= d2)%Z) by (subst d2; lia).
  (* the exponent of the quotient is small *)
  assert (Hexp : (d1 + a - d2 <= 26)%Z).
  { destruct (Z_le_gt_dec 0 a) as [Hge|Hlt].
    - rewrite Z.min_r, Z.sub_0_r, Z.opp_0, Z.mul_1_r in Ha by lia.
      assert (Hlt : (2 ^ (d1 - 1 + a) < 2 ^ (d2 + 26))%Z).
      { rewrite !Z.pow_add_r by lia.
        apply Z.le_lt_trans with (Zpos mx * kH * 2 ^ a)%Z.
        - apply Z.mul_le_mono_nonneg_r; [lia|]. nia.
        - rewrite Ha.
          assert (0 < 2 ^ d2)%Z by (apply Z.pow_pos_nonneg; lia).
          change (2 ^ 26)%Z with 67108864%Z in *. nia. }
      apply Z.pow_lt_mono_r_iff in Hlt; lia.
    - rewrite Z.min_l, Z.sub_diag, Z.mul_1_r in Ha by lia.
      assert (Hlt' : (2 ^ (d1 - 1) < 2 ^ (d2 + 26 - a))%Z).
      { replace (d2 + 26 - a)%Z with (d2 + 26 + - a)%Z by lia.
        rewrite !Z.pow_add_r by lia.
        apply Z.le_lt_trans with (Zpos mx * kH)%Z; [nia|].
        rewrite Ha.
        apply Z.mul_lt_mono_pos_r; [apply Z.pow_pos_nonneg; lia|].
        assert (0 < 2 ^ d2)%Z by (apply Z.pow_pos_nonneg; lia).
        change (2 ^ 26)%Z with 67108864%Z in *. nia. }
      apply Z.pow_lt_mono_r_iff in Hlt'; lia. }
  assert (He' : (e' <= -27)%Z).
  { subst e'. unfold fexp, SpecFloat.emin, emin, prec, emax in *. lia. }
  assert (Hs : (0 <= a - e')%Z) by (subst e'; lia).
  set (W := (2 ^ (- e'))%Z).
  assert (HW : (0 < W)%Z) by (apply Z.pow_pos_nonneg; lia).
  assert (HA : (Zpos mx * 2 ^ (a - e') * kH = Zpos my * kT * W)%Z).
  { subst W. destruct (Z_le_gt_dec 0 a) as [Hge|Hlt].
    - rewrite Z.min_r, Z.sub_0_r, Z.opp_0, Z.mul_1_r in Ha by lia.
      replace (a - e')%Z with (a + - e')%Z by lia.
      rewrite Z.pow_add_r by lia. nia.
    - rewrite Z.min_l, Z.sub_diag, Z.mul_1_r in Ha by lia.
      replace (- e')%Z with (- a + (a - e'))%Z by lia.
      rewrite Z.pow_add_r by lia. nia. }
  (* rounding *)
  destruct (@binary_round_aux_value false q e' (new_location (Zpos my) r) Hq)
    as [m1 [Hm1 [Hex Hres]]].
  set (k := Z.max 0 (fexp prec emax (Zdigits2 q + e') - e')) in *.
  assert (Hk : (0 <= k)%Z) by (subst k; lia).
  assert (Hqle : (q * kH <= kT * W)%Z).
  { apply Z.mul_le_mono_pos_l with (p := Zpos my); [lia|]. nia. }
  assert (Hqb : (q < 2 ^ (27 - e'))%Z).
  { replace (27 - e')%Z with (27 + - e')%Z by lia.
    rewrite Z.pow_add_r by lia. fold W.
    change (2 ^ 27)%Z with (2 * 2 ^ 26)%Z. nia. }
  assert (Hdq : (Zdigits2 q <= 27 - e')%Z)
    by (apply Zdigits2_bound; lia).
  assert (Hg : (e' + k <= -26)%Z).
  { subst k. unfold fexp, SpecFloat.emin, emin, prec, emax in *. lia. }
  set (g := (e' + k)%Z) in *.
  set (Wg := (2 ^ (- g))%Z).
  assert (HWg : (2 ^ 26 <= Wg)%Z)
    by (subst Wg; apply Z.pow_le_mono_r; lia).
  assert (HWk : W = (2 ^ k * Wg)%Z).
  { subst W Wg. rewrite <- Z.pow_add_r by lia. f_equal. lia. }
  assert (HA' : (Zpos mx * 2 ^ (a - e') * kH
                 = Zpos my * kT * (2 ^ k * Wg))%Z)
    by (rewrite <- HWk; exact HA).
  assert (HP : (0 < 2 ^ k)%Z) by (apply Z.pow_pos_nonneg; lia).
  destruct (@quotient_bounds (Zpos mx * 2 ^ (a - e')) (Zpos my) q r
              kT kH N (2 ^ k) Wg m1 ltac:(lia) Hdiv Hr HA' HP
              ltac:(lia) ltac:(lia) HN Hm1 Hq) as [Hlo Hhi].
  assert (Hhi' : (m1 <= N * Wg)%Z).
  { destruct Hhi as [|[E1 [E2 E3]]]; [assumption|exfalso].
    rewrite E3, new_location_exact in Hex.
    specialize (Hex eq_refl E2). lia. }
  assert (HN0 : (1 <= N <= 2 ^ 26)%Z).
  { clear - HkT HkH HN.
    destruct (Z_le_gt_dec N 0) as [Hle|Hgt].
    - assert (N * kH <= 0)%Z by (apply Z.mul_nonpos_nonneg; lia). lia.
    - assert ((N - 1) * 1 <= (N - 1) * kH)%Z
        by (apply Z.mul_le_mono_nonneg_l; lia).
      lia. }
  assert (HNW : (0 <= (N - 1) * Wg)%Z)
    by (apply Z.mul_nonneg_nonneg; lia).
  destruct Hres as [[H0 _]|[mf [ef [Hef [Hmf Hr']]]]]; [lia|].
  cbn [SFdiv xorb]. rewrite Ecore, Hr'.
  assert (Hefb : (ef <= 26)%Z).
  { assert (H1 : (2 ^ (ef - g) <= 2 ^ (26 - g))%Z).
    { replace (26 - g)%Z with (26 + - g)%Z by lia.
      rewrite (Z.pow_add_r 2 26) by lia. fold Wg.
      assert (1 * 2 ^ (ef - g) <= Zpos mf * 2 ^ (ef - g))%Z
        by (apply Z.mul_le_mono_nonneg_r; [apply Z.pow_nonneg|]; lia).
      assert (N * Wg <= 2 ^ 26 * Wg)%Z
        by (apply Z.mul_le_mono_nonneg_r; lia).
      lia. }
    apply Z.pow_le_mono_r_iff in H1; lia. }
  destruct (Z.leb_spec ef (emax - prec)) as [_|Hbig];
    [|unfold emax, prec in Hbig; lia].
  exists mf, ef. split; [reflexivity|].
  assert (Hv : inject_Z (Zpos mf) * Py.Qpow2 ef * inject_Z Wg
               == inject_Z m1).
  { rewrite <- Hmf, inject_Z_mult. subst Wg.
    rewrite <- !Qpow2_Z by lia.
    rewrite <- !Qmult_assoc, <- !Qpow2_plus.
    replace (ef + - g)%Z with (ef - g)%Z by lia. reflexivity. }
  assert (HWq : 0 < inject_Z Wg).
  { change 0 with (inject_Z 0). rewrite <- Zlt_Qlt. lia. }
  split.
  - apply Qmult_lt_r with (z := inject_Z Wg); [exact HWq|].
    rewrite Hv, <- inject_Z_mult, <- Zlt_Qlt. exact Hlo.
  - apply Qmult_le_r with (z := inject_Z Wg); [exact HWq|].
    rewrite Hv, <- inject_Z_mult, <- Zle_Qle. exact Hhi'.
Qed.

(** *** The operations of the program on numbers of a binary lattice *)

(** A float that stands for a positive number is a finite float of
    positive sign. *)
Lemma SF2Q_positive (x : spec_float) (v : Q) :
  Py.SF2Q x = Some v -> 0 < v ->
  exists m e,
    x = S754_finite false m e /\ v == inject_Z (Zpos m) * Py.Qpow2 e.
Proof.
  destruct x as [s|s| |s m e]; try discriminate; cbn [Py.SF2Q];
    intros [= <-] H.
  - lra.
  - destruct s.
    + pose proof (finite_value_neg m e). lra.
    + exists m, e. split; reflexivity.
Qed.

(** [float(n)] is the number [n] for an int below [2 ^ 53] in size. *)
Lemma float_of_int_exact (n : Z) :
  (Z.abs n < 2 ^ prec)%Z ->
  exists v, Py.F2Q (Py.float_of_int n) = Some v /\ v == inject_Z n.
Proof.
  intros Hn. unfold Py.F2Q, Py.float_of_int.
  assert (Hv : valid_binary (binary_normalize prec emax n 0 false) = true).
  { destruct n as [|p|p]; cbn [binary_normalize]; [reflexivity| |].
    - destruct (@binary_round_small false p Hn) as [m [e [-> Hv]]]. exact Hv.
    - destruct (@binary_round_small true p Hn) as [m [e [-> Hv]]]. exact Hv. }
  rewrite (Prim2SF_SF2Prim _ Hv).
  destruct (@binary_normalize_exact n 0 n 0 Hn) as [v [Ev Hq]];
    [unfold emin, prec, emax; lia|reflexivity|].
  exists v. split; [exact Ev|]. rewrite Hq.
  change (Py.Qpow2 0) with 1. ring.
Qed.

Section LatticeOperations.

Variables x y : float.
Variables vx vy : Q.
Hypothesis Hx : Py.F2Q x = Some vx.
Hypothesis Hy : Py.F2Q y = Some vy.

Lemma add_exact (K E : Z) :
  (Z.abs K < 2 ^ prec)%Z -> (emin <= E <= 0)%Z ->
  vx + vy == inject_Z K * Py.Qpow2 E ->
  exists v, Py.F2Q (x + y)%float = Some v /\ v == vx + vy.
Proof.
  intros HK HE H. unfold Py.F2Q in *. rewrite add_spec.
  exact (SFadd_exact _ _ Hx Hy HK HE H).
Qed.

Lemma sub_exact (K E : Z) :
  (Z.abs K < 2 ^ prec)%Z -> (emin <= E <= 0)%Z ->
  vx - vy == inject_Z K * Py.Qpow2 E ->
  exists v, Py.F2Q (x - y)%float = Some v /\ v == vx - vy.
Proof.
  intros HK HE H. unfold Py.F2Q in *. rewrite sub_spec.
  exact (SFsub_exact _ _ Hx Hy HK HE H).
Qed.

Lemma mul_exact (K E : Z) :
  (Z.abs K < 2 ^ prec)%Z -> (emin <= E <= 0)%Z ->
  vx * vy == inject_Z K * Py.Qpow2 E ->
  exists v, Py.F2Q (x * y)%float = Some v /\ v == vx * vy.
Proof.
  intros HK HE H. unfold Py.F2Q in *. rewrite mul_spec.
  exact (SFmul_exact _ _ Hx Hy HK HE H).
Qed.

Lemma div_exact (K E : Z) :
  0 < vx -> 0 < vy ->
  (0 < K < 2 ^ prec)%Z -> (emin <= E <= 0)%Z ->
  vx == inject_Z K * Py.Qpow2 E * vy ->
  exists v, Py.F2Q (x / y)%float = Some v /\ v == inject_Z K * Py.Qpow2 E.
Proof.
  intros Hpx Hpy HK HE H. unfold Py.F2Q in *. rewrite div_spec.
  destruct (SF2Q_positive _ Hx Hpx) as [mx [ex [-> Ex]]].
  destruct (SF2Q_positive _ Hy Hpy) as [my [ey [-> Ey]]].
  destruct (@SFdiv_exact mx my ex ey K E HK HE) as [mf [ef [Ed Hv]]].
  { now rewrite <- Ex, <- Ey. }
  unfold SF64div. rewrite Ed. eexists. split; [reflexivity|exact Hv].
Qed.

(** The ceiling of the computed quotient of two positive numbers of a
    common lattice is the ceiling of their exact quotient. *)
Lemma ceil_div_exact (kT kH G N : Z) :
  vx == inject_Z kT * Py.Qpow2 G -> vy == inject_Z kH * Py.Qpow2 G ->
  (0 < kT <= 2 ^ 26)%Z -> (0 < kH <= 2 ^ 26)%Z ->
  ((N - 1) * kH < kT <= N * kH)%Z ->
  Py.truediv x y = inr (x / y)%float /\ Py.ceil (x / y)%float = inr N.
Proof.
  intros Ex Ey HkT HkH HN.
  pose proof (Qpow2_pos G) as HG.
  assert (Hpx : 0 < vx).
  { rewrite Ex. apply Qmult_lt_0_compat; [|exact HG].
    change 0 with (inject_Z 0). rewrite <- Zlt_Qlt. lia. }
  assert (Hpy : 0 < vy).
  { rewrite Ey. apply Qmult_lt_0_compat; [|exact HG].
    change 0 with (inject_Z 0). rewrite <- Zlt_Qlt. lia. }
  unfold Py.F2Q in *.
  destruct (SF2Q_positive _ Hx Hpx) as [mx [ex [Sx Vx]]].
  destruct (SF2Q_positive _ Hy Hpy) as [my [ey [Sy Vy]]].
  split.
  - unfold Py.truediv. rewrite eqb_spec, Sy. reflexivity.
  - destruct (@SFdiv_ceiling mx my ex ey kT kH G N) as [mf [ef [Ed [Hlo Hhi]]]];
      try assumption.
    { now rewrite <- Vx. }
    { now rewrite <- Vy. }
    unfold Py.ceil. rewrite div_spec, Sx, Sy. unfold SF64div. rewrite Ed.
    cbn [Py.SF2Q cond_Zopp]. f_equal.
    set (q := inject_Z (Zpos mf) * Py.Qpow2 ef) in *.
    apply Z.le_antisymm.
    + rewrite <- (Qceiling_Z N). now apply Qceiling_resp_le.
    + pose proof (Qle_ceiling q) as Hc.
      assert (Hlt : inject_Z (N - 1) < inject_Z (Qceiling q))
        by (eapply Qlt_le_trans; eassumption).
      rewrite <- Zlt_Qlt in Hlt. lia.
Qed.

End LatticeOperations.

(** The absolute value of a float that stands for a positive number is
    that number. *)
Lemma abs_exact (x : float) (v : Q) :
  Py.F2Q x = Some v -> 0 < v -> Py.F2Q (PrimFloat.abs x) = Some v.
Proof.
  intros Hx Hp. unfold Py.F2Q in *. rewrite abs_spec.
  destruct (Prim2SF x) as [s|s| |s m e]; try discriminate;
    cbn [Py.SF2Q SFabs] in *.
  - exact Hx.
  - injection Hx as <-. destruct s; [|reflexivity].
    pose proof (finite_value_neg m e). lra.
Qed.

(** *** Requests on a binary lattice *)

Lemma lattice_number_spec (g : Z) (q : Q) :
  lattice_number g q = true ->
  exists k, (Z.abs k <= 2 ^ 25)%Z /\ q == inject_Z k * Py.Qpow2 (- g).
Proof.
  unfold lattice_number. rewrite andb_true_iff, Qeq_bool_iff, Z.leb_le.
  intros [E Hk]. exists (Qfloor (q * Py.Qpow2 g)). split; [exact Hk|].
  rewrite E.
  assert (H1 : Py.Qpow2 g * Py.Qpow2 (- g) == 1).
  { rewrite <- Qpow2_plus. now replace (g + - g)%Z with 0%Z by lia. }
  rewrite <- Qmult_assoc, H1. ring.
Qed.

(** Numbers of the lattice compare as their step counts do. *)
Lemma lattice_lt (a b E : Z) :
  inject_Z a * Py.Qpow2 E < inject_Z b * Py.Qpow2 E -> (a < b)%Z.
Proof.
  intros H. apply Qmult_lt_r in H; [|apply Qpow2_pos]. now rewrite Zlt_Qlt.
Qed.

Lemma lattice_eq (a b E : Z) :
  inject_Z a * Py.Qpow2 E == inject_Z b * Py.Qpow2 E -> a = b.
Proof.
  intros H. apply Qmult_inj_r in H;
    [|apply Qnot_eq_sym, Qlt_not_eq, Qpow2_pos].
  now apply inject_Z_injective.
Qed.

(** Step counts met along a row or a column stay far below [2 ^ 53]. *)
Lemma lattice_steps (k kw i j : Z) :
  (0 < kw)%Z -> (0 <= i < j)%Z -> (Z.abs k <= 2 ^ 25)%Z ->
  (j * kw <= 2 ^ 27)%Z ->
  (Z.abs i < 2 ^ prec)%Z /\ (Z.abs (i * kw) < 2 ^ prec)%Z
  /\ (Z.abs (k + i * kw) < 2 ^ prec)%Z
  /\ (Z.abs (k + i * kw + kw) < 2 ^ prec)%Z.
Proof.
  intros Hkw Hi Hk Hj.
  assert (H0 : (0 <= i * kw)%Z) by (apply Z.mul_nonneg_nonneg; lia).
  assert (H1 : ((i + 1) * kw <= j * kw)%Z)
    by (apply Z.mul_le_mono_nonneg_r; lia).
  assert (H2 : (i * 1 <= i * kw)%Z)
    by (apply Z.mul_le_mono_nonneg_l; lia).
  change (2 ^ 25)%Z with 33554432%Z in *.
  change (2 ^ 27)%Z with 134217728%Z in *.
  change (2 ^ prec)%Z with 9007199254740992%Z.
  lia.
Qed.

(** The bounds [x0 + i * w] and [x0 + i * w + w] of a cell, for [x0] and
    [w] on a lattice and a step count that stays below [2 ^ 53]. *)
Lemma lattice_cell (x0 wd : float) (vx vw : Q) (k kw i E : Z) :
  Py.F2Q x0 = Some vx -> Py.F2Q wd = Some vw ->
  vx == inject_Z k * Py.Qpow2 E -> vw == inject_Z kw * Py.Qpow2 E ->
  (emin <= E <= 0)%Z ->
  (Z.abs i < 2 ^ prec)%Z -> (Z.abs (i * kw) < 2 ^ prec)%Z ->
  (Z.abs (k + i * kw) < 2 ^ prec)%Z ->
  (Z.abs (k + i * kw + kw) < 2 ^ prec)%Z ->
  exists lo hi,
    Py.F2Q (x0 + Py.mul_int i wd)%float = Some lo
    /\ Py.F2Q (x0 + Py.mul_int i wd + wd)%float = Some hi
    /\ lo == vx + inject_Z i * vw
    /\ hi == vx + inject_Z i * vw + vw.
Proof.
  intros Hx Hw Ex Ew HE Hi Hik H1 H2.
  destruct (@float_of_int_exact i Hi) as [vi [Fi Ei]].
  unfold Py.mul_int.
  destruct (@mul_exact _ _ _ _ Fi Hw (i * kw) E Hik HE) as [vm [Fm Em]].
  { rewrite Ei, Ew, inject_Z_mult. ring. }
  destruct (@add_exact _ _ _ _ Hx Fm (k + i * kw) E H1 HE) as [lo [Flo Elo]].
  { rewrite Em, Ei, Ex, Ew, inject_Z_plus, inject_Z_mult. ring. }
  destruct (@add_exact _ _ _ _ Flo Hw (k + i * kw + kw) E H2 HE)
    as [hi [Fhi Ehi]].
  { rewrite Elo, Em, Ei, Ex, Ew, !inject_Z_plus, inject_Z_mult. ring. }
  exists lo, hi. split; [exact Flo|]. split; [exact Fhi|].
  split.
  - rewrite Elo, Em, Ei. reflexivity.
  - rewrite Ehi, Elo, Em, Ei. reflexivity.
Qed.

(** A valid request on a binary lattice is computed without rounding. *)
Lemma lattice_exact_run (g : Z) (bbox : QgsRectangle) (num_columns : Z) :
  valid_request bbox num_columns ->
  lattice_request g bbox num_columns = true ->
  exact_run bbox num_columns = true.
Proof.
  unfold valid_request, lattice_request, exact_run.
  destruct (rect_value bbox) as [B|] eqn:EB; [|tauto].
  intros [Hx [Hy Hn]].
  rewrite !andb_true_iff, !Z.leb_le.
  intros [[Hg0 Hg1] [[[[La Lc] Lb] Ld] Lw]].
  apply lattice_number_spec in La, Lc, Lb, Ld, Lw.
  destruct La as [a [Ha Ea]], Lc as [c [Hc Ec]], Lb as [b [Hb Eb]],
    Ld as [d [Hd Ed]], Lw as [kw [Hkw Ew]].
  unfold rect_value in EB.
  destruct (Py.F2Q (xMinimum bbox)) as [xa|] eqn:Fa; [|discriminate].
  destruct (Py.F2Q (yMinimum bbox)) as [yc|] eqn:Fc; [|discriminate].
  destruct (Py.F2Q (xMaximum bbox)) as [xb|] eqn:Fb; [|discriminate].
  destruct (Py.F2Q (yMaximum bbox)) as [yd|] eqn:Fd; [|discriminate].
  injection EB as <-. cbn [qx_min qy_min qx_max qy_max] in *.
  set (E := (- g)%Z) in *.
  assert (HE : (emin <= E <= 0)%Z)
    by (unfold emin, prec, emax; subst E; lia).
  pose proof (Qpow2_pos E) as HpE.
  assert (Hab : (a < b)%Z).
  { apply lattice_lt with (E := E). now rewrite <- Ea, <- Eb. }
  assert (Hcd : (c < d)%Z).
  { apply lattice_lt with (E := E). now rewrite <- Ec, <- Ed. }
  assert (Hn0 : 0 < inject_Z num_columns).
  { change 0 with (inject_Z 0). rewrite <- Zlt_Qlt. lia. }
  assert (Hnk : (b - a = num_columns * kw)%Z).
  { apply lattice_eq with (E := E).
    rewrite inject_Z_mult. unfold Z.sub.
    rewrite inject_Z_plus, inject_Z_opp.
    rewrite <- Qmult_assoc, <- Ew, Qmult_plus_distr_l.
    setoid_replace (- inject_Z a * Py.Qpow2 E)
      with (- (inject_Z a * Py.Qpow2 E)) by ring.
    rewrite <- Ea, <- Eb. field. lra. }
  assert (Hkw0 : (0 < kw)%Z) by nia.
  assert (Hkw1 : (kw <= b - a)%Z) by nia.
  assert (Hn1 : (num_columns <= b - a)%Z) by nia.
  assert (P25 : (2 ^ 25 = 33554432)%Z) by reflexivity.
  assert (P27 : (2 ^ 27 = 134217728)%Z) by reflexivity.
  assert (P26 : (2 ^ 26 = 67108864)%Z) by reflexivity.
  assert (P53 : (2 ^ prec = 9007199254740992)%Z) by reflexivity.
  (* the width *)
  rewrite (@widthDegrees_defined bbox num_columns) by lia.
  destruct (@sub_exact _ _ _ _ Fb Fa (b - a) E) as [vd [Fdx Edx]];
    [lia|exact HE| |].
  { rewrite Ea, Eb. unfold Z.sub. rewrite inject_Z_plus, inject_Z_opp. ring. }
  destruct (@float_of_int_exact num_columns) as [vn [Fn En]]; [lia|].
  destruct (@div_exact _ _ _ _ Fdx Fn kw E) as [w [Fw Ewd]];
    [lra|lra|lia|exact HE| |].
  { rewrite Edx, En, Ea, Eb.
    setoid_replace (inject_Z b * Py.Qpow2 E - inject_Z a * Py.Qpow2 E)
      with (inject_Z (b - a) * Py.Qpow2 E)
      by (unfold Z.sub; rewrite inject_Z_plus, inject_Z_opp; ring).
    rewrite Hnk, inject_Z_mult. ring. }
  set (wd := ((xMaximum bbox - xMinimum bbox)
              / Py.float_of_int num_columns)%float) in *.
  assert (Hw0 : 0 < w).
  { rewrite Ewd. apply Qmult_lt_0_compat; [|exact HpE].
    change 0 with (inject_Z 0). rewrite <- Zlt_Qlt. lia. }
  assert (Ew' : (xb - xa) / inject_Z num_columns == w) by now rewrite Ew, Ewd.
  assert (Eh : Qabs ((xb - xa) / inject_Z num_columns) == w).
  { rewrite Ew'. apply Qabs_pos. lra. }
  pose proof (@abs_exact wd w Fw Hw0) as Fh.
  fold (heightDegrees wd) in Fh.
  (* the number of rows *)
  destruct (@sub_exact _ _ _ _ Fd Fc (d - c) E) as [vt [Ft Et]];
    [lia|exact HE| |].
  { rewrite Ec, Ed. unfold Z.sub. rewrite inject_Z_plus, inject_Z_opp. ring. }
  assert (Et' : vt == inject_Z (d - c) * Py.Qpow2 E).
  { rewrite Et, Ec, Ed. unfold Z.sub.
    rewrite inject_Z_plus, inject_Z_opp. ring. }
  set (N := ((d - c + kw - 1) / kw)%Z).
  assert (HN : ((N - 1) * kw < d - c <= N * kw)%Z).
  { pose proof (Z.div_mod (d - c + kw - 1) kw ltac:(lia)) as Hdm.
    pose proof (Z.mod_pos_bound (d - c + kw - 1) kw Hkw0) as Hmb.
    fold N in Hdm. nia. }
  destruct (@ceil_div_exact _ _ _ _ Ft Fh (d - c) kw E N Et' Ewd)
    as [Htd Hceil]; [lia|lia|exact HN|].
  assert (Hrows : numRows bbox (heightDegrees wd) = inr N).
  { unfold numRows. rewrite Htd. exact Hceil. }
  rewrite Hrows. cbv zeta.
  assert (HN1 : (1 <= N)%Z) by nia.
  rewrite !andb_true_iff, !forallb_forall, Z.eqb_eq.
  repeat split.
  - apply exactly_spec. exists w. split; [exact Fw|now symmetry].
  - apply exactly_spec. exists w. split; [exact Fh|now symmetry].
  - symmetry. apply Z.le_antisymm.
    + rewrite <- (Qceiling_Z N). apply Qceiling_resp_le.
      rewrite Eh. apply Qle_shift_div_r; [exact Hw0|].
      rewrite <- Et, Et', Ewd, Qmult_assoc, <- inject_Z_mult.
      apply Qmult_le_compat_r; [|lra]. rewrite <- Zle_Qle. lia.
    + pose proof (Qle_ceiling ((yd - yc) / Qabs ((xb - xa)
                                / inject_Z num_columns))) as Hc'.
      assert (Hlt : inject_Z (N - 1)
                    < (yd - yc) / Qabs ((xb - xa) / inject_Z num_columns)).
      { rewrite Eh. apply Qlt_shift_div_l; [exact Hw0|].
        rewrite <- Et, Et', Ewd, Qmult_assoc, <- inject_Z_mult.
        apply Qmult_lt_compat_r; [exact HpE|]. rewrite <- Zlt_Qlt. lia. }
      assert (Hlt' : inject_Z (N - 1)
                     < inject_Z (Qceiling ((yd - yc) / Qabs ((xb - xa)
                                  / inject_Z num_columns))))
        by (eapply Qlt_le_trans; eassumption).
      rewrite <- Zlt_Qlt in Hlt'. lia.
  - intros col Hcol. apply range_In in Hcol.
    destruct (@lattice_steps a kw col num_columns)
      as [B1 [B2 [B3 B4]]]; [lia|lia|exact Ha|rewrite <- Hnk; lia|].
    destruct (@lattice_cell (xMinimum bbox) wd xa w a kw col E Fa Fw Ea Ewd HE
                B1 B2 B3 B4)
      as [lo [hi [Flo [Fhi [Elo Ehi]]]]].
    apply andb_true_iff. split; apply exactly_spec.
    + exists lo. split; [exact Flo|]. now rewrite Elo, Ew'.
    + exists hi. split; [exact Fhi|]. now rewrite Ehi, Ew'.
  - intros row Hrow. apply range_In in Hrow.
    destruct (@lattice_steps c kw row N)
      as [B1 [B2 [B3 B4]]]; [lia|lia|exact Hc|lia|].
    destruct (@lattice_cell (yMinimum bbox) (heightDegrees wd) yc w c kw row E
                Fc Fh Ec Ewd HE B1 B2 B3 B4)
      as [lo [hi [Flo [Fhi [Elo Ehi]]]]].
    apply andb_true_iff. split; apply exactly_spec.
    + exists lo. split; [exact Flo|]. now rewrite Elo, Eh.
    + exists hi. split; [exact Fhi|]. now rewrite Ehi, Eh.
Qed.

(** ** The outcome of a pass *)

(** Line 143 can only stop with one of the three arithmetic exceptions. *)
Lemma numRows_raises (bbox : QgsRectangle) (h : float) (e : Py.exn) :
  numRows bbox h = inl e ->
  e = Py.ZeroDivisionError \/ e = Py.OverflowError \/ e = Py.ValueError.
Proof.
  unfold numRows, Py.truediv, Py.ceil.
  destruct (PrimFloat.eqb h PrimFloat.zero); [intros [= <-]; auto|].
  destruct (Prim2SF _) as [s|s| |s m e']; cbn [Py.SF2Q];
    intros [= <-]; auto.
Qed.

Section PassOutcome.

Variable measureLine : QgsPointXY -> QgsPointXY -> float.
Variable isCanceled : nat -> bool.
Variable fields : QgsFields.
Variable num_columns : Z.

Local Abbreviation run := (partition measureLine isCanceled fields num_columns).

(** The two ways a pass that is not cancelled can end once the width is
    computed: line 143 raises and nothing is written, or it yields the
    number of rows and the grid of that many rows is written. *)
Lemma partition_outcome (bbox : QgsRectangle) (polls : nat) :
  num_columns <> 0%Z ->
  never_canceled isCanceled ->
  let width_degrees :=
    ((xMaximum bbox - xMinimum bbox)
     / Py.float_of_int num_columns)%float in
  match numRows bbox (PrimFloat.abs width_degrees) with
  | inl e =>
      sink (fst (run bbox polls)) = [] /\ snd (run bbox polls) = inl e
  | inr num_rows =>
      sink (fst (run bbox polls))
      = grid_cells fields num_columns (xMinimum bbox) (yMinimum bbox)
                   width_degrees (PrimFloat.abs width_degrees) num_rows
      /\ snd (run bbox polls) = inr (polls + Z.to_nat num_rows)%nat
  end.
Proof.
  intros Hn Hc w.
  pose proof (@widthDegrees_defined bbox num_columns Hn) as Hw. fold w in Hw.
  change (PrimFloat.abs w) with (heightDegrees w).
  destruct (numRows bbox (heightDegrees w)) as [e|nr] eqn:Hr.
  - unfold partition. rewrite Hw.
    destruct (measured_points bbox w) as [p q]. rewrite Hr.
    split; reflexivity.
  - exact (@partition_run measureLine isCanceled fields num_columns
             bbox polls w nr Hw Hr Hc).
Qed.

End PassOutcome.

(** A quotient of something not positive by a float of positive sign is
    not positive. *)
Lemma SFdiv_nonpositive_by_positive (x y : spec_float) :
  nonpositive x -> signed false y -> nonpositive (SFdiv prec emax x y).
Proof.
  intros Hx Hy.
  destruct x as [sx|sx| |sx mx ex], y as [sy|sy| |sy my ey];
    cbn [nonpositive signed] in Hx, Hy; subst;
    cbn [SFdiv xorb nonpositive]; try exact I; try reflexivity.
  destruct (SFdiv_core_binary prec emax (Zpos mx) ex (Zpos my) ey)
    as [[mz ez] lz].
  apply signed_true_nonpositive, binary_round_aux_signed.
Qed.

Lemma float_of_int_positive (n : Z) :
  (1 <= n < 2 ^ prec)%Z -> signed false (Prim2SF (Py.float_of_int n)).
Proof.
  intros Hn. unfold Py.float_of_int.
  destruct n as [|p|p]; try lia. cbn [binary_normalize].
  destruct (@binary_round_small false p ltac:(lia)) as [m [e [-> Hv]]].
  now rewrite (Prim2SF_SF2Prim _ Hv).
Qed.

(** The width computed for a box with [xMax <= xMin] is not positive. *)
Lemma width_nonpositive (bbox : QgsRectangle) (num_columns : Z) (a b : Q) :
  Py.F2Q (xMinimum bbox) = Some a -> Py.F2Q (xMaximum bbox) = Some b ->
  b <= a -> (1 <= num_columns < 2 ^ prec)%Z ->
  nonpositive (Prim2SF ((xMaximum bbox - xMinimum bbox)
                        / Py.float_of_int num_columns)%float).
Proof.
  intros Ha Hb Hab Hn. rewrite div_spec, sub_spec.
  apply SFdiv_nonpositive_by_positive.
  - exact (SFsub_nonpositive _ _ Hb Ha Hab).
  - now apply float_of_int_positive.
Qed.

(** ** Properties of the specification *)

(** C1, as stated, does not hold: the box (0,0)-(2^-1074,1) cut into two
    columns is a valid request, but its computed width is the double 0.0,
    so numRows has no value: line 143 stops with a division by zero after
    the distance calculator has been called, and no cell is written. *)
Lemma C1_counterexample :
  valid_request sliver_bbox 2
  /\ widthDegrees sliver_bbox 2 = inr 0%float
  /\ numRows sliver_bbox (PrimFloat.abs 0) = inl Py.ZeroDivisionError
  /\ partition no_measure no_cancel (output_fields demo_source) 2
               sliver_bbox 0
     = ([MeasureLine (mkPoint 0 0.5) (mkPoint 0 0.5)],
        inl Py.ZeroDivisionError).
Proof.
  split; [vm_compute; repeat split; discriminate|].
  repeat split; reflexivity.
Qed.

(** C1, amended: for every valid request (run not cancelled), with
    widthDegrees = (xMax - xMin) / numColumns and heightDegrees =
    abs(widthDegrees) as computed in double arithmetic, either the
    computation of numRows = ceil((yMax - yMin) / heightDegrees) raises
    (ZeroDivisionError, OverflowError or ValueError), and then the run
    ends with that exception and no cell is written; or it yields numRows,
    and then the run ends normally, writes exactly numRows * numColumns
    cells, and the cell with 1-based indices (row, col) has cellXMin =
    xMin + (col-1) * widthDegrees, cellXMax = cellXMin + widthDegrees,
    cellYMin = yMin + (row-1) * heightDegrees, cellYMax = cellYMin +
    heightDegrees. *)
Theorem C1_grid_bounds :
  forall (measureLine : QgsPointXY -> QgsPointXY -> float)
         (isCanceled : nat -> bool) (source : FeatureSource)
         (bbox : QgsRectangle) (num_columns : Z) (polls : nat),
    valid_request bbox num_columns ->
    never_canceled isCanceled ->
    let width_degrees :=
      ((xMaximum bbox - xMinimum bbox)
       / Py.float_of_int num_columns)%float in
    let height_degrees := PrimFloat.abs width_degrees in
    let run :=
      partition measureLine isCanceled (output_fields source)
                num_columns bbox polls in
    let cells := sink (fst run) in
    match numRows bbox height_degrees with
    | inl e =>
        (e = Py.ZeroDivisionError \/ e = Py.OverflowError
         \/ e = Py.ValueError)
        /\ snd run = inl e
        /\ cells = []
    | inr num_rows =>
        Py.ceil ((yMaximum bbox - yMinimum bbox) / height_degrees)%float
        = inr num_rows
        /\ snd run = inr (polls + Z.to_nat num_rows)%nat
        /\ List.length cells = Z.to_nat (num_rows * num_columns)
        /\ forall row col : Z,
             (1 <= row <= num_rows)%Z -> (1 <= col <= num_columns)%Z ->
             exists f,
               nth_error cells
                         (Z.to_nat ((row - 1) * num_columns + (col - 1)))
               = Some f
               /\ attr f "row" = Some (VInt row)
               /\ attr f "col" = Some (VInt col)
               /\ let cellXMin :=
                    (xMinimum bbox
                     + Py.mul_int (col - 1) width_degrees)%float in
                  let cellYMin :=
                    (yMinimum bbox
                     + Py.mul_int (row - 1) height_degrees)%float in
                  geometry f
                  = mkRect cellXMin cellYMin
                           (cellXMin + width_degrees)%float
                           (cellYMin + height_degrees)%float
    end.
Proof.
  intros measureLine isCanceled source bbox n polls Hv Hc w h run cells.
  pose proof (valid_request_columns _ _ Hv) as Hn.
  pose proof (@partition_outcome measureLine isCanceled
                (output_fields source) n bbox polls ltac:(lia) Hc) as Ho.
  cbv zeta in Ho. fold w h run in Ho. fold cells in Ho.
  destruct (numRows bbox h) as [e|nr] eqn:Hr.
  - destruct Ho as [Hs He].
    split; [exact (numRows_raises _ _ Hr)|]. split; assumption.
  - destruct Ho as [Hsink Hend]. rewrite Hsink.
    split; [now apply numRows_value|].
    split; [exact Hend|].
    split; [apply grid_cells_length; lia|].
    intros row col Hrow Hcol.
    exists (make_feature (output_fields source) (xMinimum bbox)
                         (yMinimum bbox) w h (row - 1) (col - 1)
                         (1 + (row - 1) * n + (col - 1))%Z).
    split; [apply grid_cells_nth; lia|].
    rewrite !attr_make_feature.
    rewrite !output_fields_new by (simpl; tauto).
    cbn [attrs get String.eqb Ascii.eqb Bool.eqb].
    repeat split; do 2 f_equal; lia.
Qed.

Lemma C1_grid_bounds_witness :
  valid_request demo_bbox 2
  /\ List.length
       (sink (fst (partition no_measure no_cancel (output_fields demo_source)
                             2 demo_bbox 0)))
     = 2%nat.
Proof.
  assert (Hv : valid_request demo_bbox 2)
    by (vm_compute; repeat split; discriminate).
  split; [exact Hv|].
  exact (proj1 (proj2 (proj2
    (@C1_grid_bounds no_measure no_cancel demo_source demo_bbox 2 0%nat
       Hv (fun k => eq_refl))))).
Defined.

(** C2, as stated, does not hold: the box (0,0)-(10,0) has yMax <= yMin,
    and the pass over it ends normally (with no row, hence no cell); no
    exception is raised. *)
Lemma C2_counterexample :
  ~ partition_fails
      (partition no_measure no_cancel (output_fields demo_source)
                 2 flat_bbox 0).
Proof. intros [e H]. discriminate H. Qed.

(** C2, amended: the pass has no argument check of its own and no
    InvalidArgument error.  With numColumns = 0 it stops with
    ZeroDivisionError before anything else happens; with numColumns < 1
    it writes no cell; on a box with xMax = xMin it stops before any cell
    is computed and writes none, the error being ZeroDivisionError (the
    division by the zero height) for every numColumns a C int can hold;
    on a box with yMax <= yMin it writes no cell (and may end normally).
    A box with xMax < xMin is not refused as such: for numColumns >= 1
    (below 2^53) the computed width is not positive and the pass goes on
    as for any other box, so that, when not cancelled, it either stops at
    line 143 with that line's exception and no cell, or ends normally
    with numRows * numColumns cells; the box (10,0)-(0,4) with 2 columns
    gets 2 cells. *)
Theorem C2_degenerate_requests :
  forall (measureLine : QgsPointXY -> QgsPointXY -> float)
         (isCanceled : nat -> bool) (fields : QgsFields)
         (bbox : QgsRectangle) (num_columns : Z) (polls : nat),
    let run := partition measureLine isCanceled fields num_columns
                         bbox polls in
    (num_columns = 0%Z -> run = ([], inl Py.ZeroDivisionError))
    /\ ((num_columns < 1)%Z -> sink (fst run) = [])
    /\ (forall a b : Q,
           Py.F2Q (xMinimum bbox) = Some a ->
           Py.F2Q (xMaximum bbox) = Some b ->
           b == a ->
           sink (fst run) = []
           /\ partition_fails run
           /\ ((Z.abs num_columns < 2 ^ 53)%Z ->
               snd run = inl Py.ZeroDivisionError))
    /\ (forall c d : Q,
           Py.F2Q (yMinimum bbox) = Some c ->
           Py.F2Q (yMaximum bbox) = Some d ->
           d <= c ->
           sink (fst run) = [])
    /\ (forall a b : Q,
           Py.F2Q (xMinimum bbox) = Some a ->
           Py.F2Q (xMaximum bbox) = Some b ->
           b < a ->
           (1 <= num_columns < 2 ^ 53)%Z ->
           never_canceled isCanceled ->
           let width_degrees :=
             ((xMaximum bbox - xMinimum bbox)
              / Py.float_of_int num_columns)%float in
           nonpositive (Prim2SF width_degrees)
           /\ match numRows bbox (PrimFloat.abs width_degrees) with
              | inl e => snd run = inl e /\ sink (fst run) = []
              | inr num_rows =>
                  snd run = inr (polls + Z.to_nat num_rows)%nat
                  /\ List.length (sink (fst run))
                     = Z.to_nat (num_rows * num_columns)
              end)
    /\ List.length
         (sink (fst (partition measureLine no_cancel fields 2
                               mirrored_bbox polls)))
       = 2%nat.
Proof.
  intros measureLine isCanceled fields bbox n polls run.
  split; [|split; [|split; [|split; [|split]]]].
  - intros ->. reflexivity.
  - intros Hn. apply sink_nil_intro. intros f Hf.
    apply partition_sink in Hf.
    destruct Hf as [w [nr [row [col [cid [_ [_ [_ [Hcol _]]]]]]]]]. lia.
  - intros a b Ha Hb Hab. subst run. unfold partition_fails, partition.
    destruct (widthDegrees bbox n) as [e|w] eqn:Hw.
    + split; [reflexivity|]. split; [now exists e|]. intros _.
      unfold widthDegrees, Py.truediv_int in Hw.
      destruct (n =? 0)%Z; [|discriminate Hw]. now injection Hw as <-.
    + destruct (measured_points bbox w) as [p q].
      destruct (numRows_thin_box bbox n Ha Hb Hab Hw) as [e [He Hz]].
      rewrite He. split; [reflexivity|]. split; [now exists e|].
      intros Hbound. cbn [snd]. f_equal. now apply Hz.
  - intros c d Hc Hd Hle. apply sink_nil_intro. intros f Hf.
    apply partition_sink in Hf.
    destruct Hf as [w [nr [row [col [cid [_ [Hnr [Hrow _]]]]]]]].
    pose proof (numRows_flat_box bbox w Hc Hd Hle Hnr). lia.
  - intros a b Ha Hb Hab Hn Hc w.
    split.
    { apply (width_nonpositive bbox Ha Hb); [now apply Qlt_le_weak|].
      exact Hn. }
    pose proof (@partition_outcome measureLine isCanceled fields n bbox
                  polls ltac:(lia) Hc) as Ho.
    cbv zeta in Ho. fold w run in Ho.
    destruct (numRows bbox (PrimFloat.abs w)) as [e|nr].
    + destruct Ho as [Hs He]. split; assumption.
    + destruct Ho as [Hs He]. split; [exact He|].
      rewrite Hs. apply grid_cells_length. lia.
  - rewrite (proj1 (@partition_run measureLine no_cancel fields 2
                      mirrored_bbox polls (-5)%float 1 eq_refl eq_refl
                      (fun k => eq_refl))).
    now rewrite grid_cells_length.
Qed.

Lemma C2_degenerate_requests_witness :
  sink (fst (partition no_measure no_cancel (output_fields demo_source)
                       2 flat_bbox 0)) = []
  /\ List.length
       (sink (fst (partition no_measure no_cancel (output_fields demo_source)
                             2 mirrored_bbox 0))) = 2%nat.
Proof.
  assert (H : 0 <= 0) by discriminate.
  assert (Hn : (1 <= 2 < 2 ^ 53)%Z) by (split; [discriminate|reflexivity]).
  split.
  - exact (proj1 (proj2 (proj2 (proj2
      (@C2_degenerate_requests no_measure no_cancel
         (output_fields demo_source) flat_bbox 2 0%nat))))
      0 0 eq_refl eq_refl H).
  - pose proof (@C2_degenerate_requests no_measure no_cancel
                  (output_fields demo_source) mirrored_bbox 2 0%nat) as T.
    cbv zeta in T. destruct T as [_ [_ [_ [_ [T _]]]]].
    specialize (T _ _ eq_refl eq_refl eq_refl Hn (fun k => eq_refl)).
    exact (proj2 (proj2 T
             : snd (partition no_measure no_cancel
                              (output_fields demo_source) 2 mirrored_bbox 0)
               = inr 1%nat
               /\ List.length
                    (sink (fst (partition no_measure no_cancel
                                          (output_fields demo_source) 2
                                          mirrored_bbox 0)))
                  = 2%nat)).
Defined.

(** C3, as stated, does not hold: the box (0,0)-(2^-1000, 2^1000) with
    one column is a valid request, but the quotient of its height by its
    width is beyond the doubles, numRows has no value (math.ceil raises
    OverflowError), and no cell, hence no cell_id, is emitted. *)
Lemma C3_counterexample :
  valid_request tall_bbox 1
  /\ numRows tall_bbox
       (PrimFloat.abs ((xMaximum tall_bbox - xMinimum tall_bbox)
                       / Py.float_of_int 1))
     = inl Py.OverflowError
  /\ snd (partition no_measure no_cancel (output_fields demo_source) 1
                    tall_bbox 0) = inl Py.OverflowError
  /\ sink (fst (partition no_measure no_cancel (output_fields demo_source) 1
                          tall_bbox 0)) = [].
Proof.
  split; [vm_compute; repeat split; discriminate|].
  repeat split; reflexivity.
Qed.

(** C3, amended: for every valid request (run not cancelled), the i-th
    cell written (counting from 0) has cell_id i + 1, row i / numColumns
    + 1 and column i mod numColumns + 1, so the cell_id values are 1, 2,
    ... in emission order and the order is row-major; when line 143
    yields numRows, exactly numRows * numColumns cells are written and
    the run ends normally; when line 143 raises, no cell is written and
    the run ends with that exception. *)
Theorem C3_cell_ids_row_major :
  forall (measureLine : QgsPointXY -> QgsPointXY -> float)
         (isCanceled : nat -> bool) (source : FeatureSource)
         (bbox : QgsRectangle) (num_columns : Z) (polls : nat),
    valid_request bbox num_columns ->
    never_canceled isCanceled ->
    let width_degrees :=
      ((xMaximum bbox - xMinimum bbox)
       / Py.float_of_int num_columns)%float in
    let run :=
      partition measureLine isCanceled (output_fields source)
                num_columns bbox polls in
    let cells := sink (fst run) in
    (forall i : Z,
        (0 <= i < Z.of_nat (List.length cells))%Z ->
        exists f,
          nth_error cells (Z.to_nat i) = Some f
          /\ attr f "cell_id" = Some (VInt (i + 1))
          /\ attr f "row" = Some (VInt (i / num_columns + 1))
          /\ attr f "col" = Some (VInt (i mod num_columns + 1)))
    /\ match numRows bbox (PrimFloat.abs width_degrees) with
       | inl e => cells = [] /\ snd run = inl e
       | inr num_rows =>
           List.length cells = Z.to_nat (num_rows * num_columns)
           /\ snd run = inr (polls + Z.to_nat num_rows)%nat
       end.
Proof.
  intros measureLine isCanceled source bbox n polls Hv Hc w run cells.
  pose proof (valid_request_columns _ _ Hv) as Hn.
  pose proof (@partition_outcome measureLine isCanceled
                (output_fields source) n bbox polls ltac:(lia) Hc) as Ho.
  cbv zeta in Ho. fold w run in Ho. fold cells in Ho.
  destruct (numRows bbox (PrimFloat.abs w)) as [e|nr] eqn:Hr.
  - destruct Ho as [Hs He]. split; [|split; assumption].
    intros i Hi. rewrite Hs in Hi. simpl in Hi. lia.
  - destruct Ho as [Hs He].
    assert (Hlen : List.length cells = Z.to_nat (nr * n))
      by (rewrite Hs; apply grid_cells_length; lia).
    split; [|split; assumption].
    intros i Hi. rewrite Hlen in Hi.
    assert (Hi' : (0 <= i < nr * n)%Z) by lia.
    pose proof (Z.div_mod i n ltac:(lia)) as Hdm.
    pose proof (Z.mod_pos_bound i n ltac:(lia)) as Hm.
    assert (Hd : (0 <= i / n < nr)%Z).
    { split; [apply Z.div_pos; lia|].
      apply Z.div_lt_upper_bound; [lia|]. rewrite Z.mul_comm. lia. }
    exists (make_feature (output_fields source) (xMinimum bbox)
                         (yMinimum bbox) w (PrimFloat.abs w)
                         (i / n) (i mod n) (1 + (i / n) * n + i mod n)%Z).
    split.
    + rewrite Hs. replace i with (i / n * n + i mod n)%Z at 1 by lia.
      apply grid_cells_nth; lia.
    + rewrite !attr_make_feature.
      rewrite !output_fields_new by (simpl; tauto).
      cbn [attrs get String.eqb Ascii.eqb Bool.eqb].
      repeat split; do 2 f_equal; lia.
Qed.

Lemma C3_cell_ids_row_major_witness :
  valid_request demo_bbox 2
  /\ exists f,
       nth_error
         (sink (fst (partition no_measure no_cancel
                               (output_fields demo_source) 2 demo_bbox 0)))
         1 = Some f
       /\ attr f "cell_id" = Some (VInt 2)
       /\ attr f "row" = Some (VInt 1)
       /\ attr f "col" = Some (VInt 2).
Proof.
  assert (Hv : valid_request demo_bbox 2)
    by (vm_compute; repeat split; discriminate).
  split; [exact Hv|].
  assert (Hi : (0 <= 1 < 2)%Z) by (split; [discriminate|reflexivity]).
  exact (proj1 (@C3_cell_ids_row_major no_measure no_cancel demo_source
                  demo_bbox 2 0%nat Hv (fun k => eq_refl))
               1%Z Hi).
Defined.

(** C4, as stated, does not hold: for the unit square cut into six
    columns, width_degrees is the double nearest to 1/6, six rows are
    written, the right edge of the sixth column and the top edge of the
    sixth row are 0.99999999999999989, and the point (1, 1/2) of the box
    lies in no cell. *)
Lemma C4_counterexample :
  valid_request unit_bbox 6
  /\ snd (partition no_measure no_cancel (output_fields demo_source)
                    6 unit_bbox 0) = inr 6%nat
  /\ ~ covers_input_box unit_bbox
         (sink (fst (partition no_measure no_cancel
                               (output_fields demo_source) 6 unit_bbox 0))).
Proof.
  split; [vm_compute; repeat split; discriminate|].
  split; [reflexivity|].
  intros H. specialize (H 1 (1 # 2) eq_refl).
  vm_compute in H. discriminate H.
Qed.

(** C4, amended: for every valid request on a binary lattice (for some g
    between 0 and 1000, xMin, yMin, xMax, yMax and the exact width (xMax
    - xMin) / numColumns are whole multiples of 2^-g of at most 2^25
    steps; see [lattice_request]) whose run is not cancelled, the run
    ends normally, every point of the input box lies in the bounds of
    some written cell, and every cell lies between the west and east
    edges of the box and not below its south edge, so the grid can pass
    the box only beyond yMax. *)
Theorem C4_coverage_on_lattice :
  forall (measureLine : QgsPointXY -> QgsPointXY -> float)
         (isCanceled : nat -> bool) (source : FeatureSource)
         (bbox : QgsRectangle) (num_columns : Z) (polls : nat) (g : Z),
    valid_request bbox num_columns ->
    never_canceled isCanceled ->
    lattice_request g bbox num_columns = true ->
    let run :=
      partition measureLine isCanceled (output_fields source)
                num_columns bbox polls in
    let cells := sink (fst run) in
    (exists polls', snd run = inr polls')
    /\ covers_input_box bbox cells
    /\ exists B,
         rect_value bbox = Some B
         /\ forall f, In f cells ->
              exists C,
                rect_value (geometry f) = Some C
                /\ overshoots_north_only B C.
Proof.
  intros measureLine isCanceled source bbox n polls g Hv Hc Hl run cells.
  pose proof (@lattice_exact_run g bbox n Hv Hl) as He.
  destruct (exact_run_spec _ _ Hv He)
    as (B & wd & nr & w & HB & Hwd & Hnr & Ew & Hw & Hnw & Hnr1 & Htop
        & Hcols & Hrows).
  pose proof (valid_request_columns _ _ Hv) as Hn.
  destruct (@partition_run measureLine isCanceled
              (output_fields source) n bbox polls _ _ Hwd Hnr Hc)
    as [Hsink Hend].
  subst cells run. rewrite Hsink.
  split; [eexists; exact Hend|].
  split.
  - intros x y Hin. unfold in_rect in Hin. rewrite HB in Hin.
    rewrite !andb_true_iff, !Qle_bool_iff in Hin.
    destruct Hin as [[[Hx1 Hx2] Hy1] Hy2].
    destruct (@interval_exists w (x - qx_min B) n) as [col [Hcol [Hc1 Hc2]]];
      [exact Hw|lra|lra|lia|].
    destruct (@interval_exists w (y - qy_min B) nr) as [row [Hrow [Hr1 Hr2]]];
      [exact Hw|lra|lra|lia|].
    destruct (Hcols col Hcol) as [xlo [xhi [Exlo [Exhi [Hxlo Hxhi]]]]].
    destruct (Hrows row Hrow) as [ylo [yhi [Eylo [Eyhi [Hylo Hyhi]]]]].
    unfold covered. apply existsb_exists.
    exists (make_feature (output_fields source) (xMinimum bbox)
                         (yMinimum bbox) wd (heightDegrees wd) row col
                         (1 + row * n + col)%Z).
    split.
    + eapply nth_error_In. apply grid_cells_nth; lia.
    + unfold in_rect, rect_value, make_feature.
      cbn [geometry xMinimum yMinimum xMaximum yMaximum].
      rewrite Exlo, Exhi, Eylo, Eyhi.
      cbn [qx_min qx_max qy_min qy_max].
      rewrite !andb_true_iff, !Qle_bool_iff.
      generalize dependent (inject_Z col * w).
      generalize dependent (inject_Z row * w). intros.
      repeat split; lra.
  - exists B. split; [exact HB|]. intros f Hf.
    apply grid_cells_In in Hf.
    destruct Hf as [row [col [cid [Hrow [Hcol ->]]]]].
    destruct (Hcols col Hcol) as [xlo [xhi [Exlo [Exhi [Hxlo Hxhi]]]]].
    destruct (Hrows row Hrow) as [ylo [yhi [Eylo [Eyhi [Hylo Hyhi]]]]].
    exists (mkQRect xlo ylo xhi yhi). split.
    + unfold rect_value, make_feature.
      cbn [geometry xMinimum yMinimum xMaximum yMaximum].
      now rewrite Exlo, Exhi, Eylo, Eyhi.
    + unfold overshoots_north_only. cbn [qx_min qx_max qy_min qy_max].
      pose proof (@scale_le 0 col w ltac:(lia) ltac:(lra)) as H0.
      pose proof (@scale_le (col + 1) n w ltac:(lia) ltac:(lra)) as H1.
      pose proof (@scale_le 0 row w ltac:(lia) ltac:(lra)) as H2.
      rewrite inject_Z_plus in H1.
      change (inject_Z 0) with 0 in *. change (inject_Z 1) with 1 in *.
      setoid_replace ((inject_Z col + 1) * w)
        with (inject_Z col * w + w) in H1 by ring.
      generalize dependent (inject_Z col * w).
      generalize dependent (inject_Z row * w).
      generalize dependent (inject_Z n * w). intros.
      repeat split; lra.
Qed.

Lemma C4_coverage_on_lattice_witness :
  valid_request demo_bbox 2
  /\ lattice_request 0 demo_bbox 2 = true
  /\ covers_input_box demo_bbox
       (sink (fst (partition no_measure no_cancel (output_fields demo_source)
                             2 demo_bbox 0))).
Proof.
  assert (Hv : valid_request demo_bbox 2)
    by (vm_compute; repeat split; discriminate).
  split; [exact Hv|]. split; [reflexivity|].
  exact (proj1 (proj2
    (@C4_coverage_on_lattice no_measure no_cancel demo_source
       demo_bbox 2 0%nat 0%Z Hv (fun k => eq_refl) eq_refl))).
Defined.

(** C5: for every valid request, the buffer attribute is the same value
    for every cell of the result, namely widthDegrees / 2 rounded to 6
    decimal places. *)
Theorem C5_buffer_constant :
  forall (measureLine : QgsPointXY -> QgsPointXY -> float)
         (isCanceled : nat -> bool) (source : FeatureSource)
         (bbox : QgsRectangle) (num_columns : Z) (polls : nat)
         (f : QgsFeature),
    valid_request bbox num_columns ->
    let width_degrees :=
      ((xMaximum bbox - xMinimum bbox)
       / Py.float_of_int num_columns)%float in
    In f (sink (fst (partition measureLine isCanceled (output_fields source)
                               num_columns bbox polls))) ->
    attr f "buffer"
    = Some (VDouble (Py.round6 (width_degrees / Py.float_of_int 2)%float)).
Proof.
  intros measureLine isCanceled source bbox n polls f _ w Hf.
  apply partition_sink in Hf.
  destruct Hf as [w' [nr [row [col [cid [Hw' [_ [_ [_ ->]]]]]]]]].
  apply widthDegrees_value in Hw'. subst w'.
  rewrite attr_make_feature, output_fields_new by (simpl; tauto).
  reflexivity.
Qed.

Lemma C5_buffer_constant_witness :
  valid_request demo_bbox 2
  /\ attr demo_cell "buffer" = Some (VDouble 2.5%float).
Proof.
  assert (Hv : valid_request demo_bbox 2)
    by (vm_compute; repeat split; discriminate).
  split; [exact Hv|].
  exact (@C5_buffer_constant no_measure no_cancel demo_source demo_bbox 2
           0%nat demo_cell Hv demo_cell_written).
Defined.

(** C6: for every cell of the result of a valid request, center_lon is
    (cellXMin + cellXMax) / 2 rounded to 6 decimal places and center_lat
    is (cellYMin + cellYMax) / 2 rounded to 6 decimal places: the
    midpoint of that cell's own bounds. *)
Theorem C6_center_is_midpoint :
  forall (measureLine : QgsPointXY -> QgsPointXY -> float)
         (isCanceled : nat -> bool) (source : FeatureSource)
         (bbox : QgsRectangle) (num_columns : Z) (polls : nat)
         (f : QgsFeature),
    valid_request bbox num_columns ->
    In f (sink (fst (partition measureLine isCanceled (output_fields source)
                               num_columns bbox polls))) ->
    let bounds := geometry f in
    attr f "center_lon"
    = Some (VDouble (Py.round6 ((xMinimum bounds + xMaximum bounds)
                                / Py.float_of_int 2)%float))
    /\ attr f "center_lat"
       = Some (VDouble (Py.round6 ((yMinimum bounds + yMaximum bounds)
                                   / Py.float_of_int 2)%float)).
Proof.
  intros measureLine isCanceled source bbox n polls f _ Hf.
  apply partition_sink in Hf.
  destruct Hf as [w [nr [row [col [cid [_ [_ [_ [_ ->]]]]]]]]].
  cbn zeta. rewrite !attr_make_feature.
  rewrite !output_fields_new by (simpl; tauto).
  split; reflexivity.
Qed.

Lemma C6_center_is_midpoint_witness :
  valid_request demo_bbox 2
  /\ attr demo_cell "center_lon" = Some (VDouble 2.5%float)
  /\ attr demo_cell "center_lat" = Some (VDouble 2.5%float).
Proof.
  assert (Hv : valid_request demo_bbox 2)
    by (vm_compute; repeat split; discriminate).
  split; [exact Hv|].
  exact (@C6_center_is_midpoint no_measure no_cancel demo_source demo_bbox 2
           0%nat demo_cell Hv demo_cell_written).
Defined.

(** C7: for every valid request, the distance calculator is called once,
    with the points (xMin, midLat) and (xMin + widthDegrees, midLat) where
    midLat = (yMax + yMin) / 2, and nothing the run does depends on its
    answer: with any two distance calculators the runs write the same
    cells and end the same way. *)
Theorem C7_distance_unused :
  forall (measureLine measureLine' : QgsPointXY -> QgsPointXY -> float)
         (isCanceled : nat -> bool) (source : FeatureSource)
         (bbox : QgsRectangle) (num_columns : Z) (polls : nat),
    valid_request bbox num_columns ->
    let width_degrees :=
      ((xMaximum bbox - xMinimum bbox)
       / Py.float_of_int num_columns)%float in
    let run := partition measureLine isCanceled (output_fields source)
                         num_columns bbox polls in
    let run' := partition measureLine' isCanceled (output_fields source)
                          num_columns bbox polls in
    let midLat :=
      ((yMaximum bbox + yMinimum bbox) / Py.float_of_int 2)%float in
    measured (fst run)
    = [ (mkPoint (xMinimum bbox) midLat,
         mkPoint (xMinimum bbox + width_degrees)%float midLat) ]
    /\ sink (fst run') = sink (fst run)
    /\ run' = run.
Proof.
  intros measureLine measureLine' isCanceled source bbox n polls Hv.
  pose proof (valid_request_columns _ _ Hv) as Hn.
  assert (Hw := @widthDegrees_defined bbox n ltac:(lia)).
  cbn zeta. split; [|split; reflexivity].
  now rewrite (@partition_measured _ _ _ _ _ _ _ Hw).
Qed.

Lemma C7_distance_unused_witness :
  valid_request demo_bbox 2
  /\ measured (fst (partition no_measure no_cancel
                              (output_fields demo_source) 2 demo_bbox 0))
     = [ (mkPoint 0 2, mkPoint 5 2) ]
  /\ partition flat_measure no_cancel (output_fields demo_source)
               2 demo_bbox 0
     = partition no_measure no_cancel (output_fields demo_source)
                 2 demo_bbox 0.
Proof.
  assert (Hv : valid_request demo_bbox 2)
    by (vm_compute; repeat split; discriminate).
  split; [exact Hv|].
  pose proof (@C7_distance_unused no_measure flat_measure no_cancel
                demo_source demo_bbox 2 0%nat Hv) as H.
  exact (conj (proj1 H) (proj2 (proj2 H))).
Defined.

(** C8, as stated, does not hold: a source that can be read but yields
    no feature is not an error; the run completes normally. *)
Lemma C8_counterexample :
  ~ failed_without_output
      (processAlgorithm no_measure no_cancel
         (mkParameters (Some (mkSource [mkField "fid" QInt] [])) 2
                       (Some "grid"%string))).
Proof. intros [_ [e H]]. discriminate H. Qed.

(** C8, amended: when the input source cannot be read the operation
    fails at once, before the sink is asked for, and writes no cell; when
    the source is readable but yields no feature the operation completes
    normally, having written no cell. *)
Theorem C8_unreadable_or_empty_source :
  forall (measureLine : QgsPointXY -> QgsPointXY -> float)
         (isCanceled : nat -> bool) (num_columns : Z),
    (forall output : option string,
        failed_without_output
          (processAlgorithm measureLine isCanceled
             (mkParameters None num_columns output))
        /\ fst (processAlgorithm measureLine isCanceled
                  (mkParameters None num_columns output)) = [])
    /\ (forall (schema : QgsFields) (dest_id : string),
           processAlgorithm measureLine isCanceled
             (mkParameters (Some (mkSource schema [])) num_columns
                           (Some dest_id))
           = ([], inr dest_id)).
Proof.
  intros measureLine isCanceled n. split.
  - intros output. repeat split. now exists Py.NameError.
  - reflexivity.
Qed.

(** C9, as stated, does not hold: the demo layer's feature has 7 in
    its column fid, the cells written for it have NULL there. *)
Lemma C9_counterexample :
  exists input output,
    In input (getFeatures demo_source)
    /\ In output
          (sink (fst (processAlgorithm no_measure no_cancel
                        (mkParameters (Some demo_source) 2
                                      (Some "grid"%string)))))
    /\ ~ carries_input_values input output.
Proof.
  exists (mkFeature [mkField "fid" QInt] demo_bbox [Some (VInt 7)]), demo_cell.
  split; [now left|]. split; [now left|].
  intros H. specialize (H (mkField "fid" QInt) (or_introl eq_refl)).
  discriminate H.
Qed.

(** C9, amended: every written feature has the input schema followed by
    those of the eight columns (cell_id, cell_name, row, col, center_lat,
    center_lon, buffer, notes) that the input schema does not already
    name; it holds one value per column, a computed value under each of
    the eight names, and NULL under every other column: the values of the
    input feature are not carried through. *)
Theorem C9_output_schema :
  forall (measureLine : QgsPointXY -> QgsPointXY -> float)
         (isCanceled : nat -> bool) (parameters : Parameters)
         (f : QgsFeature),
    In f (sink (fst (processAlgorithm measureLine isCanceled parameters))) ->
    exists source added,
      INPUT parameters = Some source
      /\ fields f = source_fields source ++ added
      /\ (forall c, In c added -> In c new_fields)
      /\ List.length (attributes f) = List.length (fields f)
      /\ (forall n, In n new_columns ->
            lookupField (fields f) n = true /\ attr f n <> None)
      /\ (forall n, ~ In n new_columns -> attr f n = None).
Proof.
  intros measureLine isCanceled parameters f Hf.
  apply processAlgorithm_sink in Hf.
  destruct Hf as [source [g [polls [Hs [_ Hf]]]]].
  apply partition_sink in Hf.
  destruct Hf as [w [nr [row [col [cid [_ [_ [_ [_ ->]]]]]]]]].
  destruct (fold_append_extends new_fields (source_fields source))
    as [added [E Hadd]].
  exists source, added. split; [exact Hs|].
  split; [exact E|]. split; [exact Hadd|].
  split; [apply length_map|].
  split.
  - intros n Hn. split; [now apply output_fields_new|].
    rewrite attr_make_feature, output_fields_new by exact Hn.
    simpl in Hn.
    repeat (destruct Hn as [<-|Hn]; [discriminate|]). destruct Hn.
  - intros n Hn. rewrite attr_make_feature, get_attrs_other by exact Hn.
    now destruct (lookupField _ n).
Qed.

Lemma C9_output_schema_witness :
  exists source added,
    Some demo_source = Some source
    /\ fields demo_cell = source_fields source ++ added
    /\ (forall c, In c added -> In c new_fields)
    /\ List.length (attributes demo_cell) = List.length (fields demo_cell)
    /\ (forall n, In n new_columns ->
          lookupField (fields demo_cell) n = true /\ attr demo_cell n <> None)
    /\ (forall n, ~ In n new_columns -> attr demo_cell n = None).
Proof.
  exact (@C9_output_schema no_measure no_cancel
           (mkParameters (Some demo_source) 2 (Some "grid"%string))
           demo_cell (or_introl eq_refl)).
Defined.




(** ** Further properties of the algorithm *)

(** *** Cancellation *)

Lemma rows_before_cancel_le (isCanceled : nat -> bool) (polls k : nat) :
  (rows_before_cancel isCanceled polls k <= k)%nat.
Proof.
  revert polls. induction k as [|k IH]; intros polls; simpl; [lia|].
  destruct (isCanceled polls); [lia|]. specialize (IH (S polls)). lia.
Qed.

Lemma rows_before_cancel_never (isCanceled : nat -> bool) (polls k : nat) :
  never_canceled isCanceled -> rows_before_cancel isCanceled polls k = k.
Proof.
  intros H. revert polls. induction k as [|k IH]; intros polls; simpl;
    [reflexivity|].
  now rewrite H, IH.
Qed.

Section CancelFacts.

Variable isCanceled : nat -> bool.
Variable fields : QgsFields.
Variable num_columns : Z.
Variables x_min y_min width_degrees height_degrees : float.
Variable total : Z.

Local Abbreviation rows_from :=
  (row_loop isCanceled fields num_columns
            x_min y_min width_degrees height_degrees total).

(** The outer loop under any host: it writes the rows polled before the
    first yes, whole, and ends normally; the poll that answered yes is
    counted. *)
Lemma row_loop_cancel (k s : nat) (cell_id current : Z) (polls : nat) :
  (k <> 0%nat -> (0 < num_columns)%Z -> total <> 0%Z) ->
  let r := rows_before_cancel isCanceled polls k in
  sink (fst (rows_from (map Z.of_nat (seq s k)) cell_id current polls))
  = flat_map (fun row =>
                row_cells fields num_columns x_min y_min
                          width_degrees height_degrees row
                          (cell_id + (row - Z.of_nat s)
                                     * Z.max 0 num_columns)%Z)
             (map Z.of_nat (seq s r))
  /\ snd (rows_from (map Z.of_nat (seq s k)) cell_id current polls)
     = inr (polls + (if (r <? k)%nat then S r else r))%nat.
Proof.
  revert s cell_id current polls.
  induction k as [|k IH]; intros s cell_id current polls Ht.
  - simpl. split; [reflexivity|]. f_equal. lia.
  - cbn [seq map row_loop rows_before_cancel].
    destruct (isCanceled polls) eqn:Ec.
    + simpl. split; [reflexivity|]. f_equal. lia.
    + specialize (Ht ltac:(discriminate)).
      destruct (@col_loop_range fields num_columns x_min y_min width_degrees
                  height_degrees total (Z.of_nat s) cell_id current Ht)
        as [H1 H2].
      destruct (col_loop fields x_min y_min width_degrees height_degrees
                         total (Py.range num_columns) (Z.of_nat s)
                         cell_id current)
        as [evs [e|[cell_id' current']]]; [discriminate H2|].
      cbn [fst snd] in H1, H2. injection H2 as -> ->.
      destruct (IH (S s) (cell_id + Z.max 0 num_columns)%Z
                   (current + Z.max 0 num_columns)%Z (S polls))
        as [IH1 IH2]; [intros _; exact Ht|].
      destruct (rows_from (map Z.of_nat (seq (S s) k))
                          (cell_id + Z.max 0 num_columns)%Z
                          (current + Z.max 0 num_columns)%Z (S polls))
        as [evs' r'].
      cbn [fst snd seq map flat_map] in *.
      rewrite sink_app, H1, IH1, IH2. split.
      * f_equal.
        -- f_equal. lia.
        -- apply flat_map_ext. intros r0. f_equal.
           rewrite Nat2Z.inj_succ. ring.
      * f_equal. change (S ?a <? S ?b)%nat with (a <? b)%nat.
        destruct (_ <? _)%nat; lia.
Qed.

End CancelFacts.

(** The grid of the first [r] rows is the start of the grid of all the
    rows. *)
Lemma grid_cells_firstn fields num_columns x_min y_min w h
    (num_rows : Z) (r : nat) :
  (r <= Z.to_nat num_rows)%nat ->
  grid_cells fields num_columns x_min y_min w h (Z.of_nat r)
  = firstn (r * Z.to_nat num_columns)
           (grid_cells fields num_columns x_min y_min w h num_rows).
Proof.
  intros Hr. unfold grid_cells, Py.range. rewrite Nat2Z.id.
  replace (Z.to_nat num_rows) with (r + (Z.to_nat num_rows - r))%nat by lia.
  rewrite seq_app, map_app, flat_map_app.
  set (l1 := flat_map _ (map Z.of_nat (seq 0 r))).
  assert (E : List.length l1 = (r * Z.to_nat num_columns)%nat).
  { subst l1.
    rewrite (@flat_map_length_uniform _ _ _ (Z.to_nat num_columns))
      by (intros; apply row_cells_length).
    now rewrite length_map, length_seq. }
  rewrite <- E, firstn_app, firstn_all, Nat.sub_diag, firstn_O.
  now rewrite app_nil_r.
Qed.

Section CancelledPass.

Variable measureLine : QgsPointXY -> QgsPointXY -> float.
Variable isCanceled : nat -> bool.
Variable fields : QgsFields.
Variable num_columns : Z.

Local Abbreviation run := (partition measureLine isCanceled fields num_columns).

(** The pass over one bounding box under any host. *)
Lemma partition_cancel (bbox : QgsRectangle) (polls : nat)
    (width_degrees : float) (num_rows : Z) :
  widthDegrees bbox num_columns = inr width_degrees ->
  numRows bbox (heightDegrees width_degrees) = inr num_rows ->
  let r := rows_before_cancel isCanceled polls (Z.to_nat num_rows) in
  sink (fst (run bbox polls))
  = grid_cells fields num_columns (xMinimum bbox) (yMinimum bbox)
               width_degrees (heightDegrees width_degrees) (Z.of_nat r)
  /\ snd (run bbox polls)
     = inr (polls + (if (r <? Z.to_nat num_rows)%nat then S r else r))%nat.
Proof.
  intros Hw Hr. unfold partition. rewrite Hw.
  destruct (measured_points bbox width_degrees) as [p q]. rewrite Hr.
  unfold grid_cells, Py.range at 1 2 3.
  destruct (@row_loop_cancel isCanceled fields num_columns
              (xMinimum bbox) (yMinimum bbox) width_degrees
              (heightDegrees width_degrees) (num_rows * num_columns)%Z
              (Z.to_nat num_rows) 0 1 0 polls) as [H1 H2].
  - nia.
  - destruct (row_loop _ _ _ _ _ _ _ _ _ _ _ _) as [evs r].
    cbn [fst snd sink] in *. rewrite H1, H2. split; [|reflexivity].
    rewrite Nat2Z.id.
    apply flat_map_ext. intros r0. f_equal.
    change (Z.of_nat 0) with 0%Z. ring.
Qed.

End CancelledPass.

(** *** Passes and runs *)

Lemma grid_cells_In_id fields num_columns x_min y_min w h (num_rows : Z)
    (f : QgsFeature) :
  In f (grid_cells fields num_columns x_min y_min w h num_rows) ->
  exists row col,
    (0 <= row < num_rows)%Z /\ (0 <= col < num_columns)%Z /\
    f = make_feature fields x_min y_min w h row col
                     (1 + row * num_columns + col)%Z.
Proof.
  unfold grid_cells, row_cells. rewrite in_flat_map.
  intros [row [Hrow Hf]]. apply in_map_iff in Hf.
  destruct Hf as [col [<- Hcol]]. rewrite range_In in Hrow, Hcol.
  exists row, col. rewrite Z.max_r by lia. auto.
Qed.

(** Whatever a pass writes, under any host, is a cell of the grid of its
    box with the id of its position. *)
Lemma partition_sink_id measureLine isCanceled fields num_columns
    (bbox : QgsRectangle) (polls : nat) (f : QgsFeature) :
  In f (sink (fst (partition measureLine isCanceled fields num_columns
                             bbox polls))) ->
  exists width_degrees num_rows row col,
    grid_shape bbox num_columns = inr (width_degrees, num_rows) /\
    (0 <= row < num_rows)%Z /\ (0 <= col < num_columns)%Z /\
    f = make_feature fields (xMinimum bbox) (yMinimum bbox) width_degrees
                     (heightDegrees width_degrees) row col
                     (1 + row * num_columns + col)%Z.
Proof.
  intros Hf.
  destruct (partition_sink _ _ _ _ _ _ _ Hf)
    as [w [nr [_ [_ [_ [Hw [Hr _]]]]]]].
  destruct (@partition_cancel measureLine isCanceled fields num_columns
              bbox polls w nr Hw Hr) as [H1 _].
  rewrite H1 in Hf. apply grid_cells_In_id in Hf.
  destruct Hf as [row [col [Hrow [Hcol ->]]]].
  exists w, nr, row, col. unfold grid_shape. rewrite Hw, Hr.
  pose proof (rows_before_cancel_le isCanceled polls (Z.to_nat nr)).
  repeat split; try reflexivity; lia.
Qed.

(** A pass over a box whose shape cannot be computed stops with that
    exception, whatever the host answers, and writes nothing. *)
Lemma partition_raises measureLine isCanceled fields num_columns
    (bbox : QgsRectangle) (polls : nat) (e : Py.exn) :
  grid_shape bbox num_columns = inl e ->
  sink (fst (partition measureLine isCanceled fields num_columns bbox polls))
  = []
  /\ snd (partition measureLine isCanceled fields num_columns bbox polls)
     = inl e.
Proof.
  unfold grid_shape, partition.
  destruct (widthDegrees bbox num_columns) as [e'|w].
  - intros [= <-]. split; reflexivity.
  - destruct (measured_points bbox w) as [p q].
    destruct (numRows bbox (heightDegrees w)) as [e'|nr]; [|discriminate].
    intros [= <-]. split; reflexivity.
Qed.

(** A pass over a box whose shape can be computed ends normally, whatever
    the host answers. *)
Lemma partition_returns measureLine isCanceled fields num_columns
    (bbox : QgsRectangle) (polls : nat) (s : float * Z) :
  grid_shape bbox num_columns = inr s ->
  exists polls',
    snd (partition measureLine isCanceled fields num_columns bbox polls)
    = inr polls'.
Proof.
  unfold grid_shape. intros H.
  destruct (widthDegrees bbox num_columns) as [e|w] eqn:Hw; [discriminate|].
  destruct (numRows bbox (heightDegrees w)) as [e|nr] eqn:Hr; [discriminate|].
  destruct (@partition_cancel measureLine isCanceled fields num_columns
              bbox polls w nr Hw Hr) as [_ H2].
  eexists. exact H2.
Qed.

Lemma partition_uncancelled measureLine isCanceled fields num_columns
    (bbox : QgsRectangle) (polls : nat) (s : float * Z) :
  never_canceled isCanceled ->
  grid_shape bbox num_columns = inr s ->
  sink (fst (partition measureLine isCanceled fields num_columns bbox polls))
  = pass_grid fields num_columns bbox.
Proof.
  intros Hc H. unfold pass_grid. rewrite H. destruct s as [w nr].
  unfold grid_shape in H.
  destruct (widthDegrees bbox num_columns) as [e|w'] eqn:Hw; [discriminate|].
  destruct (numRows bbox (heightDegrees w')) as [e|nr'] eqn:Hr;
    [discriminate|].
  injection H as -> ->.
  exact (proj1 (@partition_run measureLine isCanceled fields num_columns
                  bbox polls w nr Hw Hr Hc)).
Qed.

Lemma partition_cancelled measureLine isCanceled fields num_columns
    (bbox : QgsRectangle) (polls : nat) (s : float * Z) :
  (forall k, isCanceled k = true) ->
  grid_shape bbox num_columns = inr s ->
  sink (fst (partition measureLine isCanceled fields num_columns bbox polls))
  = [].
Proof.
  intros Hc H. destruct s as [w nr]. unfold grid_shape in H.
  destruct (widthDegrees bbox num_columns) as [e|w'] eqn:Hw; [discriminate|].
  destruct (numRows bbox (heightDegrees w')) as [e|nr'] eqn:Hr;
    [discriminate|].
  injection H as -> ->.
  rewrite (proj1 (@partition_cancel measureLine isCanceled fields num_columns
                    bbox polls w nr Hw Hr)).
  destruct (Z.to_nat nr) as [|k]; simpl; [reflexivity|].
  now rewrite Hc.
Qed.

Lemma partition_measured_length measureLine isCanceled fields num_columns
    (bbox : QgsRectangle) (polls : nat) (s : float * Z) :
  grid_shape bbox num_columns = inr s ->
  List.length
    (measured (fst (partition measureLine isCanceled fields num_columns
                              bbox polls))) = 1%nat.
Proof.
  unfold grid_shape. intros H.
  destruct (widthDegrees bbox num_columns) as [e|w] eqn:Hw; [discriminate|].
  now rewrite (@partition_measured measureLine isCanceled fields num_columns
                 bbox polls w Hw).
Qed.

Section RunFacts.

Variable measureLine : QgsPointXY -> QgsPointXY -> float.
Variable isCanceled : nat -> bool.
Variable fields : QgsFields.
Variable num_columns : Z.

Local Abbreviation pass :=
  (partition measureLine isCanceled fields num_columns).
Local Abbreviation passes :=
  (feature_loop measureLine isCanceled fields num_columns).

(** The loop over the features, when the shape of every box can be
    computed: it ends normally, the sink holds the output of the passes in
    input order, and the distance calculator was called once per
    feature. *)
Lemma feature_loop_returns (features : list QgsFeature) (polls : nat)
    (cells : QgsRectangle -> list QgsFeature) :
  (forall g, In g features ->
     exists s, grid_shape (geometry g) num_columns = inr s) ->
  (forall g polls', In g features ->
     sink (fst (pass (geometry g) polls')) = cells (geometry g)) ->
  sink (fst (passes features polls))
  = flat_map (fun g => cells (geometry g)) features
  /\ List.length (measured (fst (passes features polls)))
     = List.length features
  /\ exists polls', snd (passes features polls) = inr polls'.
Proof.
  revert polls. induction features as [|g gs IH]; intros polls Hs Hc.
  - simpl. repeat split. now exists polls.
  - cbn [feature_loop flat_map].
    destruct (Hs g (or_introl eq_refl)) as [s Hg].
    destruct (@partition_returns measureLine isCanceled fields num_columns
                (geometry g) polls s Hg)
      as [polls' Hp].
    pose proof (Hc g polls (or_introl eq_refl)) as Hk.
    pose proof (@partition_measured_length measureLine isCanceled fields
                  num_columns (geometry g) polls s Hg) as Hm.
    destruct (pass (geometry g) polls) as [evs r].
    cbn [fst snd] in *. subst r.
    destruct (IH polls') as [IH1 [IH2 [p IH3]]].
    + intros g' Hg'. apply Hs. now right.
    + intros g' p' Hg'. apply Hc. now right.
    + destruct (passes gs polls') as [evs' r'].
      cbn [fst snd] in *.
      rewrite sink_app, measured_app, length_app, Hk, IH1, Hm, IH2.
      repeat split. now exists p.
Qed.

(** A feature whose box has no computable shape ends the loop: what the
    features before it wrote stays in the sink, nothing is added, and the
    features after it are not looked at. *)
Lemma feature_loop_stops (pre post : list QgsFeature) (bad : QgsFeature)
    (polls : nat) (e : Py.exn) :
  grid_shape (geometry bad) num_columns = inl e ->
  sink (fst (passes (pre ++ bad :: post) polls))
  = sink (fst (passes pre polls))
  /\ ((exists polls', snd (passes pre polls) = inr polls') ->
      snd (passes (pre ++ bad :: post) polls) = inl e).
Proof.
  intros Hb. revert polls. induction pre as [|g gs IH]; intros polls.
  - cbn [app feature_loop].
    destruct (@partition_raises measureLine isCanceled fields num_columns
                (geometry bad) polls e Hb)
      as [H1 H2].
    destruct (pass (geometry bad) polls) as [evs r].
    cbn [fst snd] in *. subst r. split; [exact H1|reflexivity].
  - cbn [app feature_loop].
    destruct (pass (geometry g) polls) as [evs [e'|polls']].
    + split; [reflexivity|]. intros [p Hp]. discriminate Hp.
    + specialize (IH polls').
      destruct (passes (gs ++ bad :: post) polls') as [evs1 r1].
      destruct (passes gs polls') as [evs2 r2].
      cbn [fst snd] in *. destruct IH as [IH1 IH2].
      rewrite !sink_app, IH1. split; [reflexivity|exact IH2].
Qed.

End RunFacts.

(** *** Infinities and NaN *)

Lemma F2Q_None (x : float) : Py.F2Q x = None -> nonfinite (Prim2SF x).
Proof. unfold Py.F2Q. now destruct (Prim2SF x). Qed.

Lemma SFsub_nonfinite (x y : spec_float) :
  nonfinite x \/ nonfinite y -> nonfinite (SFsub prec emax x y).
Proof.
  destruct x as [[|]|[|]| |sx mx ex], y as [[|]|[|]| |sy my ey]; cbn; tauto.
Qed.

Lemma SFdiv_nonfinite (x y : spec_float) :
  nonfinite x -> nonfinite (SFdiv prec emax x y).
Proof.
  destruct x as [sx|sx| |sx mx ex], y as [sy|sy| |sy my ey]; cbn;
    intros H; try exact I; now destruct H.
Qed.

(** A quotient by the absolute value of an infinity or NaN is a zero or
    NaN. *)
Lemma SFdiv_by_nonfinite (x y : spec_float) :
  nonfinite y ->
  SFdiv prec emax x (SFabs y) = S754_nan
  \/ exists s, SFdiv prec emax x (SFabs y) = S754_zero s.
Proof.
  destruct x as [sx|sx| |sx mx ex], y as [sy|sy| |sy my ey]; cbn;
    intros H; try (now destruct H); try (now left);
    right; eexists; reflexivity.
Qed.

Lemma ceil_nonfinite (x : float) (z : Z) :
  nonfinite (Prim2SF x) -> Py.ceil x <> inr z.
Proof. unfold Py.ceil. now destruct (Prim2SF x). Qed.

(** When line 143 yields at least one row, the four bounds of the box are
    finite and the width is a finite number other than zero. *)
Lemma grid_shape_finite (bbox : QgsRectangle) (num_columns : Z)
    (width_degrees : float) (num_rows : Z) :
  grid_shape bbox num_columns = inr (width_degrees, num_rows) ->
  (0 < num_rows)%Z ->
  (exists B, rect_value bbox = Some B)
  /\ exists s m e, Prim2SF width_degrees = S754_finite s m e.
Proof.
  unfold grid_shape. intros H Hpos.
  destruct (widthDegrees bbox num_columns) as [e|w] eqn:Hw; [discriminate|].
  destruct (numRows bbox (heightDegrees w)) as [e|nr] eqn:Hr; [discriminate|].
  injection H as -> ->.
  apply widthDegrees_value in Hw.
  unfold numRows, Py.truediv in Hr.
  destruct (PrimFloat.eqb (heightDegrees width_degrees) PrimFloat.zero)
    eqn:Hz; [discriminate|].
  unfold heightDegrees in Hr, Hz.
  assert (Hq : forall x,
             nonfinite (Prim2SF width_degrees) ->
             Py.ceil (x / PrimFloat.abs width_degrees)%float
             = inr num_rows -> False).
  { intros x Hn Hc. unfold Py.ceil in Hc.
    rewrite div_spec, abs_spec in Hc. unfold SF64div in Hc.
    destruct (@SFdiv_by_nonfinite (Prim2SF x) _ Hn) as [E|[s E]];
      rewrite E in Hc; [discriminate|].
    cbn in Hc. injection Hc as <-. lia. }
  assert (Hwf : exists s m e, Prim2SF width_degrees = S754_finite s m e).
  { destruct (Prim2SF width_degrees) as [s|s| |s m e] eqn:E.
    - rewrite eqb_spec, abs_spec, E in Hz. discriminate Hz.
    - exfalso. apply (Hq _ I Hr).
    - exfalso. apply (Hq _ I Hr).
    - now exists s, m, e. }
  split; [|exact Hwf].
  unfold rect_value.
  destruct (Py.F2Q (xMinimum bbox)) as [a|] eqn:Ea; cycle 1.
  { exfalso. destruct Hwf as [s [m [e E]]].
    rewrite Hw, div_spec, sub_spec in E.
    pose proof (@SFdiv_nonfinite
                  (SFsub prec emax (Prim2SF (xMaximum bbox))
                         (Prim2SF (xMinimum bbox)))
                  (Prim2SF (Py.float_of_int num_columns))
                  (@SFsub_nonfinite _ _ (or_intror (@F2Q_None _ Ea)))) as Hn.
    unfold SF64div, SF64sub in E. rewrite E in Hn. exact Hn. }
  destruct (Py.F2Q (yMinimum bbox)) as [c|] eqn:Ec; cycle 1.
  { exfalso. apply (@ceil_nonfinite _ num_rows) in Hr; [exact Hr|].
    rewrite div_spec, sub_spec. apply SFdiv_nonfinite, SFsub_nonfinite.
    right. now apply F2Q_None. }
  destruct (Py.F2Q (xMaximum bbox)) as [b|] eqn:Eb; cycle 1.
  { exfalso. destruct Hwf as [s [m [e E]]].
    rewrite Hw, div_spec, sub_spec in E.
    pose proof (@SFdiv_nonfinite
                  (SFsub prec emax (Prim2SF (xMaximum bbox))
                         (Prim2SF (xMinimum bbox)))
                  (Prim2SF (Py.float_of_int num_columns))
                  (@SFsub_nonfinite _ _ (or_introl (@F2Q_None _ Eb)))) as Hn.
    unfold SF64div, SF64sub in E. rewrite E in Hn. exact Hn. }
  destruct (Py.F2Q (yMaximum bbox)) as [d|] eqn:Ed; cycle 1.
  { exfalso. apply (@ceil_nonfinite _ num_rows) in Hr; [exact Hr|].
    rewrite div_spec, sub_spec. apply SFdiv_nonfinite, SFsub_nonfinite.
    left. now apply F2Q_None. }
  eexists. reflexivity.
Qed.

(** The first column starts at the west edge and the first row at the
    south edge: adding [0 * width] to a finite bound leaves the number it
    stands for. *)
Lemma add_zero_times (x w : float) (s : bool) (m : positive) (e : Z)
    (a : Q) :
  Prim2SF w = S754_finite s m e -> Py.F2Q x = Some a ->
  Py.F2Q (x + Py.mul_int 0 w)%float = Some a.
Proof.
  intros Hw Hx. unfold Py.F2Q in *. unfold Py.mul_int.
  rewrite add_spec, mul_spec, Hw.
  change (Prim2SF (Py.float_of_int 0)) with (S754_zero false).
  cbn [SF64mul SFmul xorb].
  destruct (Prim2SF x) as [sx|sx| |sx mx ex]; try discriminate.
  - cbn. destruct sx, s; exact Hx.
  - exact Hx.
Qed.

(** *** The progress reports *)

Lemma digits2_pos_lower (p : positive) (k : Z) :
  (2 ^ (k - 1) <= Zpos p)%Z -> (k <= Zpos (digits2_pos p))%Z.
Proof.
  intros H. rewrite digits2_pos_size.
  destruct (Z.le_gt_cases k (Zpos (Pos.size p))) as [|Hgt]; [assumption|].
  exfalso. pose proof (Pos.size_gt p) as Hs.
  assert (H2 : (Zpos p < 2 ^ Zpos (Pos.size p))%Z).
  { rewrite <- Pos2Z.inj_pow. exact Hs. }
  assert (H3 : (2 ^ Zpos (Pos.size p) <= 2 ^ (k - 1))%Z)
    by (apply Z.pow_le_mono_r; lia).
  lia.
Qed.

Lemma div_eucl_multiple (q : Z) (p : positive) :
  Z.div_eucl (q * Zpos p) (Zpos p) = (q, 0%Z).
Proof.
  pose proof (Z.div_mul q (Zpos p) ltac:(discriminate)) as Hd.
  pose proof (Z.mod_mul q (Zpos p) ltac:(discriminate)) as Hm.
  unfold Z.div, Z.modulo in Hd, Hm.
  destruct (Z.div_eucl (q * Zpos p) (Zpos p)) as [a b].
  now subst.
Qed.

(** A hundred times a positive integer divided by that integer is the
    double 100.0, whatever the integer. *)
Lemma SFdiv_hundred (p : positive) :
  SFdiv prec emax (S754_finite false (100 * p) 0) (S754_finite false p 0)
  = Prim2SF 100%float.
Proof.
  cbn [SFdiv xorb]. unfold SFdiv_core_binary, Zdigits2.
  set (d1 := Zpos (digits2_pos (100 * p))).
  set (d2 := Zpos (digits2_pos p)).
  assert (Hp : (2 ^ (d2 - 1) <= Zpos p < 2 ^ d2)%Z).
  { subst d2. rewrite digits2_pos_size. split.
    - pose proof (Pos.size_le p) as Hs.
      assert (H2 : (2 ^ Zpos (Pos.size p) <= 2 * Zpos p)%Z).
      { rewrite <- Pos2Z.inj_pow. change (2 * Zpos p)%Z with (Zpos p~0).
        exact Hs. }
      replace (Zpos (Pos.size p)) with (Zpos (Pos.size p) - 1 + 1)%Z in H2
        by lia.
      rewrite Z.pow_add_r in H2 by lia. lia.
    - rewrite <- Pos2Z.inj_pow. exact (Pos.size_gt p). }
  assert (Hd : (d1 - d2 = 6 \/ d1 - d2 = 7)%Z).
  { assert (Hu : (d1 <= d2 + 7)%Z).
    { apply digits2_pos_bound; [|lia].
      rewrite Z.pow_add_r by lia. rewrite Pos2Z.inj_mul.
      change (2 ^ 7)%Z with 128%Z. lia. }
    assert (Hl : (d2 + 6 <= d1)%Z).
    { apply digits2_pos_lower.
      replace (d2 + 6 - 1)%Z with (d2 - 1 + 6)%Z by lia.
      rewrite Z.pow_add_r by lia. rewrite Pos2Z.inj_mul.
      change (2 ^ 6)%Z with 64%Z. lia. }
    lia. }
  replace (d1 + 0 - (d2 + 0))%Z with (d1 - d2)%Z by lia.
  destruct Hd as [-> | ->].
  - change (Z.min (fexp prec emax 6) (0 - 0)) with (-47)%Z.
    change (0 - 0 - -47)%Z with 47%Z. cbv iota.
    rewrite Z.shiftl_mul_pow2 by lia.
    rewrite Pos2Z.inj_mul.
    replace (100 * Zpos p * 2 ^ 47)%Z with ((100 * 2 ^ 47) * Zpos p)%Z by ring.
    rewrite div_eucl_multiple, new_location_exact.
    vm_compute. reflexivity.
  - change (Z.min (fexp prec emax 7) (0 - 0)) with (-46)%Z.
    change (0 - 0 - -46)%Z with 46%Z. cbv iota.
    rewrite Z.shiftl_mul_pow2 by lia.
    rewrite Pos2Z.inj_mul.
    replace (100 * Zpos p * 2 ^ 46)%Z with ((100 * 2 ^ 46) * Zpos p)%Z by ring.
    rewrite div_eucl_multiple, new_location_exact.
    vm_compute. reflexivity.
Qed.

Lemma int_truediv_hundred (t : Z) :
  (0 < t)%Z -> Py.int_truediv (100 * t) t = inr 100%float.
Proof.
  intros H. destruct t as [|p|p]; try lia.
  change (100 * Zpos p)%Z with (Zpos (100 * p)).
  unfold Py.int_truediv, Py.div_pos_nearest.
  rewrite SFdiv_hundred. now rewrite SF2Prim_Prim2SF.
Qed.

Lemma progress_app (l1 l2 : list event) :
  progress_reports (l1 ++ l2)
  = progress_reports l1 ++ progress_reports l2.
Proof.
  induction l1 as [|[p q|f|x] l1 IH]; simpl;
    [reflexivity|assumption|assumption|].
  now rewrite IH.
Qed.

Lemma map_seq_shift (A : Type) (f : nat -> A) (a b m : nat) :
  map f (seq (a + b) m) = map (fun j => f (a + j)%nat) (seq b m).
Proof.
  revert b. induction m as [|m IH]; intros b; simpl; [reflexivity|].
  f_equal. rewrite <- IH. f_equal. f_equal. lia.
Qed.

Section ProgressFacts.

Variable isCanceled : nat -> bool.
Variable fields : QgsFields.
Variable num_columns : Z.
Variables x_min y_min width_degrees height_degrees : float.
Variable total : Z.

Local Abbreviation cols_from :=
  (col_loop fields x_min y_min width_degrees height_degrees total).
Local Abbreviation rows_from :=
  (row_loop isCanceled fields num_columns
            x_min y_min width_degrees height_degrees total).

(** The inner loop reports after every feature it adds. *)
Lemma col_loop_progress (row : Z) (k s : nat) (cell_id current : Z) :
  (k <> 0%nat -> total <> 0%Z) ->
  progress_reports
    (fst (cols_from (map Z.of_nat (seq s k)) row cell_id current))
  = map (fun j => percent total (current + Z.of_nat j)) (seq 1 k).
Proof.
  revert s cell_id current.
  induction k as [|k IH]; intros s cell_id current H; [reflexivity|].
  cbn [seq map col_loop]. unfold percent at 1.
  replace (current + Z.of_nat 1)%Z with (current + 1)%Z by lia.
  destruct (@int_truediv_defined (100 * (current + 1)) total) as [x Hx];
    [apply H; discriminate|].
  rewrite Hx.
  specialize (IH (S s) (cell_id + 1)%Z (current + 1)%Z
                 ltac:(intros _; apply H; discriminate)).
  destruct (cols_from (map Z.of_nat (seq (S s) k)) row
                      (cell_id + 1)%Z (current + 1)%Z) as [evs r].
  cbn [fst progress_reports] in *. rewrite IH. f_equal.
  rewrite (map_seq_shift _ 1 1 k). apply map_ext. intros j.
  f_equal. lia.
Qed.

Lemma row_loop_progress (k s : nat) (cell_id current : Z) (polls : nat) :
  (k <> 0%nat -> (0 < num_columns)%Z -> total <> 0%Z) ->
  let r := rows_before_cancel isCanceled polls k in
  progress_reports
    (fst (rows_from (map Z.of_nat (seq s k)) cell_id current polls))
  = map (fun j => percent total (current + Z.of_nat j))
        (seq 1 (r * Z.to_nat num_columns)).
Proof.
  revert s cell_id current polls.
  induction k as [|k IH]; intros s cell_id current polls Ht; [reflexivity|].
  cbn [seq map row_loop rows_before_cancel].
  destruct (isCanceled polls) eqn:Ec; [reflexivity|].
  specialize (Ht ltac:(discriminate)).
  destruct (@col_loop_range fields num_columns x_min y_min width_degrees
              height_degrees total (Z.of_nat s) cell_id current Ht)
    as [_ H2].
  pose proof (@col_loop_progress (Z.of_nat s) (Z.to_nat num_columns) 0
                cell_id current ltac:(intros Hk; apply Ht; lia)) as Hp.
  fold (Py.range num_columns) in Hp.
  destruct (cols_from (Py.range num_columns) (Z.of_nat s) cell_id current)
    as [evs [e|[cell_id' current']]]; [discriminate H2|].
  cbn [fst snd] in H2, Hp. injection H2 as -> ->.
  specialize (IH (S s) (cell_id + Z.max 0 num_columns)%Z
                 (current + Z.max 0 num_columns)%Z (S polls)
                 ltac:(intros _; exact Ht)).
  destruct (rows_from (map Z.of_nat (seq (S s) k))
                      (cell_id + Z.max 0 num_columns)%Z
                      (current + Z.max 0 num_columns)%Z (S polls))
    as [evs' r'].
  cbn [fst] in *. rewrite progress_app, Hp, IH.
  cbn [Nat.mul]. rewrite seq_app, map_app. f_equal.
  replace (1 + Z.to_nat num_columns)%nat with (Z.to_nat num_columns + 1)%nat
    by lia.
  rewrite (@map_seq_shift _ (fun j => percent total (current + Z.of_nat j))
             (Z.to_nat num_columns) 1).
  apply map_ext. intros j. f_equal. lia.
Qed.

End ProgressFacts.

(** The reports of a pass over one box, under any host. *)
Lemma partition_progress measureLine isCanceled fields num_columns
    (bbox : QgsRectangle) (polls : nat) (width_degrees : float)
    (num_rows : Z) :
  grid_shape bbox num_columns = inr (width_degrees, num_rows) ->
  let r := rows_before_cancel isCanceled polls (Z.to_nat num_rows) in
  progress_reports (fst (partition measureLine isCanceled fields num_columns
                           bbox polls))
  = map (fun j => percent (num_rows * num_columns) (Z.of_nat j))
        (seq 1 (r * Z.to_nat num_columns)).
Proof.
  unfold grid_shape. intros H.
  destruct (widthDegrees bbox num_columns) as [e|w] eqn:Hw; [discriminate|].
  destruct (numRows bbox (heightDegrees w)) as [e|nr] eqn:Hr; [discriminate|].
  injection H as -> ->.
  unfold partition. rewrite Hw.
  destruct (measured_points bbox width_degrees) as [p q]. rewrite Hr.
  unfold Py.range.
  pose proof (@row_loop_progress isCanceled fields num_columns
                (xMinimum bbox) (yMinimum bbox) width_degrees
                (heightDegrees width_degrees) (num_rows * num_columns)%Z
                (Z.to_nat num_rows) 0 1 0 polls ltac:(nia)) as H.
  destruct (row_loop _ _ _ _ _ _ _ _ _ _ _ _) as [evs r].
  cbn [fst progress_reports] in *. exact H.
Qed.

(** *** Cell names *)

(** The decimal digits of a positive number do not start with 0. *)
Lemma to_uint_head (p : positive) (d : Decimal.uint) :
  Pos.to_uint p <> Decimal.D0 d.
Proof.
  intros E.
  pose proof (DecimalPos.Unsigned.to_of (Pos.to_uint p)) as H.
  rewrite DecimalPos.Unsigned.of_to in H.
  change (N.to_uint (Npos p)) with (Pos.to_uint p) in H.
  rewrite E in H. unfold Decimal.unorm in H.
  rewrite DecimalFacts.nzhead_D0 in H.
  destruct (Decimal.nzhead d) eqn:En;
    try (apply (DecimalFacts.nzhead_nonzero d d); rewrite En;
         now rewrite <- H).
  apply (DecimalPos.Unsigned.to_uint_nonzero p). now rewrite E.
Qed.

Lemma string_of_uint_inj (d d' : Decimal.uint) :
  NilEmpty.string_of_uint d = NilEmpty.string_of_uint d' -> d = d'.
Proof.
  intros H. apply (f_equal NilEmpty.uint_of_string) in H.
  rewrite !NilEmpty.usu in H. now injection H.
Qed.

(** Digits followed by the letter C: the digits and what follows the
    letter can be read back. *)
Lemma digits_before_C (d d' : Decimal.uint) (t t' : string) :
  (NilEmpty.string_of_uint d ++ String "C" t
   = NilEmpty.string_of_uint d' ++ String "C" t')%string ->
  d = d' /\ t = t'.
Proof.
  revert d'.
  induction d as [|d IH|d IH|d IH|d IH|d IH|d IH|d IH|d IH|d IH|d IH];
    intros [|d'|d'|d'|d'|d'|d'|d'|d'|d'|d']; cbn; intros H;
    try discriminate H;
    try (injection H as H; destruct (IH _ H) as [-> ->]; now split).
  now injection H as ->.
Qed.

(** What [format_02d] gives for a positive number: its digits, with one
    0 before them or not. *)
Lemma format_02d_digits (p : positive) :
  exists d,
    Py.format_02d (Zpos p) = NilEmpty.string_of_uint d
    /\ (d = Pos.to_uint p \/ d = Decimal.D0 (Pos.to_uint p)).
Proof.
  unfold Py.format_02d.
  pose proof (DecimalPos.Unsigned.to_uint_nonnil p) as Hn.
  assert (Hs : NilZero.string_of_uint (Pos.to_uint p)
               = NilEmpty.string_of_uint (Pos.to_uint p))
    by (destruct (Pos.to_uint p); [now destruct Hn|reflexivity..]).
  rewrite Hs. cbv zeta.
  destruct (_ <? _)%nat.
  - exists (Decimal.D0 (Pos.to_uint p)). split; [reflexivity|now right].
  - exists (Pos.to_uint p). split; [reflexivity|now left].
Qed.

Lemma format_02d_inj (p q : positive) :
  Py.format_02d (Zpos p) = Py.format_02d (Zpos q) -> p = q.
Proof.
  destruct (format_02d_digits p) as [dp [Ep Hp]].
  destruct (format_02d_digits q) as [dq [Eq Hq]].
  rewrite Ep, Eq. intros H. apply string_of_uint_inj in H. subst dq.
  destruct Hp as [Hp|Hp], Hq as [Hq|Hq]; rewrite Hp in Hq.
  - now apply DecimalPos.Unsigned.to_uint_inj.
  - now apply to_uint_head in Hq.
  - symmetry in Hq. now apply to_uint_head in Hq.
  - injection Hq as Hq. now apply DecimalPos.Unsigned.to_uint_inj.
Qed.

(** The name of a cell determines its row and column. *)
Lemma cell_name_inj (row col row' col' : Z) :
  (0 <= row)%Z -> (0 <= col)%Z -> (0 <= row')%Z -> (0 <= col')%Z ->
  cell_name row col = cell_name row' col' -> row = row' /\ col = col'.
Proof.
  intros Hr Hc Hr' Hc'. unfold cell_name.
  destruct (row + 1)%Z as [|r|r] eqn:Er; try lia.
  destruct (col + 1)%Z as [|c|c] eqn:Ec; try lia.
  destruct (row' + 1)%Z as [|r'|r'] eqn:Er'; try lia.
  destruct (col' + 1)%Z as [|c'|c'] eqn:Ec'; try lia.
  destruct (format_02d_digits r) as [dr [Edr _]].
  destruct (format_02d_digits r') as [dr' [Edr' _]].
  assert (Hrr : Py.format_02d (Zpos r) = Py.format_02d (Zpos r')
                /\ Py.format_02d (Zpos c) = Py.format_02d (Zpos c')
                -> row = row' /\ col = col').
  { intros [H1 H2]. apply format_02d_inj in H1, H2. lia. }
  rewrite Edr, Edr' in *.
  generalize dependent (Py.format_02d (Zpos c)).
  generalize dependent (Py.format_02d (Zpos c')).
  intros fc' fc Hrr H. cbn [String.append] in H. injection H as H.
  apply digits_before_C in H. destruct H as [-> H]. now apply Hrr.
Qed.

(** *** The output schema *)

Lemma lookupField_In (fs : QgsFields) (n : string) :
  lookupField fs n = true <-> In n (map name fs).
Proof.
  unfold lookupField. rewrite existsb_exists, in_map_iff.
  split; intros [f [H1 H2]]; exists f.
  - apply String.eqb_eq in H2. now split.
  - split; [assumption|]. now apply String.eqb_eq.
Qed.

(** Appending columns of distinct names one after the other adds, in
    order, those whose name the container does not hold yet. *)
Lemma fold_append_filter (cs : list QgsField) (fs : QgsFields) :
  NoDup (map name cs) ->
  fold_left append cs fs
  = fs ++ filter (fun c => negb (lookupField fs (name c))) cs.
Proof.
  revert fs. induction cs as [|c cs IH]; intros fs Hd.
  - simpl. now rewrite app_nil_r.
  - cbn [fold_left filter map] in *. inversion Hd as [|? ? Hc Hd']; subst.
    rewrite IH by assumption. unfold append.
    destruct (lookupField fs (name c)) eqn:E; cbn [negb].
    + reflexivity.
    + rewrite <- app_assoc. cbn [app]. do 2 f_equal.
      apply filter_ext_in. intros x Hx.
      rewrite lookupField_app. cbn [lookupField existsb].
      destruct (String.eqb_spec (name c) (name x)) as [Ex|_];
        [|now rewrite !orb_false_r].
      exfalso. apply Hc. rewrite Ex. now apply in_map.
Qed.

Lemma NoDup_new_fields : NoDup (map name new_fields).
Proof.
  cbn. repeat (constructor; [cbn; intuition discriminate|]). constructor.
Qed.

(** ** Properties read off the code *)

(** X1: cancellation takes effect between rows only.  Whatever the host
    answers to the polls, a pass over a box whose width and number of rows
    can be computed ends normally, and the sink then holds the first r rows
    of the complete grid, each of them whole, where r is the number of
    polls answered no before the first yes (at most numRows): the first
    r * numColumns cells of the grid.  The host is polled once for each of
    these rows and once more when it cancels.  A host that never cancels
    gets the complete grid. *)
Theorem X1_cancellation_keeps_whole_rows :
  forall (measureLine : QgsPointXY -> QgsPointXY -> float)
         (isCanceled : nat -> bool) (fields : QgsFields)
         (bbox : QgsRectangle) (num_columns : Z) (polls : nat)
         (width_degrees : float) (num_rows : Z),
    widthDegrees bbox num_columns = inr width_degrees ->
    numRows bbox (heightDegrees width_degrees) = inr num_rows ->
    let run := partition measureLine isCanceled fields num_columns
                         bbox polls in
    let full_grid :=
      grid_cells fields num_columns (xMinimum bbox) (yMinimum bbox)
                 width_degrees (heightDegrees width_degrees) num_rows in
    let r := rows_before_cancel isCanceled polls (Z.to_nat num_rows) in
    (r <= Z.to_nat num_rows)%nat
    /\ sink (fst run) = firstn (r * Z.to_nat num_columns) full_grid
    /\ snd run
       = inr (polls + (if (r <? Z.to_nat num_rows)%nat then S r else r))%nat
    /\ (never_canceled isCanceled -> sink (fst run) = full_grid).
Proof.
  intros measureLine isCanceled fields bbox n polls w nr Hw Hr run full r.
  destruct (@partition_cancel measureLine isCanceled fields n bbox polls
              w nr Hw Hr) as [H1 H2].
  fold run r in H1, H2.
  assert (Hle : (r <= Z.to_nat nr)%nat) by apply rows_before_cancel_le.
  split; [exact Hle|]. split; [|split].
  - rewrite H1. now apply grid_cells_firstn.
  - exact H2.
  - intros Hc. rewrite H1. subst r.
    rewrite rows_before_cancel_never by assumption.
    unfold grid_cells, Py.range. now rewrite Nat2Z.id.
Qed.

Lemma X1_cancellation_keeps_whole_rows_witness :
  widthDegrees unit_bbox 2 = inr 0.5%float
  /\ numRows unit_bbox (heightDegrees 0.5) = inr 2%Z
  /\ sink (fst (partition no_measure (cancel_from 1)
                          (output_fields demo_source) 2 unit_bbox 0))
     = firstn 2 (grid_cells (output_fields demo_source) 2 0 0
                            0.5 (heightDegrees 0.5) 2).
Proof.
  split; [reflexivity|]. split; [reflexivity|].
  exact (proj1 (proj2
    (@X1_cancellation_keeps_whole_rows no_measure (cancel_from 1)
       (output_fields demo_source) unit_bbox 2 0%nat 0.5%float 2
       eq_refl eq_refl))).
Defined.

(** X2: every feature that reaches the sink, in any run (one or several
    input features, cancelled or not, valid box or not), is cell (row, col)
    of the grid of one input feature, with 1 <= row <= numRows of that
    feature and 1 <= col <= numColumns; its attributes row and col hold
    these indices, cell_id is (row - 1) * numColumns + col, cell_name is R
    followed by the row and C followed by the column, each written with at
    least two digits, and notes is the empty string. *)
Theorem X2_written_cell_attributes :
  forall (measureLine : QgsPointXY -> QgsPointXY -> float)
         (isCanceled : nat -> bool) (parameters : Parameters)
         (f : QgsFeature),
    In f (sink (fst (processAlgorithm measureLine isCanceled parameters))) ->
    exists source input_feature width_degrees num_rows row col,
      INPUT parameters = Some source
      /\ In input_feature (getFeatures source)
      /\ grid_shape (geometry input_feature) (COLUMNS parameters)
         = inr (width_degrees, num_rows)
      /\ (1 <= row <= num_rows)%Z
      /\ (1 <= col <= COLUMNS parameters)%Z
      /\ attr f "row" = Some (VInt row)
      /\ attr f "col" = Some (VInt col)
      /\ attr f "cell_id"
         = Some (VInt ((row - 1) * COLUMNS parameters + col))
      /\ attr f "cell_name"
         = Some (VStr ("R" ++ Py.format_02d row
                           ++ "C" ++ Py.format_02d col))
      /\ attr f "notes" = Some (VStr "").
Proof.
  intros measureLine isCanceled parameters f Hf.
  apply processAlgorithm_sink in Hf.
  destruct Hf as [source [g [polls [Hs [Hg Hf]]]]].
  apply partition_sink_id in Hf.
  destruct Hf as [w [nr [row [col [Hshape [Hrow [Hcol ->]]]]]]].
  exists source, g, w, nr, (row + 1)%Z, (col + 1)%Z.
  split; [exact Hs|]. split; [exact Hg|]. split; [exact Hshape|].
  split; [lia|]. split; [lia|].
  rewrite !attr_make_feature.
  rewrite !output_fields_new by (simpl; tauto).
  cbn [attrs get String.eqb Ascii.eqb Bool.eqb].
  repeat split. do 2 f_equal. ring.
Qed.

Lemma X2_written_cell_attributes_witness :
  exists source input_feature width_degrees num_rows row col,
    Some demo_source = Some source
    /\ In input_feature (getFeatures source)
    /\ grid_shape (geometry input_feature) 2 = inr (width_degrees, num_rows)
    /\ (1 <= row <= num_rows)%Z
    /\ (1 <= col <= 2)%Z
    /\ attr demo_cell "row" = Some (VInt row)
    /\ attr demo_cell "col" = Some (VInt col)
    /\ attr demo_cell "cell_id" = Some (VInt ((row - 1) * 2 + col))
    /\ attr demo_cell "cell_name"
       = Some (VStr ("R" ++ Py.format_02d row ++ "C" ++ Py.format_02d col))
    /\ attr demo_cell "notes" = Some (VStr "").
Proof.
  exact (@X2_written_cell_attributes no_measure no_cancel
           (mkParameters (Some demo_source) 2 (Some "grid"%string))
           demo_cell (or_introl eq_refl)).
Defined.

(** X3: within the output of one pass (the cells written for one input
    feature), cell_id and cell_name each identify the cell: two different
    written features differ in their cell_id and differ in their
    cell_name.  The names stay distinct beyond 99 rows or columns, where
    the numbers take more than two digits. *)
Theorem X3_cell_id_and_name_identify_the_cell :
  forall (measureLine : QgsPointXY -> QgsPointXY -> float)
         (isCanceled : nat -> bool) (source : FeatureSource)
         (bbox : QgsRectangle) (num_columns : Z) (polls : nat)
         (f g : QgsFeature),
    let cells :=
      sink (fst (partition measureLine isCanceled (output_fields source)
                           num_columns bbox polls)) in
    In f cells -> In g cells -> f <> g ->
    attr f "cell_id" <> attr g "cell_id"
    /\ attr f "cell_name" <> attr g "cell_name".
Proof.
  intros measureLine isCanceled source bbox n polls f g cells Hf Hg Hne.
  apply partition_sink_id in Hf, Hg.
  destruct Hf as [w [nr [row [col [Hs [Hrow [Hcol ->]]]]]]].
  destruct Hg as [w' [nr' [row' [col' [Hs' [Hrow' [Hcol' ->]]]]]]].
  rewrite Hs in Hs'. injection Hs' as <- <-.
  rewrite !attr_make_feature.
  rewrite !output_fields_new by (simpl; tauto).
  cbn [attrs get String.eqb Ascii.eqb Bool.eqb].
  assert (E : ~ (row = row' /\ col = col')).
  { intros [-> ->]. now apply Hne. }
  split; intros H; apply E.
  - assert (Hid : (1 + row * n + col)%Z = (1 + row' * n + col')%Z)
      by congruence.
    assert (row = row').
    { destruct (Z.lt_trichotomy row row') as [L|[L|L]]; [|exact L|].
      - assert ((row + 1) * n <= row' * n)%Z
          by (apply Z.mul_le_mono_nonneg_r; lia). lia.
      - assert ((row' + 1) * n <= row * n)%Z
          by (apply Z.mul_le_mono_nonneg_r; lia). lia. }
    split; [assumption|]. subst row'. lia.
  - assert (Hn : cell_name row col = cell_name row' col') by congruence.
    apply cell_name_inj in Hn; [exact Hn|lia..].
Qed.

Lemma X3_cell_id_and_name_identify_the_cell_witness :
  demo_cell <> east_cell
  /\ attr demo_cell "cell_id" <> attr east_cell "cell_id"
  /\ attr demo_cell "cell_name" <> attr east_cell "cell_name".
Proof.
  assert (Hne : demo_cell <> east_cell).
  { intros H. apply (f_equal (fun f => attr f "cell_id")) in H.
    vm_compute in H. discriminate H. }
  split; [exact Hne|].
  refine (@X3_cell_id_and_name_identify_the_cell no_measure no_cancel
            demo_source demo_bbox 2 0%nat demo_cell east_cell
            demo_cell_written _ Hne).
  apply (nth_error_In _ 1). vm_compute. reflexivity.
Defined.

(** X4: the output schema is the input schema followed, in the order
    cell_id, cell_name, row, col, center_lat, center_lon, buffer, notes,
    by those of the eight columns whose name the input schema does not
    hold; a column of the input that bears one of the eight names keeps its
    place and its type.  No column name occurs twice in the output schema
    when none does in the input schema. *)
Theorem X4_output_schema_closed_form :
  forall source : FeatureSource,
    output_fields source
    = source_fields source
      ++ filter (fun c => negb (lookupField (source_fields source) (name c)))
                new_fields
    /\ (NoDup (map name (source_fields source)) ->
        NoDup (map name (output_fields source))).
Proof.
  intros source.
  change (output_fields source)
    with (fold_left append new_fields (source_fields source)).
  rewrite (@fold_append_filter new_fields _ NoDup_new_fields).
  split; [reflexivity|]. intros Hd.
  rewrite map_app. apply NoDup_app; [exact Hd| |].
  - apply NoDup_map_NoDup_ForallPairs.
    + intros a b Ha Hb E. apply filter_In in Ha, Hb.
      destruct Ha as [Ha _], Hb as [Hb _]. cbn in Ha, Hb.
      repeat (destruct Ha as [<-|Ha]);
        repeat (destruct Hb as [<-|Hb]);
        try reflexivity; try discriminate E; try contradiction.
    + apply NoDup_filter.
      exact (NoDup_map_inv name new_fields NoDup_new_fields).
  - intros n Hn Hn'. apply in_map_iff in Hn'.
    destruct Hn' as [c [<- Hc]]. apply filter_In in Hc.
    destruct Hc as [_ Hc]. apply lookupField_In in Hn.
    now rewrite Hn in Hc.
Qed.

Lemma X4_output_schema_closed_form_witness :
  output_fields layer_with_row
  = [ mkField "row" QString; mkField "fid" QInt;
      mkField "cell_id" QInt; mkField "cell_name" QString;
      mkField "col" QInt; mkField "center_lat" QDouble;
      mkField "center_lon" QDouble; mkField "buffer" QDouble;
      mkField "notes" QString ]
  /\ NoDup (map name (output_fields layer_with_row)).
Proof.
  split; [exact (proj1 (X4_output_schema_closed_form layer_with_row))|].
  apply (proj2 (X4_output_schema_closed_form layer_with_row)).
  cbn. repeat (constructor; [cbn; intuition discriminate|]). constructor.
Defined.

Lemma flat_map_nil (A B : Type) (l : list A) :
  flat_map (fun _ : A => @nil B) l = [].
Proof. induction l as [|a l IH]; [reflexivity|exact IH]. Qed.

(** X5: a run over a layer with several features, not cancelled, in
    which the width and the number of rows of every box can be computed,
    ends normally with the identifier of the output layer; the sink holds
    the complete grids of the input features one after the other, in input
    order, every grid numbered from 1 again (cell ids are not unique across
    input features); and the distance calculator was called once per
    input feature. *)
Theorem X5_grids_of_all_features :
  forall (measureLine : QgsPointXY -> QgsPointXY -> float)
         (isCanceled : nat -> bool) (source : FeatureSource)
         (num_columns : Z) (dest_id : string),
    never_canceled isCanceled ->
    (forall g, In g (getFeatures source) ->
       exists s, grid_shape (geometry g) num_columns = inr s) ->
    let run :=
      processAlgorithm measureLine isCanceled
        (mkParameters (Some source) num_columns (Some dest_id)) in
    snd run = inr dest_id
    /\ sink (fst run)
       = flat_map (fun g => pass_grid (output_fields source) num_columns
                                      (geometry g))
                  (getFeatures source)
    /\ List.length (measured (fst run)) = List.length (getFeatures source).
Proof.
  intros measureLine isCanceled source n dest_id Hc Hs run.
  subst run. unfold processAlgorithm. cbn [INPUT OUTPUT COLUMNS].
  destruct (@feature_loop_returns measureLine isCanceled
              (output_fields source) n (getFeatures source) 0%nat
              (pass_grid (output_fields source) n) Hs)
    as [H1 [H2 [p H3]]].
  - intros g polls' Hg. destruct (Hs g Hg) as [s Hshape].
    exact (@partition_uncancelled measureLine isCanceled
             (output_fields source) n (geometry g) polls' s Hc Hshape).
  - destruct (feature_loop measureLine isCanceled (output_fields source) n
                           (getFeatures source) 0) as [evs r].
    cbn [fst snd] in *. subst r. cbn [fst snd]. auto.
Qed.

Lemma X5_grids_of_all_features_witness :
  never_canceled no_cancel
  /\ List.length
       (sink (fst (processAlgorithm no_measure no_cancel
                     (mkParameters (Some two_boxes) 2
                                   (Some "grid"%string)))))
     = 6%nat.
Proof.
  assert (Hc : never_canceled no_cancel) by (intros k; reflexivity).
  split; [exact Hc|].
  assert (Hs : forall g, In g (getFeatures two_boxes) ->
                 exists s, grid_shape (geometry g) 2 = inr s).
  { intros g [<-|[<-|[]]]; eexists; reflexivity. }
  rewrite (proj1 (proj2 (@X5_grids_of_all_features no_measure no_cancel
                           two_boxes 2 "grid"%string Hc Hs))).
  reflexivity.
Defined.

(** X6: a feature whose box has no computable width or number of rows
    (a division by zero, an infinite or undefined quotient) ends the run
    with that exception, whatever the host answers: nothing is written for
    it, the features after it are not looked at, and what the features
    before it wrote stays in the sink, there being no rollback. *)
Theorem X6_failure_keeps_earlier_cells :
  forall (measureLine : QgsPointXY -> QgsPointXY -> float)
         (isCanceled : nat -> bool) (schema : QgsFields)
         (pre post : list QgsFeature) (bad : QgsFeature)
         (num_columns : Z) (dest_id : string) (e : Py.exn),
    grid_shape (geometry bad) num_columns = inl e ->
    let run :=
      processAlgorithm measureLine isCanceled
        (mkParameters (Some (mkSource schema (pre ++ bad :: post)))
                      num_columns (Some dest_id)) in
    let before :=
      processAlgorithm measureLine isCanceled
        (mkParameters (Some (mkSource schema pre))
                      num_columns (Some dest_id)) in
    sink (fst run) = sink (fst before)
    /\ (snd before = inr dest_id -> snd run = inl e).
Proof.
  intros measureLine isCanceled schema pre post bad n dest_id e Hb run before.
  subst run before. unfold processAlgorithm.
  cbn [INPUT OUTPUT COLUMNS getFeatures].
  change (output_fields (mkSource schema (pre ++ bad :: post)))
    with (output_fields (mkSource schema pre)).
  destruct (@feature_loop_stops measureLine isCanceled
              (output_fields (mkSource schema pre)) n pre post bad 0%nat e Hb)
    as [H1 H2].
  destruct (feature_loop measureLine isCanceled
              (output_fields (mkSource schema pre)) n (pre ++ bad :: post) 0)
    as [evs r].
  destruct (feature_loop measureLine isCanceled
              (output_fields (mkSource schema pre)) n pre 0)
    as [evs' [e'|p]]; cbn [fst snd] in *.
  - split; [|discriminate]. now destruct r.
  - rewrite (H2 (ex_intro _ p eq_refl)). cbn [fst snd].
    split; [exact H1|reflexivity].
Qed.

Lemma X6_failure_keeps_earlier_cells_witness :
  grid_shape line_bbox 2 = inl Py.ZeroDivisionError
  /\ snd (processAlgorithm no_measure no_cancel
            (mkParameters (Some broken_layer) 2 (Some "grid"%string)))
     = inl Py.ZeroDivisionError
  /\ List.length
       (sink (fst (processAlgorithm no_measure no_cancel
                     (mkParameters (Some broken_layer) 2
                                   (Some "grid"%string)))))
     = 2%nat.
Proof.
  split; [reflexivity|].
  pose proof (@X6_failure_keeps_earlier_cells no_measure no_cancel
                [mkField "fid" QInt]
                [mkFeature [mkField "fid" QInt] demo_bbox [Some (VInt 7)]]
                [mkFeature [mkField "fid" QInt] unit_bbox [Some (VInt 9)]]
                (mkFeature [mkField "fid" QInt] line_bbox [Some (VInt 8)])
                2 "grid"%string Py.ZeroDivisionError eq_refl) as H.
  cbv zeta in H. destruct H as [H1 H2]. split.
  - exact (H2 eq_refl).
  - unfold broken_layer. cbn [app] in H1. rewrite H1. reflexivity.
Defined.

(** X7: a run whose host answers yes to every poll writes no cell, yet
    it is not stopped: when the width and the number of rows of every box
    can be computed it still visits every input feature, calls the
    distance calculator once for each, and ends normally with the
    identifier of the output layer.  The loop over the input features
    never asks whether the run is cancelled. *)
Theorem X7_cancelled_run_writes_nothing :
  forall (measureLine : QgsPointXY -> QgsPointXY -> float)
         (isCanceled : nat -> bool) (source : FeatureSource)
         (num_columns : Z) (dest_id : string),
    (forall k, isCanceled k = true) ->
    (forall g, In g (getFeatures source) ->
       exists s, grid_shape (geometry g) num_columns = inr s) ->
    let run :=
      processAlgorithm measureLine isCanceled
        (mkParameters (Some source) num_columns (Some dest_id)) in
    snd run = inr dest_id
    /\ sink (fst run) = []
    /\ List.length (measured (fst run)) = List.length (getFeatures source).
Proof.
  intros measureLine isCanceled source n dest_id Hc Hs run.
  subst run. unfold processAlgorithm. cbn [INPUT OUTPUT COLUMNS].
  destruct (@feature_loop_returns measureLine isCanceled
              (output_fields source) n (getFeatures source) 0%nat
              (fun _ => []) Hs)
    as [H1 [H2 [p H3]]].
  - intros g polls' Hg. destruct (Hs g Hg) as [s Hshape].
    exact (@partition_cancelled measureLine isCanceled
             (output_fields source) n (geometry g) polls' s Hc Hshape).
  - destruct (feature_loop measureLine isCanceled (output_fields source) n
                           (getFeatures source) 0) as [evs r].
    cbn [fst snd] in *. subst r. cbn [fst snd].
    rewrite flat_map_nil in H1. auto.
Qed.

Lemma X7_cancelled_run_writes_nothing_witness :
  (forall k, always_cancel k = true)
  /\ snd (processAlgorithm no_measure always_cancel
            (mkParameters (Some two_boxes) 2 (Some "grid"%string)))
     = inr "grid"%string
  /\ sink (fst (processAlgorithm no_measure always_cancel
                  (mkParameters (Some two_boxes) 2 (Some "grid"%string))))
     = []
  /\ List.length
       (measured (fst (processAlgorithm no_measure always_cancel
                         (mkParameters (Some two_boxes) 2
                                       (Some "grid"%string)))))
     = 2%nat.
Proof.
  split; [intros k; reflexivity|].
  assert (Hs : forall g, In g (getFeatures two_boxes) ->
                 exists s, grid_shape (geometry g) 2 = inr s).
  { intros g [<-|[<-|[]]]; eexists; reflexivity. }
  exact (@X7_cancelled_run_writes_nothing no_measure always_cancel
           two_boxes 2 "grid"%string (fun k => eq_refl) Hs).
Defined.

(** X8: cells are written only for a box with four finite bounds, at
    least one column, and a computed width that is a finite number other
    than zero: a box with an infinite or NaN bound, in any position, gets
    no cell under any host. *)
Theorem X8_cells_need_a_finite_box :
  forall (measureLine : QgsPointXY -> QgsPointXY -> float)
         (isCanceled : nat -> bool) (fields : QgsFields)
         (bbox : QgsRectangle) (num_columns : Z) (polls : nat),
    let cells :=
      sink (fst (partition measureLine isCanceled fields num_columns
                           bbox polls)) in
    (forall f, In f cells ->
       (1 <= num_columns)%Z
       /\ exists B width_degrees w,
            rect_value bbox = Some B
            /\ widthDegrees bbox num_columns = inr width_degrees
            /\ Py.F2Q width_degrees = Some w
            /\ ~ w == 0)
    /\ (rect_value bbox = None -> cells = []).
Proof.
  intros measureLine isCanceled fields bbox n polls cells.
  assert (H : forall f, In f cells ->
            (1 <= n)%Z
            /\ exists B width_degrees w,
                 rect_value bbox = Some B
                 /\ widthDegrees bbox n = inr width_degrees
                 /\ Py.F2Q width_degrees = Some w
                 /\ ~ w == 0).
  { intros f Hf. apply partition_sink_id in Hf.
    destruct Hf as [w [nr [row [col [Hs [Hrow [Hcol _]]]]]]].
    split; [lia|].
    destruct (@grid_shape_finite bbox n w nr Hs ltac:(lia))
      as [[B HB] [s [m [e Hw]]]].
    exists B, w, (inject_Z (cond_Zopp s (Zpos m)) * Py.Qpow2 e).
    split; [exact HB|]. split.
    - unfold grid_shape in Hs.
      destruct (widthDegrees bbox n) as [e'|w']; [discriminate|].
      destruct (numRows bbox (heightDegrees w')); [discriminate|].
      now injection Hs as -> _.
    - split; [unfold Py.F2Q; now rewrite Hw|].
      destruct s.
      + pose proof (finite_value_neg m e). lra.
      + pose proof (finite_value_pos m e). lra. }
  split; [exact H|].
  intros Hn. apply sink_nil_intro. intros f Hf.
  destruct (H f Hf) as [_ [B [_ [_ [HB _]]]]]. congruence.
Qed.

Lemma X8_cells_need_a_finite_box_witness :
  sink (fst (partition no_measure no_cancel (output_fields demo_source) 2
                       (mkRect 0 0 infinity 4) 0)) = [].
Proof.
  exact (proj2 (@X8_cells_need_a_finite_box no_measure no_cancel
                  (output_fields demo_source) (mkRect 0 0 infinity 4) 2
                  0%nat) eq_refl).
Defined.

(** X9: the grid is anchored at the south-west corner of the box.  In
    every pass, every written cell of column 1 has its west edge at the
    number xMin stands for and every written cell of row 1 has its south
    edge at the number yMin stands for, with no rounding: the rounding of
    the division that gives the width shows only at the other edges. *)
Theorem X9_grid_anchored_south_west :
  forall (measureLine : QgsPointXY -> QgsPointXY -> float)
         (isCanceled : nat -> bool) (source : FeatureSource)
         (bbox : QgsRectangle) (num_columns : Z) (polls : nat)
         (f : QgsFeature),
    In f (sink (fst (partition measureLine isCanceled (output_fields source)
                               num_columns bbox polls))) ->
    exists B,
      rect_value bbox = Some B
      /\ (attr f "col" = Some (VInt 1) ->
          Py.F2Q (xMinimum (geometry f)) = Some (qx_min B))
      /\ (attr f "row" = Some (VInt 1) ->
          Py.F2Q (yMinimum (geometry f)) = Some (qy_min B)).
Proof.
  intros measureLine isCanceled source bbox n polls f Hf.
  apply partition_sink_id in Hf.
  destruct Hf as [w [nr [row [col [Hs [Hrow [Hcol ->]]]]]]].
  destruct (@grid_shape_finite bbox n w nr Hs ltac:(lia))
    as [[B HB] [s [m [e Hw]]]].
  exists B. split; [exact HB|].
  unfold rect_value in HB.
  destruct (Py.F2Q (xMinimum bbox)) as [a|] eqn:Ea; [|discriminate].
  destruct (Py.F2Q (yMinimum bbox)) as [c|] eqn:Ec; [|discriminate].
  destruct (Py.F2Q (xMaximum bbox)) as [b|]; [|discriminate].
  destruct (Py.F2Q (yMaximum bbox)) as [d|]; [|discriminate].
  injection HB as <-. cbn [qx_min qy_min].
  rewrite !attr_make_feature.
  rewrite !output_fields_new by (simpl; tauto).
  cbn [attrs get String.eqb Ascii.eqb Bool.eqb].
  cbn [make_feature geometry xMinimum yMinimum].
  unfold cell_x_min, cell_y_min. split; intros H.
  - assert (E : col = 0%Z) by (injection H; lia). subst col.
    exact (@add_zero_times (xMinimum bbox) w s m e a Hw Ea).
  - assert (E : row = 0%Z) by (injection H; lia). subst row.
    assert (Hh : Prim2SF (heightDegrees w) = S754_finite false m e).
    { unfold heightDegrees. now rewrite abs_spec, Hw. }
    exact (@add_zero_times (yMinimum bbox) (heightDegrees w) false m e c
             Hh Ec).
Qed.

Lemma X9_grid_anchored_south_west_witness :
  exists B,
    rect_value demo_bbox = Some B
    /\ (attr demo_cell "col" = Some (VInt 1) ->
        Py.F2Q (xMinimum (geometry demo_cell)) = Some (qx_min B))
    /\ (attr demo_cell "row" = Some (VInt 1) ->
        Py.F2Q (yMinimum (geometry demo_cell)) = Some (qy_min B)).
Proof.
  exact (@X9_grid_anchored_south_west no_measure no_cancel demo_source
           demo_bbox 2 0%nat demo_cell demo_cell_written).
Defined.

(** X10: progress is reported once after every cell written, and the
    k-th report of a pass is 100 * k / (numRows * numColumns) as Python
    divides two ints, under any host; the divisor is positive whenever a
    cell is written, so no report divides by zero.  When the pass is not
    cancelled and writes at least one cell, its last report is exactly
    100.0, whatever the size of the grid. *)
Theorem X10_progress_reports :
  forall (measureLine : QgsPointXY -> QgsPointXY -> float)
         (isCanceled : nat -> bool) (fields : QgsFields)
         (bbox : QgsRectangle) (num_columns : Z) (polls : nat)
         (width_degrees : float) (num_rows : Z),
    grid_shape bbox num_columns = inr (width_degrees, num_rows) ->
    let run := partition measureLine isCanceled fields num_columns
                         bbox polls in
    progress_reports (fst run)
    = map (fun k => percent (num_rows * num_columns) (Z.of_nat k))
          (seq 1 (List.length (sink (fst run))))
    /\ (sink (fst run) <> [] -> (0 < num_rows * num_columns)%Z)
    /\ (never_canceled isCanceled ->
        (0 < num_rows)%Z -> (0 < num_columns)%Z ->
        last (progress_reports (fst run)) PrimFloat.zero = 100%float).
Proof.
  intros measureLine isCanceled fields bbox n polls w nr Hs run.
  pose proof (@partition_progress measureLine isCanceled fields n bbox polls
                w nr Hs) as Hp.
  cbv zeta in Hp. fold run in Hp.
  assert (Hl : List.length (sink (fst run))
               = (rows_before_cancel isCanceled polls (Z.to_nat nr)
                  * Z.to_nat n)%nat).
  { pose proof Hs as Hs'. unfold grid_shape in Hs'.
    destruct (widthDegrees bbox n) as [e|w'] eqn:Hw; [discriminate|].
    destruct (numRows bbox (heightDegrees w')) as [e|nr'] eqn:Hr;
      [discriminate|].
    injection Hs' as -> ->.
    subst run.
    rewrite (proj1 (@partition_cancel measureLine isCanceled fields n
                      bbox polls w nr Hw Hr)).
    unfold grid_cells.
    rewrite (@flat_map_length_uniform _ _ _ (Z.to_nat n))
      by (intros; apply row_cells_length).
    now rewrite range_length, Nat2Z.id. }
  split; [now rewrite Hl|]. split.
  { intros Hne.
    pose proof (rows_before_cancel_le isCanceled polls (Z.to_nat nr)) as Hr.
    destruct (sink (fst run)) as [|c cs]; [now destruct Hne|].
    cbn [List.length] in Hl. nia. }
  intros Hc Hnr Hn. rewrite Hp.
  rewrite rows_before_cancel_never by assumption.
  destruct (Z.to_nat nr * Z.to_nat n)%nat as [|N] eqn:EN; [nia|].
  rewrite seq_S, map_app. cbn [map]. rewrite last_last.
  unfold percent.
  replace (Z.of_nat (1 + N)) with (nr * n)%Z by nia.
  rewrite int_truediv_hundred by nia. reflexivity.
Qed.

Lemma X10_progress_reports_witness :
  grid_shape unit_bbox 3 = inr ((1 / Py.float_of_int 3)%float, 3%Z)
  /\ never_canceled no_cancel
  /\ last (progress_reports (fst (partition no_measure no_cancel
                                    (output_fields demo_source) 3
                                    unit_bbox 0)))
          PrimFloat.zero
     = 100%float.
Proof.
  assert (Hc : never_canceled no_cancel) by (intros k; reflexivity).
  split; [reflexivity|]. split; [exact Hc|].
  exact (proj2 (proj2 (@X10_progress_reports no_measure no_cancel
                         (output_fields demo_source) unit_bbox 3 0%nat
                         (1 / Py.float_of_int 3)%float 3 eq_refl))
               Hc eq_refl eq_refl).
Defined.
